(** * The training orchestrator of [train.py]

    A shallow embedding of the control logic of the training script:
    the distributed start-up, the learning-rate schedule, the
    resume path, the evaluation and checkpointing block, the gradient
    accumulation loop and the epoch loop, followed by the properties
    established about them.

    Conventions of the embedding.
    - Python [int]s are [Z]; [%] and [//] on them are [Z.modulo] and
      [Z.div] (both floor towards minus infinity, like Python), and a zero
      divisor raises [ZeroDivisionError].
    - Python [float]s that are only compared, copied, averaged or divided
      by the accumulation count (losses, BLEU scores, best-so-far trackers)
      are rationals [Q]: every finite float is a rational and comparing
      two finite floats is comparing the rationals they denote.
    - The learning-rate schedule is given twice.  [get_lr] reads its
      formula over the reals, which fixes the branch taken and the
      divisions by zero; [get_lr_binary64] evaluates it as CPython does,
      on IEEE 754 doubles with every operation rounded to nearest, with
      the conversions of [int] operands and their [OverflowError], and
      with the C library's cosine as a parameter.
    - Calls into the collaborators (model, tokenizer, data loaders, the
      telemetry sink, the process group) are assumed to return; what they
      return is read from an [Oracle], and the calls themselves are
      recorded as [Event]s of a trace.
    - A computation that prints, logs, saves or raises is a value of [M]:
      the trace emitted so far together with a result or the exception
      raised. *)

From Stdlib Require Import ZArith QArith Reals Lra Lia List String Bool.
From Stdlib Require Import Floats.
From stdpp Require Import gmap strings.
Import ListNotations.
Open Scope Z_scope.

(** ** Exceptions and results *)

Inductive PyError : Type :=
| ZeroDivisionError
| AssertionError
| KeyError (key : string)
| NameError (name : string)
| TypeError
| FileNotFoundError
| OverflowError.

Inductive Result (A : Type) : Type :=
| Ok (a : A)
| Raise (e : PyError).
Arguments Ok {A} a.
Arguments Raise {A} e.

#[global] Instance Result_ret : MRet Result := fun A a => Ok a.
#[global] Instance Result_bind : MBind Result := fun A B f m =>
  match m with
  | Ok a => f a
  | Raise e => Raise e
  end.

(** [a % b] and [a // b] on Python integers. *)
Definition py_mod (a b : Z) : Result Z :=
  if b =? 0 then Raise ZeroDivisionError else Ok (a mod b).

Definition py_floordiv (a b : Z) : Result Z :=
  if b =? 0 then Raise ZeroDivisionError else Ok (a / b).

(** [range(n)]. *)
Definition py_range (n : Z) : list Z :=
  map Z.of_nat (seq 0 (Z.to_nat n)).

(** [x < y] on finite floats. *)
Definition Qlt_bool (x y : Q) : bool := negb (Qle_bool y x).

(** ** Configuration (the module-level globals, lines 40-90) *)

(** The three globals that the loop mutates. *)
Record TrainingState : Type := {
  iter_num : Z;
  best_val_loss : Q;
  best_val_bleu : Q
}.

Definition set_best_val_loss (st : TrainingState) (v : Q) : TrainingState :=
  {| iter_num := iter_num st; best_val_loss := v;
     best_val_bleu := best_val_bleu st |}.

Definition set_best_val_bleu (st : TrainingState) (v : Q) : TrainingState :=
  {| iter_num := iter_num st; best_val_loss := best_val_loss st;
     best_val_bleu := v |}.

Definition set_iter_num (st : TrainingState) (it : Z) : TrainingState :=
  {| iter_num := it; best_val_loss := best_val_loss st;
     best_val_bleu := best_val_bleu st |}.

(** The [config] dictionary of line 95: the overridable globals as they
    stand after the configurator ran.  [initial] holds the keys
    [iter_num], [best_val_loss] and [best_val_bleu]; the snapshot is taken
    before [gradient_accumulation_steps] is divided by the world size. *)
Record Config : Type := {
  sample_interval : Z;
  eval_interval : Z;
  log_interval : Z;
  eval_iters : Z;
  eval_only : bool;
  always_save_checkpoint : bool;
  init_from : string;
  wandb_log : bool;
  gradient_accumulation_steps : Z;
  batch_size : Z;
  block_size : Z;
  n_layer : Z;
  n_head : Z;
  n_embd : Z;
  dropout : Q;
  bias : bool;
  learning_rate : Q;
  max_iters : Z;
  grad_clip : Q;
  decay_lr : bool;
  warmup_iters : Z;
  lr_decay_iters : Z;
  min_lr : Q;
  initial : TrainingState;
  num_epochs : Z;
  max_n : Z
}.

(** The values written in the script. *)
Definition default_config : Config := {|
  sample_interval := 100;
  eval_interval := 600;
  log_interval := 50;
  eval_iters := 355;
  eval_only := false;
  always_save_checkpoint := false;
  init_from := "scratch";
  wandb_log := true;
  gradient_accumulation_steps := 8;
  batch_size := 8;
  block_size := 300;
  n_layer := 12;
  n_head := 8;
  n_embd := 512;
  dropout := 0;
  bias := false;
  learning_rate := 6 # 10000;
  max_iters := 120000;
  grad_clip := 1;
  decay_lr := true;
  warmup_iters := 2000;
  lr_decay_iters := 45000;
  min_lr := 6 # 100000;
  initial := {| iter_num := 0; best_val_loss := 1000000000; best_val_bleu := 0 |};
  num_epochs := 100;
  max_n := 4
|}.

(** ** Learning-rate schedule ([get_lr], lines 262-274) *)

Section Scheduler.
Variable cfg : Config.

Definition get_lr (it : Z) : Result R :=
  if it <? warmup_iters cfg then
    if warmup_iters cfg =? 0 then Raise ZeroDivisionError
    else Ok (Q2R (learning_rate cfg) * IZR it / IZR (warmup_iters cfg))%R
  else if lr_decay_iters cfg <? it then
    Ok (Q2R (min_lr cfg))
  else if lr_decay_iters cfg - warmup_iters cfg =? 0 then
    Raise ZeroDivisionError
  else
    let decay_ratio :=
      (IZR (it - warmup_iters cfg)
       / IZR (lr_decay_iters cfg - warmup_iters cfg))%R in
    if Rle_dec 0 decay_ratio then
      if Rle_dec decay_ratio 1 then
        let coeff := (0.5 * (1.0 + cos (PI * decay_ratio)))%R in
        Ok (Q2R (min_lr cfg)
            + coeff * (Q2R (learning_rate cfg) - Q2R (min_lr cfg)))%R
      else Raise AssertionError
    else Raise AssertionError.

(** Whether [get_lr it] raises, decided on the integers alone: the
    branch taken depends only on [it], [warmup_iters] and
    [lr_decay_iters].  [get_lr_raises_spec] below relates it to
    [get_lr]. *)
Definition get_lr_raises (it : Z) : option PyError :=
  if it <? warmup_iters cfg then
    if warmup_iters cfg =? 0 then Some ZeroDivisionError else None
  else if lr_decay_iters cfg <? it then None
  else if lr_decay_iters cfg - warmup_iters cfg =? 0 then
    Some ZeroDivisionError
  else None.
End Scheduler.

(** ** Distributed start-up (lines 100-123) *)

(** The environment variables the script reads. *)
Record Environ : Type := {
  RANK : option Z;
  LOCAL_RANK : option Z;
  WORLD_SIZE : option Z
}.

(** [os.environ[key]]. *)
Definition environ_get (key : string) (v : option Z) : Result Z :=
  match v with
  | Some z => Ok z
  | None => Raise (KeyError key)
  end.

(** In a single-worker run [ddp_rank] and [ddp_local_rank] stay unbound in
    the script and are only read under [if ddp]; the record carries 0. *)
Record RunContext : Type := {
  ddp : bool;
  ddp_rank : Z;
  ddp_local_rank : Z;
  ddp_world_size : Z;
  master_process : bool;
  seed_offset : Z
}.

(** Start-up returns the run context together with the per-process value
    of [gradient_accumulation_steps]. *)
Definition ddp_setup (env : Environ) (cfg : Config) : Result (RunContext * Z) :=
  if negb (default (-1) (RANK env) =? -1) then
    rank ← environ_get "RANK" (RANK env);
    local_rank ← environ_get "LOCAL_RANK" (LOCAL_RANK env);
    world_size ← environ_get "WORLD_SIZE" (WORLD_SIZE env);
    r ← py_mod (gradient_accumulation_steps cfg) world_size;
    if r =? 0 then
      steps ← py_floordiv (gradient_accumulation_steps cfg) world_size;
      mret ({| ddp := true; ddp_rank := rank; ddp_local_rank := local_rank;
               ddp_world_size := world_size; master_process := rank =? 0;
               seed_offset := rank |}, steps)
    else Raise AssertionError
  else
    mret ({| ddp := false; ddp_rank := 0; ddp_local_rank := 0;
             ddp_world_size := 1; master_process := true;
             seed_offset := 0 |}, gradient_accumulation_steps cfg).

(** [tokens_per_iter], line 123. *)
Definition tokens_per_iter (cfg : Config) (ctx : RunContext) (steps : Z) : Z :=
  steps * ddp_world_size ctx * batch_size cfg * block_size cfg.

(** ** Checkpoints (lines 165-187, 203-204 and 345-354) *)

(** A [state_dict()]: the tensors are opaque to the orchestrator. *)
Definition StateDict : Type := list Q.

(** [model_args], lines 139-140 and 190-192. *)
Record ModelArgs : Type := {
  args_n_layer : Z;
  args_n_head : Z;
  args_n_embd : Z;
  args_block_size : Z;
  args_bias : bool;
  args_dropout : Q
}.

Definition model_args (cfg : Config) : ModelArgs :=
  {| args_n_layer := n_layer cfg; args_n_head := n_head cfg;
     args_n_embd := n_embd cfg;
     args_block_size := if block_size cfg <? 300 then block_size cfg else 300;
     args_bias := bias cfg; args_dropout := dropout cfg |}.

(** The values a checkpoint dictionary holds. *)
Inductive PyVal : Type :=
| VInt (z : Z)
| VFloat (q : Q)
| VStateDict (s : StateDict)
| VModelArgs (a : ModelArgs)
| VConfig (c : Config).

(** The dictionary built at lines 345-352. *)
Definition make_checkpoint (cfg : Config) (model optimizer : StateDict)
    (st : TrainingState) : gmap string PyVal :=
  <["best_val_bleu" := VFloat (best_val_bleu st)]>
  (<["config" := VConfig cfg]>
  (<["best_val_loss" := VFloat (best_val_loss st)]>
  (<["model_args" := VModelArgs (model_args cfg)]>
  (<["optimizer" := VStateDict optimizer]>
  (<["model" := VStateDict model]> ∅))))).

(** [checkpoint[key]]. *)
Definition getitem (checkpoint : gmap string PyVal) (key : string)
    : Result PyVal :=
  match checkpoint !! key with
  | Some v => Ok v
  | None => Raise (KeyError key)
  end.

(** The loaded values are used as a state dictionary, an integer or a
    float; a value of another kind is reported as [TypeError] where it is
    read. *)
Definition as_state_dict (v : PyVal) : Result StateDict :=
  match v with VStateDict s => Ok s | _ => Raise TypeError end.

Definition as_int (v : PyVal) : Result Z :=
  match v with VInt z => Ok z | _ => Raise TypeError end.

Definition as_float (v : PyVal) : Result Q :=
  match v with
  | VFloat q => Ok q
  | VInt z => Ok (inject_Z z)
  | _ => Raise TypeError
  end.

(** What a resumed process holds after lines 165-204. *)
Record Resumed : Type := {
  resumed_model : StateDict;
  resumed_optimizer : StateDict;
  resumed_state : TrainingState
}.

Section Resume.
Variable ctx : RunContext.
(** [torch.tensor(x).to(device)], [dist.broadcast(_, src=0)] and
    [.item()] of lines 182-187, as seen by this process. *)
Variable broadcast_iter_num : Z -> Z.
Variable broadcast_best_val_loss : Q -> Q.

(** [file] is what [torch.load] finds at [out_dir/best_model.pt]. *)
Definition resume (file : option (gmap string PyVal)) : Result Resumed :=
  match file with
  | None => Raise FileNotFoundError
  | Some checkpoint =>
      model ← getitem checkpoint "model" ≫= as_state_dict;
      it ← getitem checkpoint "iter_num" ≫= as_int;
      loss ← getitem checkpoint "best_val_loss" ≫= as_float;
      bleu ← getitem checkpoint "best_val_bleu" ≫= as_float;
      let it' := if ddp ctx then broadcast_iter_num it else it in
      let loss' := if ddp ctx then broadcast_best_val_loss loss else loss in
      optimizer ← getitem checkpoint "optimizer" ≫= as_state_dict;
      mret {| resumed_model := model; resumed_optimizer := optimizer;
              resumed_state := {| iter_num := it'; best_val_loss := loss';
                                  best_val_bleu := bleu |} |}
  end.

(** Lines 159-204: the state the training loop starts from. *)
Definition initialise (cfg : Config) (file : option (gmap string PyVal))
    : Result (option Resumed * TrainingState) :=
  if String.eqb (init_from cfg) "scratch" then mret (None, initial cfg)
  else if String.eqb (init_from cfg) "resume" then
    r ← resume file; mret (Some r, resumed_state r)
  else mret (None, initial cfg).
End Resume.

(** ** Effects of the training loop *)

(** A batch yielded by the training loader, named by its index in the
    data set. *)
Definition Batch : Type := nat.

(** The calls the loop makes on its collaborators, in the order made.
    [epoch] is the 0-based loop variable (the log lines show [epoch+1]);
    the learning rate and the wall-clock time shown in some lines are not
    part of the events. *)
Inductive Event : Type :=
| SetEpoch (epoch : Z)
| LogEpochStart (epoch : Z)
| Evaluate (it : Z)
| PrintEval (it : Z) (val_loss val_bleu : Q)
| WandbVal (it : Z) (val_loss val_bleu : Q)
| SaveCheckpoint (checkpoint : gmap string PyVal)
| RequireBackwardGradSync (enabled : bool)
| Forward (batch : Batch)
| AllReduceAvg (contribution : Q)
| WandbTrainLoss (it : Z) (loss : Q)
| Backward (loss : Q)
| ClipGradNorm
| ScalerStep
| ScalerUpdate
| ZeroGrad
| PrintLoss (epoch it : Z) (lossf : Q)
| LogSample (it : Z)
| Barrier
| LogMaxIters
| PrintCompleted (it : Z)
| DestroyProcessGroup.

(** Trace emitted so far, and the value or the exception. *)
Record M (A : Type) : Type := Run {
  trace : list Event;
  result : Result A
}.
Arguments Run {A} trace result.
Arguments trace {A} m.
Arguments result {A} m.

#[global] Instance M_ret : MRet M := fun A a => Run [] (Ok a).
#[global] Instance M_bind : MBind M := fun A B f m =>
  match result m with
  | Ok a => Run (trace m ++ trace (f a)) (result (f a))
  | Raise e => Run (trace m) (Raise e)
  end.

Definition emit (e : Event) : M unit := Run [e] (Ok tt).
Definition raise {A : Type} (e : PyError) : M A := Run [] (Raise e).
Definition lift {A : Type} (r : Result A) : M A := Run [] r.
Definition when (b : bool) (m : M unit) : M unit := if b then m else mret tt.

(** [for x in xs: body], with the variables the body assigns threaded
    through as [s]. *)
Fixpoint for_each {A S : Type} (xs : list A) (body : A -> S -> M S) (s : S)
    : M S :=
  match xs with
  | [] => mret s
  | x :: xs' => s' ← body x s; for_each xs' body s'
  end.

(** How a loop body ends. *)
Inductive Flow : Type := Continue | Break.

(** ** What the collaborators return *)

Record Oracle : Type := {
  (** the batches [enumerate(train_loader)] yields in an epoch *)
  train_loader : Z -> list Batch;
  (** [(val_loss, val_bleu)] of [evaluate] called at an iteration *)
  evaluate : Z -> Q * Q;
  (** [outputs[1]] of [model(images, targets)] on this process, for a
      batch at an iteration and micro-step *)
  model_loss : Batch -> Z -> Z -> Q;
  (** the losses the other workers contribute to [all_reduce] at an
      iteration and micro-step *)
  peer_losses : Z -> Z -> list Q;
  (** [state_dict()] of the model and of the optimizer at an iteration *)
  model_state_dict : Z -> StateDict;
  optimizer_state_dict : Z -> StateDict
}.

Definition Qsum (l : list Q) : Q := fold_right Qplus 0%Q l.

Definition mean (l : list Q) : Q :=
  (Qsum l / inject_Z (Z.of_nat (length l)))%Q.

(** [dist.all_reduce(loss_tensor, op=dist.ReduceOp.AVG)]: every worker
    receives the mean of all contributions. *)
Definition all_reduce_avg (own : Q) (peers : list Q) : Q := mean (own :: peers).

(** ** The training loop (lines 288-441) *)

Section Training.
Variable cfg : Config.
Variable ctx : RunContext.
(** [gradient_accumulation_steps] as start-up left it. *)
Variable steps : Z.
Variable orc : Oracle.

(** [wandb_log] after lines 277-280. *)
Definition wandb_enabled : bool := wandb_log cfg && master_process ctx.

(** Line 309; the rate itself goes to the optimizer and the log lines, so
    only whether [get_lr] raises matters here ([set_lr_get_lr] below). *)
Definition set_lr (it : Z) : M unit :=
  if decay_lr cfg then
    match get_lr_raises cfg it with
    | Some e => raise e
    | None => mret tt
    end
  else mret tt.

(** Lines 337-341. *)
Definition update_best (st : TrainingState) (val_loss val_bleu : Q)
    : TrainingState :=
  if Qlt_bool val_loss (best_val_loss st) then set_best_val_loss st val_loss
  else if Qlt_bool (best_val_bleu st) val_bleu then
    set_best_val_bleu st val_bleu
  else st.

(** Line 336. *)
Definition improved (st : TrainingState) (val_loss val_bleu : Q) : bool :=
  Qlt_bool val_loss (best_val_loss st)
  || always_save_checkpoint cfg
  || Qlt_bool (best_val_bleu st) val_bleu.

(** Lines 345-354. *)
Definition save_checkpoint (st : TrainingState) : M unit :=
  emit (SaveCheckpoint
          (make_checkpoint cfg (model_state_dict orc (iter_num st))
             (optimizer_state_dict orc (iter_num st)) st)).

(** Evaluation and checkpointing, lines 315-354. *)
Definition eval_and_checkpoint (st : TrainingState) : M TrainingState :=
  r ← lift (py_mod (iter_num st) (eval_interval cfg));
  if (r =? 0) && master_process ctx then
    let '(val_loss, val_bleu) := evaluate orc (iter_num st) in
    emit (Evaluate (iter_num st));;
    emit (PrintEval (iter_num st) val_loss val_bleu);;
    when wandb_enabled (emit (WandbVal (iter_num st) val_loss val_bleu));;
    if improved st val_loss val_bleu then
      let st' := update_best st val_loss val_bleu in
      when (0 <? iter_num st) (save_checkpoint st');;
      mret st'
    else mret st
  else mret st.

(** One pass of the micro-step loop, lines 361-400; the value threaded
    through is the variable [loss], unbound before the first pass. *)
Definition micro_step_body (batch : Batch) (it : Z) (micro_step : Z)
    (_ : option Q) : M (option Q) :=
  when (ddp ctx)
    (emit (RequireBackwardGradSync (micro_step =? steps - 1)));;
  emit (Forward batch);;
  let orig_loss := model_loss orc batch it micro_step in
  let loss := (orig_loss / inject_Z steps)%Q in
  avg_loss ← (if ddp ctx then
                emit (AllReduceAvg orig_loss);;
                mret (all_reduce_avg orig_loss (peer_losses orc it micro_step))
              else mret orig_loss);
  when (wandb_enabled && master_process ctx)
    (emit (WandbTrainLoss it (if ddp ctx then avg_loss else orig_loss)));;
  emit (Backward loss);;
  mret (Some loss).

(** Lines 360-410: the micro-steps, clipping and the optimizer step. *)
Definition accumulate_and_step (batch : Batch) (it : Z) : M (option Q) :=
  loss ← for_each (py_range steps) (micro_step_body batch it) None;
  when (negb (Qeq_bool (grad_clip cfg) 0)) (emit ClipGradNorm);;
  emit ScalerStep;;
  emit ScalerUpdate;;
  emit ZeroGrad;;
  mret loss.

(** Lines 417-429.  [loss] and [decoded_prediction] are bound by the
    micro-step loop only.  The elapsed time that the message divides by
    is not modelled. *)
Definition log_iteration (epoch it : Z) (loss : option Q) : M unit :=
  r ← lift (py_mod it (log_interval cfg));
  when ((r =? 0) && master_process ctx)
    (match loss with
     | Some l => emit (PrintLoss epoch it (l * inject_Z steps)%Q)
     | None => raise (NameError "loss")
     end);;
  r' ← lift (py_mod it (sample_interval cfg));
  when (r' =? 0)
    (match loss with
     | Some _ => emit (LogSample it)
     | None => raise (NameError "decoded_prediction")
     end).

(** The body of the batch loop, lines 299-431. *)
Definition iteration (epoch : Z) (batch : Batch) (st : TrainingState)
    : M (Flow * TrainingState) :=
  set_lr (iter_num st);;
  st' ← eval_and_checkpoint st;
  if (iter_num st' =? 0) && eval_only cfg then mret (Break, st')
  else
    loss ← accumulate_and_step batch (iter_num st');
    log_iteration epoch (iter_num st') loss;;
    mret (Continue, set_iter_num st' (iter_num st' + 1)).

(** [for batch_idx, (images, latex_labels) in enumerate(train_loader)]. *)
Fixpoint run_batches (epoch : Z) (batches : list Batch) (st : TrainingState)
    : M TrainingState :=
  match batches with
  | [] => mret st
  | batch :: rest =>
      '(flow, st') ← iteration epoch batch st;
      match flow with
      | Break => mret st'
      | Continue => run_batches epoch rest st'
      end
  end.

(** The body of the epoch loop, lines 290-439; [SetEpoch] stands for the
    two [set_epoch] calls of lines 291-292. *)
Definition run_epoch (epoch : Z) (st : TrainingState)
    : M (Flow * TrainingState) :=
  when (ddp ctx) (emit (SetEpoch epoch));;
  when (master_process ctx) (emit (LogEpochStart epoch));;
  st' ← run_batches epoch (train_loader orc epoch) st;
  if ddp ctx then
    emit Barrier;;
    if max_iters cfg <? iter_num st' then
      emit LogMaxIters;; mret (Break, st')
    else mret (Continue, st')
  else mret (Continue, st').

(** [for epoch in range(num_epochs)]. *)
Fixpoint run_epochs (epochs : list Z) (st : TrainingState)
    : M TrainingState :=
  match epochs with
  | [] => mret st
  | epoch :: rest =>
      '(flow, st') ← run_epoch epoch st;
      match flow with
      | Break => mret st'
      | Continue => run_epochs rest st'
      end
  end.

(** Lines 288-444. *)
Definition train (st : TrainingState) : M TrainingState :=
  st' ← run_epochs (py_range (num_epochs cfg)) st;
  emit (PrintCompleted (iter_num st'));;
  when (ddp ctx) (emit DestroyProcessGroup);;
  mret st'.
End Training.

(** The whole script: start-up, initialisation, training.
    [broadcast_iter_num] and [broadcast_best_val_loss] are what the
    broadcasts of a distributed resume leave on this process. *)
Definition main (env : Environ) (cfg : Config)
    (file : option (gmap string PyVal))
    (broadcast_iter_num : Z -> Z) (broadcast_best_val_loss : Q -> Q)
    (orc : Oracle) : M TrainingState :=
  '(ctx, steps) ← lift (ddp_setup env cfg);
  '(_, st) ← lift (initialise ctx broadcast_iter_num broadcast_best_val_loss
                     cfg file);
  train cfg ctx steps orc st.

(** ** Reading a trace *)

(** The value of a computation that returned. *)
Definition result_value {A : Type} (m : M A) : option A :=
  match result m with
  | Ok a => Some a
  | Raise _ => None
  end.

(** The batches of the forward passes, in order. *)
Definition forwards (t : list Event) : list Batch :=
  omap (fun e => match e with Forward b => Some b | _ => None end) t.

(** The losses handed to the backward passes, in order. *)
Definition backwards (t : list Event) : list Q :=
  omap (fun e => match e with Backward l => Some l | _ => None end) t.

(** The successive settings of [require_backward_grad_sync]. *)
Definition grad_syncs (t : list Event) : list bool :=
  omap (fun e => match e with
                 | RequireBackwardGradSync b => Some b
                 | _ => None
                 end) t.

(** The number of calls of [scaler.step(optimizer)]. *)
Definition optimizer_steps (t : list Event) : nat :=
  length (omap (fun e => match e with ScalerStep => Some tt | _ => None end) t).

(** The checkpoints written, the iterations evaluated at, and the epochs
    announced in the log. *)
Definition saved (t : list Event) : list (gmap string PyVal) :=
  omap (fun e => match e with SaveCheckpoint c => Some c | _ => None end) t.

Definition evaluated (t : list Event) : list Z :=
  omap (fun e => match e with Evaluate it => Some it | _ => None end) t.

Definition epochs_started (t : list Event) : list Z :=
  omap (fun e => match e with LogEpochStart ep => Some ep | _ => None end) t.

(** Events of the evaluation block, and events of the epoch loop outside
    the batch loop. *)
Definition eval_event (e : Event) : bool :=
  match e with
  | Evaluate _ | PrintEval _ _ _ | WandbVal _ _ _ | SaveCheckpoint _ => true
  | _ => false
  end.

Definition epoch_event (e : Event) : bool :=
  match e with
  | SetEpoch _ | LogEpochStart _ | Barrier | LogMaxIters | PrintCompleted _
  | DestroyProcessGroup => true
  | _ => false
  end.

(** Events of the batch loop outside its evaluation block. *)
Definition step_event (e : Event) : Prop :=
  eval_event e = false /\ epoch_event e = false.

(** Events other than the epoch-boundary barrier and the stop on
    [max_iters]. *)
Definition boundary_free (e : Event) : Prop := e <> Barrier /\ e <> LogMaxIters.

(** Every checkpoint an event writes is a dictionary of lines 345-352. *)
Definition written_by_script (e : Event) : Prop :=
  match e with
  | SaveCheckpoint c =>
      exists cfg model optimizer st, c = make_checkpoint cfg model optimizer st
  | _ => True
  end.

(** The events of one micro-step, lines 361-400. *)
Definition micro_step_trace (cfg : Config) (ctx : RunContext) (steps : Z)
    (orc : Oracle) (batch : Batch) (it micro_step : Z) : list Event :=
  let orig_loss := model_loss orc batch it micro_step in
  (if ddp ctx then [RequireBackwardGradSync (micro_step =? steps - 1)] else [])
  ++ [Forward batch]
  ++ (if ddp ctx then [AllReduceAvg orig_loss] else [])
  ++ (if wandb_enabled cfg ctx && master_process ctx then
        [WandbTrainLoss it
           (if ddp ctx then
              all_reduce_avg orig_loss (peer_losses orc it micro_step)
            else orig_loss)]
      else [])
  ++ [Backward (orig_loss / inject_Z steps)%Q].

(** The training losses sent to the telemetry sink and those printed on
    the console. *)
Definition wandb_train_losses (t : list Event) : list Q :=
  omap (fun e => match e with WandbTrainLoss _ l => Some l | _ => None end) t.

Definition printed_losses (t : list Event) : list Q :=
  omap (fun e => match e with PrintLoss _ _ l => Some l | _ => None end) t.

(** ** Sample runs *)

(** The run context of a single-worker run and of the coordinator of a
    distributed run, as [ddp_setup] builds them. *)
Definition single_worker : RunContext :=
  {| ddp := false; ddp_rank := 0; ddp_local_rank := 0; ddp_world_size := 1;
     master_process := true; seed_offset := 0 |}.

Definition coordinator (world_size : Z) : RunContext :=
  {| ddp := true; ddp_rank := 0; ddp_local_rank := 0;
     ddp_world_size := world_size; master_process := true; seed_offset := 0 |}.

(** The script's configuration with a short evaluation and logging
    cadence, two accumulation steps and a single epoch. *)
Definition short_config : Config := {|
  sample_interval := 100;
  eval_interval := 1;
  log_interval := 1;
  eval_iters := 355;
  eval_only := false;
  always_save_checkpoint := false;
  init_from := "scratch";
  wandb_log := true;
  gradient_accumulation_steps := 2;
  batch_size := 8;
  block_size := 300;
  n_layer := 12;
  n_head := 8;
  n_embd := 512;
  dropout := 0;
  bias := false;
  learning_rate := 6 # 10000;
  max_iters := 1;
  grad_clip := 1;
  decay_lr := true;
  warmup_iters := 2000;
  lr_decay_iters := 45000;
  min_lr := 6 # 100000;
  initial := {| iter_num := 0; best_val_loss := 1000000000; best_val_bleu := 0 |};
  num_epochs := 1;
  max_n := 4
|}.

(** The same with three epochs: with the three batches per epoch of the
    sample loader, [iter_num] passes [max_iters = 1] within the first
    epoch. *)
Definition three_epoch_config : Config := {|
  sample_interval := 100;
  eval_interval := 1;
  log_interval := 1;
  eval_iters := 355;
  eval_only := false;
  always_save_checkpoint := false;
  init_from := "scratch";
  wandb_log := true;
  gradient_accumulation_steps := 2;
  batch_size := 8;
  block_size := 300;
  n_layer := 12;
  n_head := 8;
  n_embd := 512;
  dropout := 0;
  bias := false;
  learning_rate := 6 # 10000;
  max_iters := 1;
  grad_clip := 1;
  decay_lr := true;
  warmup_iters := 2000;
  lr_decay_iters := 45000;
  min_lr := 6 # 100000;
  initial := {| iter_num := 0; best_val_loss := 1000000000; best_val_bleu := 0 |};
  num_epochs := 3;
  max_n := 4
|}.

(** Collaborators for the sample runs: every epoch yields the batches 0,
    1 and 2; the first evaluation returns loss 2 and BLEU 1/2, the later
    ones loss 3 and BLEU 1/10; this worker's training loss is always 1 and
    the single other worker's is 3. *)
Definition sample_oracle : Oracle := {|
  train_loader := fun _ => [0%nat; 1%nat; 2%nat];
  evaluate := fun it => if it =? 0 then (2, 1 # 2)%Q else (3, 1 # 10)%Q;
  model_loss := fun _ _ _ => 1%Q;
  peer_losses := fun _ _ => [3%Q];
  model_state_dict := fun _ => [];
  optimizer_state_dict := fun _ => []
|}.

(** ** Logging to the text file ([log_info], lines 222-228) *)

(** The log file opened in append mode and the console. *)
Record LogState : Type := {
  log_file : string;
  stdout : list string
}.

Definition newline : string := String (Ascii.ascii_of_nat 10) EmptyString.

(** [timestamp] is the formatted [datetime.now()] of the call. *)
Definition log_info (timestamp message : string) (also_print : bool)
    (s : LogState) : LogState :=
  let log_message :=
    String.append "[" (String.append timestamp (String.append "] " message)) in
  {| log_file := String.append (log_file s) (String.append log_message newline);
     stdout := if also_print then stdout s ++ [log_message] else stdout s |}.

(** A call of [log_info]: time stamp, message, [also_print]. *)
Definition LogCall : Type := (string * string * bool)%type.

Definition log_message_of (c : LogCall) : string :=
  String.append "[" (String.append c.1.1 (String.append "] " c.1.2)).

(** Successive calls. *)
Definition log_all (calls : list LogCall) (s : LogState) : LogState :=
  fold_left (fun s c => log_info c.1.1 c.1.2 c.2 s) calls s.

(** ** Specifying loops *)

(** A property of traces that holds of the empty trace and is kept by
    concatenation. *)
Definition closed_under_app (Q : list Event -> Prop) : Prop :=
  Q [] /\ forall t1 t2, Q t1 -> Q t2 -> Q (t1 ++ t2).

(** [m] emits a trace satisfying [Q] and, if it returns, returns a value
    satisfying [R]. *)
Definition ensures {A : Type} (m : M A) (Q : list Event -> Prop)
    (R : A -> Prop) : Prop :=
  Q (trace m) /\ forall a, result m = Ok a -> R a.

(** The number of batches the loader yields over some epochs. *)
Definition batches_in (orc : Oracle) (epochs : list Z) : Z :=
  fold_right (fun epoch n => Z.of_nat (length (train_loader orc epoch)) + n)
    0 epochs.

(** Events that the script guards with [master_process]: evaluation,
    checkpoints, telemetry, the console loss line and the epoch
    announcement. *)
Definition coordinator_event (e : Event) : bool :=
  match e with
  | Evaluate _ | PrintEval _ _ _ | WandbVal _ _ _ | SaveCheckpoint _
  | WandbTrainLoss _ _ | PrintLoss _ _ _ | LogEpochStart _ => true
  | _ => false
  end.

(** The number of epoch-boundary barriers. *)
Definition barriers (t : list Event) : nat :=
  length (omap (fun e => match e with Barrier => Some tt | _ => None end) t).

(** A checkpoint event of a run configured by [cfg] writes a dictionary of
    lines 345-352 built from [cfg]. *)
Definition written_with (cfg : Config) (e : Event) : Prop :=
  match e with
  | SaveCheckpoint c =>
      exists model optimizer st, c = make_checkpoint cfg model optimizer st
  | _ => True
  end.

(** ** The schedule in binary64 *)

(** Lines 262-274 as CPython evaluates them: [learning_rate] and [min_lr]
    are doubles, the iteration counts are [int]s, every arithmetic
    operation rounds to the nearest double (ties to even), and [math.cos]
    is the cosine of the platform's C library. *)

(** The double nearest to an integer. *)
Definition binary64_of_int (z : Z) : float :=
  SF2Prim (binary_normalize prec emax z 0 false).

(** An [int] operand of a float operation is converted first; the
    conversion raises [OverflowError] for the integers that round to
    [2^1024] or beyond. *)
Definition float_of_int (z : Z) : Result float :=
  if 2 ^ 1024 - 2 ^ 970 <=? Z.abs z then Raise OverflowError
  else Ok (binary64_of_int z).

(** The double nearest to the quotient of two integers, the divisor not
    zero; a zero numerator gives a zero with the sign of the quotient. *)
Definition SF_of_quotient (a b : Z) : spec_float :=
  let s := xorb (a <? 0) (b <? 0) in
  match Z.abs a with
  | Z0 => S754_zero s
  | a' =>
      let '(mz, ez, lz) := SFdiv_core_binary prec emax a' 0 (Z.abs b) 0 in
      binary_round_aux prec emax s mz ez lz
  end.

Definition binary64_of_quotient (a b : Z) : float :=
  SF2Prim (SF_of_quotient a b).

(** [a / b] on two [int]s: true division, correctly rounded. *)
Definition int_truediv (a b : Z) : Result float :=
  if b =? 0 then Raise ZeroDivisionError
  else
    let q := binary64_of_quotient a b in
    if is_infinity q then Raise OverflowError else Ok q.

(** A decimal literal of the configuration denotes the nearest double. *)
Definition float_of_Q (q : Q) : float :=
  binary64_of_quotient (Qnum q) (Zpos (Qden q)).

(** [math.pi]. *)
Definition math_pi : float := 0x1.921fb54442d18p+1%float.

Section SchedulerBinary64.
Variable cfg : Config.
(** [math.cos], a function of the C library the interpreter is built on. *)
Variable math_cos : float -> float.

Definition get_lr_binary64 (it : Z) : Result float :=
  let learning_rate := float_of_Q (learning_rate cfg) in
  let min_lr := float_of_Q (min_lr cfg) in
  if it <? warmup_iters cfg then
    it_f ← float_of_int it;
    let scaled := (learning_rate * it_f)%float in
    warmup_f ← float_of_int (warmup_iters cfg);
    if (warmup_f =? 0)%float then Raise ZeroDivisionError
    else Ok (scaled / warmup_f)%float
  else if lr_decay_iters cfg <? it then Ok min_lr
  else
    decay_ratio ← int_truediv (it - warmup_iters cfg)
                    (lr_decay_iters cfg - warmup_iters cfg);
    if ((0 <=? decay_ratio) && (decay_ratio <=? 1))%float then
      let coeff := (0.5 * (1 + math_cos (math_pi * decay_ratio)))%float in
      Ok (min_lr + coeff * (learning_rate - min_lr))%float
    else Raise AssertionError.
End SchedulerBinary64.


(** Cosine values of the C library at the two ends of the decay, for
    sample evaluations: [cos(0.0) = 1.0] and [cos(math.pi) = -1.0]; other
    arguments are not looked up. *)
Definition cos_at_ends (x : float) : float :=
  if (x =? 0)%float then 1%float
  else if (x =? math_pi)%float then (-1)%float
  else nan.

(** The script's configuration with [learning_rate = 0.01] and
    [min_lr = 0.001]. *)
Definition rounding_config : Config := {|
  sample_interval := 100;
  eval_interval := 600;
  log_interval := 50;
  eval_iters := 355;
  eval_only := false;
  always_save_checkpoint := false;
  init_from := "scratch";
  wandb_log := true;
  gradient_accumulation_steps := 8;
  batch_size := 8;
  block_size := 300;
  n_layer := 12;
  n_head := 8;
  n_embd := 512;
  dropout := 0;
  bias := false;
  learning_rate := 1 # 100;
  max_iters := 120000;
  grad_clip := 1;
  decay_lr := true;
  warmup_iters := 2000;
  lr_decay_iters := 45000;
  min_lr := 1 # 1000;
  initial := {| iter_num := 0; best_val_loss := 1000000000; best_val_bleu := 0 |};
  num_epochs := 100;
  max_n := 4
|}.

(** ** Passes and the synchronisation flag *)

(** A pass through the model or the optimizer; a forward or a backward
    pass carries the value of [model.require_backward_grad_sync] in force
    when it is made ([None]: line 364 has not assigned it so far). *)
Inductive Pass : Type :=
| ForwardPass (sync : option bool) (batch : Batch)
| BackwardPass (sync : option bool) (loss : Q)
| OptimizerStep.

(** The passes of a trace, in order, read with the flag [sync] in force at
    its start. *)
Fixpoint passes (sync : option bool) (t : list Event) : list Pass :=
  match t with
  | [] => []
  | e :: t' =>
      match e with
      | RequireBackwardGradSync b => passes (Some b) t'
      | Forward batch => ForwardPass sync batch :: passes sync t'
      | Backward loss => BackwardPass sync loss :: passes sync t'
      | ScalerStep => OptimizerStep :: passes sync t'
      | _ => passes sync t'
      end
  end.

(** The flag in force after a trace. *)
Definition sync_after (sync : option bool) (t : list Event) : option bool :=
  fold_left (fun s e => match e with
                        | RequireBackwardGradSync b => Some b
                        | _ => s
                        end) t sync.

(** * Properties *)

(** ** Comparisons and the monad *)

Lemma Qlt_bool_iff (x y : Q) : Qlt_bool x y = true <-> (x < y)%Q.
Proof.
  unfold Qlt_bool. rewrite negb_true_iff, <- not_true_iff_false, Qle_bool_iff.
  split; [apply Qnot_le_lt | apply Qlt_not_le].
Qed.

Lemma Qlt_bool_false_iff (x y : Q) : Qlt_bool x y = false <-> (y <= x)%Q.
Proof.
  unfold Qlt_bool. rewrite negb_false_iff. apply Qle_bool_iff.
Qed.

Lemma py_mod_nonzero (a b : Z) : b <> 0 -> py_mod a b = Ok (a mod b).
Proof.
  intros Hb. unfold py_mod. destruct (Z.eqb_spec b 0); [contradiction | reflexivity].
Qed.

Lemma py_range_length (n : Z) : length (py_range n) = Z.to_nat n.
Proof. unfold py_range. rewrite length_map, length_seq. reflexivity. Qed.

Lemma py_range_In (n i : Z) : In i (py_range n) <-> 0 <= i < n.
Proof.
  unfold py_range. rewrite in_map_iff. split.
  - intros (k & <- & Hk). apply in_seq in Hk. lia.
  - intros Hi. exists (Z.to_nat i). split; [lia | apply in_seq; lia].
Qed.

(** ** Checkpoints *)

(** The saved dictionary has exactly the six keys of lines 345-352. *)
Lemma make_checkpoint_keys cfg model optimizer st :
  dom (make_checkpoint cfg model optimizer st)
  = ({["model"; "optimizer"; "model_args"; "best_val_loss"; "config";
       "best_val_bleu"]} : gset string).
Proof.
  unfold make_checkpoint. rewrite !dom_insert_L, dom_empty_L. set_solver.
Qed.

Lemma make_checkpoint_no_iter_num cfg model optimizer st :
  make_checkpoint cfg model optimizer st !! "iter_num" = None.
Proof.
  unfold make_checkpoint.
  repeat (rewrite lookup_insert_ne by done). apply lookup_empty.
Qed.

Lemma make_checkpoint_best cfg model optimizer st :
  make_checkpoint cfg model optimizer st !! "best_val_loss"
    = Some (VFloat (best_val_loss st))
  /\ make_checkpoint cfg model optimizer st !! "best_val_bleu"
    = Some (VFloat (best_val_bleu st)).
Proof. split; reflexivity. Qed.

Lemma make_checkpoint_model cfg model optimizer st :
  make_checkpoint cfg model optimizer st !! "model" = Some (VStateDict model).
Proof. reflexivity. Qed.

(** The only place the iteration count reaches the file is the [config]
    snapshot, which holds the value the run started with. *)
Lemma make_checkpoint_config cfg model optimizer st :
  make_checkpoint cfg model optimizer st !! "config" = Some (VConfig cfg).
Proof. reflexivity. Qed.

(** Resuming from a dictionary of lines 345-352 stops at line 176. *)
Lemma resume_make_checkpoint ctx bcast_it bcast_loss cfg model optimizer st :
  resume ctx bcast_it bcast_loss (Some (make_checkpoint cfg model optimizer st))
  = Raise (KeyError "iter_num").
Proof.
  unfold resume, getitem.
  rewrite make_checkpoint_model, make_checkpoint_no_iter_num. reflexivity.
Qed.

(** C1: a checkpoint written by lines 345-354 carries [best_val_loss] and
    [best_val_bleu] but no [iter_num] key, so resuming from it stops at
    [checkpoint['iter_num']] (line 176) with a [KeyError], whatever the
    training state was when it was saved: nothing is restored. *)
Theorem resume_saved_checkpoint_raises ctx bcast_it bcast_loss cfg model
    optimizer st :
  let checkpoint := make_checkpoint cfg model optimizer st in
  checkpoint !! "iter_num" = None
  /\ checkpoint !! "best_val_loss" = Some (VFloat (best_val_loss st))
  /\ checkpoint !! "best_val_bleu" = Some (VFloat (best_val_bleu st))
  /\ resume ctx bcast_it bcast_loss (Some checkpoint)
     = Raise (KeyError "iter_num").
Proof.
  cbv zeta. split; [apply make_checkpoint_no_iter_num|].
  split; [apply make_checkpoint_best|]. split; [apply make_checkpoint_best|].
  apply resume_make_checkpoint.
Qed.

(** The same through the initialisation of a run started with
    [init_from = 'resume']. *)
Lemma initialise_resume_saved_checkpoint ctx bcast_it bcast_loss cfg cfg' model
    optimizer st :
  init_from cfg' = "resume"%string ->
  initialise ctx bcast_it bcast_loss cfg'
    (Some (make_checkpoint cfg model optimizer st))
  = Raise (KeyError "iter_num").
Proof.
  intros Hinit. unfold initialise. rewrite Hinit. cbn [String.eqb].
  change (String.eqb "resume" "scratch") with false.
  change (String.eqb "resume" "resume") with true. cbn iota.
  rewrite resume_make_checkpoint. reflexivity.
Qed.

(** A file that does hold the three fields is restored as written
    (single-worker run). *)
Lemma resume_restores ctx bcast_it bcast_loss model optimizer it loss bleu
    (rest : gmap string PyVal) :
  ddp ctx = false ->
  resume ctx bcast_it bcast_loss
    (Some (<["iter_num" := VInt it]>
           (<["best_val_loss" := VFloat loss]>
           (<["best_val_bleu" := VFloat bleu]>
           (<["optimizer" := VStateDict optimizer]>
           (<["model" := VStateDict model]> rest))))))
  = Ok {| resumed_model := model; resumed_optimizer := optimizer;
          resumed_state := {| iter_num := it; best_val_loss := loss;
                              best_val_bleu := bleu |} |}.
Proof.
  intros Hddp. unfold resume, getitem. rewrite Hddp.
  repeat (rewrite ?lookup_insert_eq; rewrite ?lookup_insert_ne by done).
  reflexivity.
Qed.

(** ** Distributed start-up *)

Lemma ddp_setup_single_worker env cfg :
  RANK env = None ->
  ddp_setup env cfg
  = Ok ({| ddp := false; ddp_rank := 0; ddp_local_rank := 0;
           ddp_world_size := 1; master_process := true; seed_offset := 0 |},
        gradient_accumulation_steps cfg).
Proof. intros Hrank. unfold ddp_setup. rewrite Hrank. reflexivity. Qed.

Lemma ddp_setup_distributed env cfg rank local_rank world_size :
  RANK env = Some rank -> rank <> -1 ->
  LOCAL_RANK env = Some local_rank ->
  WORLD_SIZE env = Some world_size -> world_size <> 0 ->
  ddp_setup env cfg
  = if gradient_accumulation_steps cfg mod world_size =? 0 then
      Ok ({| ddp := true; ddp_rank := rank; ddp_local_rank := local_rank;
             ddp_world_size := world_size; master_process := rank =? 0;
             seed_offset := rank |},
          gradient_accumulation_steps cfg / world_size)
    else Raise AssertionError.
Proof.
  intros Hrank Hne Hlocal Hworld Hnz. unfold ddp_setup.
  rewrite Hrank, Hlocal, Hworld.
  change (default (-1) (Some rank)) with rank.
  destruct (Z.eqb_spec rank (-1)) as [|_]; [contradiction|].
  unfold py_mod, py_floordiv. cbn.
  destruct (Z.eqb_spec world_size 0); [contradiction|]. cbn.
  destruct (gradient_accumulation_steps cfg mod world_size =? 0);
    reflexivity.
Qed.

(** C8, as stated, fails: with the script's 8 accumulation steps and 4
    workers the world size is not divisible by the step count, yet
    start-up proceeds (8 % 4 == 0) with 2 steps per process. *)
Lemma world_size_not_divisible_proceeds :
  let env := {| RANK := Some 0; LOCAL_RANK := Some 0; WORLD_SIZE := Some 4 |} in
  ~ (gradient_accumulation_steps default_config | 4)
  /\ ddp_setup env default_config
     = Ok ({| ddp := true; ddp_rank := 0; ddp_local_rank := 0;
              ddp_world_size := 4; master_process := true;
              seed_offset := 0 |}, 2).
Proof.
  split; [|reflexivity].
  intros [z Hz]. cbn in Hz. lia.
Qed.

(** C8, amended: in a distributed run start-up fails its assertion exactly
    when the accumulation step count is not divisible by the world size;
    it is the first thing the script does, so nothing has been loaded,
    logged or trained when it fails; and for every divisible configuration
    start-up returns, with [steps // world_size] steps per process. *)
Theorem ddp_setup_asserts_divisibility env cfg rank local_rank world_size :
  RANK env = Some rank -> rank <> -1 ->
  LOCAL_RANK env = Some local_rank ->
  WORLD_SIZE env = Some world_size -> world_size <> 0 ->
  ((exists e, ddp_setup env cfg = Raise e)
   <-> ~ (world_size | gradient_accumulation_steps cfg))
  /\ (~ (world_size | gradient_accumulation_steps cfg) ->
      forall file bcast_it bcast_loss orc,
        main env cfg file bcast_it bcast_loss orc = Run [] (Raise AssertionError))
  /\ ((world_size | gradient_accumulation_steps cfg) ->
      exists ctx,
        ddp_setup env cfg
        = Ok (ctx, gradient_accumulation_steps cfg / world_size)
        /\ ddp ctx = true /\ ddp_world_size ctx = world_size).
Proof.
  intros Hrank Hne Hlocal Hworld Hnz.
  pose proof (ddp_setup_distributed env cfg _ _ _ Hrank Hne Hlocal Hworld Hnz)
    as Hsetup.
  pose proof (Z.mod_divide (gradient_accumulation_steps cfg) world_size Hnz)
    as Hdiv.
  destruct (Z.eqb_spec (gradient_accumulation_steps cfg mod world_size) 0)
    as [Hmod | Hmod].
  - split; [|split].
    + split; [intros [e He]; rewrite Hsetup in He; discriminate|].
      intros Hnot. exfalso. apply Hnot, Hdiv, Hmod.
    + intros Hnot. exfalso. apply Hnot, Hdiv, Hmod.
    + intros _. eexists. split; [exact Hsetup|]. split; reflexivity.
  - assert (Hnot : ~ (world_size | gradient_accumulation_steps cfg))
      by (intros Hd; apply Hmod, Hdiv, Hd).
    split; [|split].
    + split; [intros _; exact Hnot | intros _; eexists; exact Hsetup].
    + intros _ file bcast_it bcast_loss orc. unfold main. rewrite Hsetup.
      reflexivity.
    + intros Hd. contradiction.
Qed.

Lemma ddp_setup_asserts_divisibility_witness :
  let env := {| RANK := Some 1; LOCAL_RANK := Some 1; WORLD_SIZE := Some 4 |} in
  ((exists e, ddp_setup env default_config = Raise e)
   <-> ~ (4 | gradient_accumulation_steps default_config))
  /\ (~ (4 | gradient_accumulation_steps default_config) ->
      forall file bcast_it bcast_loss orc,
        main env default_config file bcast_it bcast_loss orc
        = Run [] (Raise AssertionError))
  /\ ((4 | gradient_accumulation_steps default_config) ->
      exists ctx,
        ddp_setup env default_config
        = Ok (ctx, gradient_accumulation_steps default_config / 4)
        /\ ddp ctx = true /\ ddp_world_size ctx = 4).
Proof.
  intros env.
  apply (ddp_setup_asserts_divisibility env default_config 1 1 4);
    [reflexivity | lia | reflexivity | reflexivity | lia].
Defined.

(** ** Best-metric tracking *)

(** C2: when one validation result improves both metrics, lines 337-341
    record the loss only; the [elif] leaves [best_val_bleu] at its old
    value.  Here the first evaluation of a fresh run returns loss 2 and
    BLEU 1/2: both beat the initial 1e9 and 0, the result counts as
    improved, and the trackers become 2 and 0. *)
Theorem update_best_both_improved_drops_bleu :
  let st := initial default_config in
  Qlt_bool 2 (best_val_loss st) = true
  /\ Qlt_bool (best_val_bleu st) (1 # 2) = true
  /\ improved default_config st 2 (1 # 2) = true
  /\ update_best st 2 (1 # 2)
     = {| iter_num := 0; best_val_loss := 2; best_val_bleu := 0 |}.
Proof. repeat split. Qed.

(** In general the BLEU tracker moves only when the loss did not improve. *)
Lemma update_best_loss st val_loss val_bleu :
  best_val_loss (update_best st val_loss val_bleu)
  = if Qlt_bool val_loss (best_val_loss st) then val_loss else best_val_loss st.
Proof.
  unfold update_best.
  destruct (Qlt_bool val_loss (best_val_loss st)); [reflexivity|].
  destruct (Qlt_bool (best_val_bleu st) val_bleu); reflexivity.
Qed.

Lemma update_best_bleu st val_loss val_bleu :
  best_val_bleu (update_best st val_loss val_bleu)
  = if Qlt_bool val_loss (best_val_loss st) then best_val_bleu st
    else if Qlt_bool (best_val_bleu st) val_bleu then val_bleu
    else best_val_bleu st.
Proof.
  unfold update_best.
  destruct (Qlt_bool val_loss (best_val_loss st)); [reflexivity|].
  destruct (Qlt_bool (best_val_bleu st) val_bleu); reflexivity.
Qed.

Lemma update_best_iter_num st val_loss val_bleu :
  iter_num (update_best st val_loss val_bleu) = iter_num st.
Proof.
  unfold update_best.
  destruct (Qlt_bool val_loss (best_val_loss st)); [reflexivity|].
  destruct (Qlt_bool (best_val_bleu st) val_bleu); reflexivity.
Qed.

(** The part of the tracking that does hold: the loss tracker never
    increases and the BLEU tracker never decreases. *)
Lemma update_best_monotone st val_loss val_bleu :
  (best_val_loss (update_best st val_loss val_bleu) <= best_val_loss st)%Q
  /\ (best_val_bleu st <= best_val_bleu (update_best st val_loss val_bleu))%Q.
Proof.
  rewrite update_best_loss, update_best_bleu.
  destruct (Qlt_bool val_loss (best_val_loss st)) eqn:Hloss.
  - split; [apply Qlt_le_weak, Qlt_bool_iff, Hloss | apply Qle_refl].
  - split; [apply Qle_refl|].
    destruct (Qlt_bool (best_val_bleu st) val_bleu) eqn:Hbleu;
      [apply Qlt_le_weak, Qlt_bool_iff, Hbleu | apply Qle_refl].
Qed.

(** ** Traces of composed computations *)

Lemma bind_ok {A B : Type} (m : M A) (f : A -> M B) (a : A) :
  result m = Ok a ->
  m ≫= f = Run (trace m ++ trace (f a)) (result (f a)).
Proof. intros Hm. unfold mbind, M_bind. rewrite Hm. reflexivity. Qed.

Lemma bind_raise {A B : Type} (m : M A) (f : A -> M B) (e : PyError) :
  result m = Raise e ->
  m ≫= f = Run (trace m) (Raise e).
Proof. intros Hm. unfold mbind, M_bind. rewrite Hm. reflexivity. Qed.

Lemma bind_run_ok {A B : Type} (t : list Event) (a : A) (f : A -> M B) :
  Run t (Ok a) ≫= f = Run (t ++ trace (f a)) (result (f a)).
Proof. reflexivity. Qed.

Lemma Forall_trace_bind {A B : Type} (P : Event -> Prop) (m : M A)
    (f : A -> M B) :
  Forall P (trace m) -> (forall a, Forall P (trace (f a))) ->
  Forall P (trace (m ≫= f)).
Proof.
  intros Hm Hf. unfold mbind, M_bind. destruct (result m) as [a | e]; cbn.
  - apply Forall_app. split; [exact Hm | apply Hf].
  - exact Hm.
Qed.

Lemma Forall_trace_for_each {A S : Type} (P : Event -> Prop) (xs : list A)
    (body : A -> S -> M S) :
  (forall x s, Forall P (trace (body x s))) ->
  forall s, Forall P (trace (for_each xs body s)).
Proof.
  intros Hbody. induction xs as [| x xs IH]; intros s; cbn.
  - constructor.
  - apply Forall_trace_bind; [apply Hbody | exact IH].
Qed.

Lemma Forall_trace_when (P : Event -> Prop) (b : bool) (m : M unit) :
  Forall P (trace m) -> Forall P (trace (when b m)).
Proof. intros Hm. destruct b; [exact Hm | constructor]. Qed.

Lemma last_cons_default {A : Type} (l : list A) (a d : A) :
  List.last (a :: l) d = List.last l a.
Proof.
  revert a d. induction l as [| b l IH]; intros a d; [reflexivity|].
  change (List.last (a :: b :: l) d) with (List.last (b :: l) d).
  rewrite (IH b d), (IH b a). reflexivity.
Qed.

(** A loop whose body always returns emits the bodies' events in order. *)
Lemma for_each_run {A S : Type} (xs : list A) (body : A -> S -> M S)
    (events : A -> list Event) (out : A -> S) :
  (forall x s, body x s = Run (events x) (Ok (out x))) ->
  forall s,
    for_each xs body s
    = Run (flat_map events xs) (Ok (List.last (map out xs) s)).
Proof.
  intros Hbody. induction xs as [| x xs IH]; intros s; [reflexivity|].
  cbn [for_each]. rewrite Hbody, bind_run_ok, IH. cbn [trace result flat_map].
  cbn [map]. rewrite last_cons_default. reflexivity.
Qed.

(** ** Gradient accumulation *)

Lemma micro_step_body_run cfg ctx steps orc batch it micro_step loss :
  micro_step_body cfg ctx steps orc batch it micro_step loss
  = Run (micro_step_trace cfg ctx steps orc batch it micro_step)
        (Ok (Some (model_loss orc batch it micro_step / inject_Z steps)%Q)).
Proof.
  unfold micro_step_body, micro_step_trace.
  destruct (ddp ctx), (wandb_enabled cfg ctx && master_process ctx);
    reflexivity.
Qed.

(** The events and the value of lines 360-410. *)
Lemma accumulate_and_step_run cfg ctx steps orc batch it :
  accumulate_and_step cfg ctx steps orc batch it
  = Run (flat_map (micro_step_trace cfg ctx steps orc batch it) (py_range steps)
         ++ (if negb (Qeq_bool (grad_clip cfg) 0) then [ClipGradNorm] else [])
         ++ [ScalerStep; ScalerUpdate; ZeroGrad])
        (Ok (List.last
               (map (fun i => Some (model_loss orc batch it i / inject_Z steps)%Q)
                  (py_range steps)) None)).
Proof.
  unfold accumulate_and_step.
  rewrite (for_each_run _ _ _ _ (micro_step_body_run cfg ctx steps orc batch it)).
  rewrite bind_run_ok. f_equal.
  - f_equal. destruct (negb (Qeq_bool (grad_clip cfg) 0)); reflexivity.
  - destruct (negb (Qeq_bool (grad_clip cfg) 0)); reflexivity.
Qed.

Lemma forwards_micro_steps cfg ctx steps orc batch it (xs : list Z) :
  forwards (flat_map (micro_step_trace cfg ctx steps orc batch it) xs)
  = map (fun _ => batch) xs.
Proof.
  unfold forwards. induction xs as [| i xs IH]; [reflexivity|].
  cbn [flat_map map]. rewrite omap_app, IH. f_equal.
  unfold micro_step_trace.
  destruct (ddp ctx), (wandb_enabled cfg ctx && master_process ctx);
    reflexivity.
Qed.

Lemma backwards_micro_steps cfg ctx steps orc batch it (xs : list Z) :
  backwards (flat_map (micro_step_trace cfg ctx steps orc batch it) xs)
  = map (fun i => (model_loss orc batch it i / inject_Z steps)%Q) xs.
Proof.
  unfold backwards. induction xs as [| i xs IH]; [reflexivity|].
  cbn [flat_map map]. rewrite omap_app, IH. f_equal.
  unfold micro_step_trace.
  destruct (ddp ctx), (wandb_enabled cfg ctx && master_process ctx);
    reflexivity.
Qed.

Lemma grad_syncs_micro_steps cfg ctx steps orc batch it (xs : list Z) :
  grad_syncs (flat_map (micro_step_trace cfg ctx steps orc batch it) xs)
  = if ddp ctx then map (fun i => i =? steps - 1) xs else [].
Proof.
  unfold grad_syncs. induction xs as [| i xs IH].
  - destruct (ddp ctx); reflexivity.
  - cbn [flat_map map]. rewrite omap_app, IH. unfold micro_step_trace.
    destruct (ddp ctx), (wandb_enabled cfg ctx && master_process ctx);
      reflexivity.
Qed.

Lemma optimizer_steps_micro_steps cfg ctx steps orc batch it (xs : list Z) :
  optimizer_steps (flat_map (micro_step_trace cfg ctx steps orc batch it) xs)
  = 0%nat.
Proof.
  unfold optimizer_steps. induction xs as [| i xs IH]; [reflexivity|].
  cbn [flat_map]. rewrite omap_app, length_app, IH. unfold micro_step_trace.
  destruct (ddp ctx), (wandb_enabled cfg ctx && master_process ctx);
    reflexivity.
Qed.

Lemma map_const_replicate {A B : Type} (b : B) (xs : list A) :
  map (fun _ => b) xs = replicate (length xs) b.
Proof. induction xs as [| x xs IH]; [reflexivity | cbn; rewrite IH; reflexivity]. Qed.

Lemma py_range_succ (n : nat) :
  py_range (Z.of_nat (S n)) = py_range (Z.of_nat n) ++ [Z.of_nat n].
Proof.
  unfold py_range. rewrite !Nat2Z.id, seq_S, map_app. reflexivity.
Qed.

(** The flag is false at every micro-step but the last one. *)
Lemma final_step_flags (steps : Z) :
  1 <= steps ->
  map (fun i => i =? steps - 1) (py_range steps)
  = replicate (Z.to_nat (steps - 1)) false ++ [true].
Proof.
  intros Hsteps.
  assert (Hrange : py_range steps
                   = py_range (steps - 1) ++ [steps - 1]).
  { replace (steps - 1) with (Z.of_nat (Z.to_nat (steps - 1))) by lia.
    rewrite <- py_range_succ. f_equal. lia. }
  rewrite Hrange, map_app. cbn [map]. f_equal.
  - rewrite <- (py_range_length (steps - 1)), <- map_const_replicate.
    apply map_ext_in. intros i Hi. apply py_range_In in Hi.
    apply Z.eqb_neq. lia.
  - f_equal. apply Z.eqb_eq. reflexivity.
Qed.

(** C4: every micro-step of an iteration runs the forward pass on the one
    batch the loader yielded for that iteration (line 366 reads the
    [images] and [targets] of line 299); no micro-step pulls a batch of its
    own, so with [steps] accumulation steps the same batch is used [steps]
    times. *)
Theorem micro_steps_reuse_fetched_batch cfg ctx steps orc batch it :
  forwards (trace (accumulate_and_step cfg ctx steps orc batch it))
  = replicate (Z.to_nat steps) batch.
Proof.
  rewrite accumulate_and_step_run. cbn [trace]. unfold forwards.
  rewrite omap_app. fold (forwards (flat_map (micro_step_trace cfg ctx steps orc batch it) (py_range steps))).
  rewrite forwards_micro_steps, map_const_replicate, py_range_length.
  destruct (negb (Qeq_bool (grad_clip cfg) 0)); cbn; apply app_nil_r.
Qed.

(** The passes of a concatenation: the second trace is read with the flag
    the first one leaves. *)
Lemma passes_app (sync : option bool) (t1 t2 : list Event) :
  passes sync (t1 ++ t2) = passes sync t1 ++ passes (sync_after sync t1) t2.
Proof.
  revert sync. induction t1 as [| e t1 IH]; intros sync; [reflexivity|].
  destruct e; cbn [app passes sync_after fold_left]; rewrite ?IH;
    reflexivity.
Qed.

(** One micro-step: a forward and a backward pass under the flag that
    line 364 has just set, or under the flag left untouched in a
    single-worker run. *)
Lemma passes_micro_step cfg ctx steps orc batch it i sync :
  let s := if ddp ctx then Some (i =? steps - 1) else sync in
  passes sync (micro_step_trace cfg ctx steps orc batch it i)
  = [ForwardPass s batch;
     BackwardPass s (model_loss orc batch it i / inject_Z steps)%Q]
  /\ sync_after sync (micro_step_trace cfg ctx steps orc batch it i) = s.
Proof.
  unfold micro_step_trace.
  destruct (ddp ctx), (wandb_enabled cfg ctx && master_process ctx);
    split; reflexivity.
Qed.

Lemma passes_micro_steps cfg ctx steps orc batch it (xs : list Z) rest sync :
  passes sync
    (flat_map (micro_step_trace cfg ctx steps orc batch it) xs ++ rest)
  = flat_map (fun i =>
      let s := if ddp ctx then Some (i =? steps - 1) else sync in
      [ForwardPass s batch;
       BackwardPass s (model_loss orc batch it i / inject_Z steps)%Q]) xs
    ++ passes (sync_after sync
                 (flat_map (micro_step_trace cfg ctx steps orc batch it) xs))
         rest.
Proof.
  revert sync. induction xs as [| i xs IH]; intros sync; [reflexivity|].
  cbn [flat_map]. rewrite <- !app_assoc, passes_app.
  destruct (passes_micro_step cfg ctx steps orc batch it i sync) as [Hp Hs].
  rewrite Hp. cbn zeta in Hs. unfold sync_after in *.
  rewrite fold_left_app, Hs. fold (sync_after sync).
  cbn [app]. do 2 f_equal.
  specialize (IH (if ddp ctx then Some (i =? steps - 1) else sync)).
  unfold sync_after in IH. rewrite IH.
  destruct (ddp ctx); reflexivity.
Qed.

(** C5: with [steps >= 0] accumulation steps, lines 360-410 return and
    perform exactly [steps] forward and [steps] backward passes; the
    loss handed to the backward pass of micro-step [i] is the model's loss
    of that micro-step divided by [steps] (line 382, the scaling by
    [1/steps]); read in order with
    the synchronisation flag in force at each pass, the trace is, for
    each micro-step in turn, a forward and a backward pass, followed by
    exactly one [scaler.step(optimizer)]; in a distributed run both
    passes of micro-step [i] are made under
    [require_backward_grad_sync = (i == steps - 1)], so under [False] at
    every micro-step but the last and under [True] at the last; in a
    single-worker run the flag is never touched. *)
Theorem accumulation_then_one_step cfg ctx steps orc batch it :
  0 <= steps ->
  let m := accumulate_and_step cfg ctx steps orc batch it in
  let scaled i := (model_loss orc batch it i / inject_Z steps)%Q in
  (exists loss, result m = Ok loss)
  /\ Z.of_nat (length (forwards (trace m))) = steps
  /\ Z.of_nat (length (backwards (trace m))) = steps
  /\ backwards (trace m) = map scaled (py_range steps)
  /\ (forall sync,
        passes sync (trace m)
        = flat_map (fun i =>
            let s := if ddp ctx then Some (i =? steps - 1) else sync in
            [ForwardPass s batch; BackwardPass s (scaled i)])
            (py_range steps)
          ++ [OptimizerStep])
  /\ (ddp ctx = true -> 1 <= steps -> forall sync,
        passes sync (trace m)
        = flat_map (fun i =>
            [ForwardPass (Some false) batch;
             BackwardPass (Some false) (scaled i)])
            (py_range (steps - 1))
          ++ [ForwardPass (Some true) batch;
              BackwardPass (Some true) (scaled (steps - 1));
              OptimizerStep])
  /\ (ddp ctx = true ->
      grad_syncs (trace m) = map (fun i => i =? steps - 1) (py_range steps)
      /\ (1 <= steps ->
          grad_syncs (trace m)
          = replicate (Z.to_nat (steps - 1)) false ++ [true]))
  /\ (ddp ctx = false -> grad_syncs (trace m) = [])
  /\ exists micro rest,
       trace m = micro ++ rest
       /\ forwards micro = forwards (trace m)
       /\ backwards micro = backwards (trace m)
       /\ optimizer_steps micro = 0%nat
       /\ optimizer_steps rest = 1%nat
       /\ optimizer_steps (trace m) = 1%nat.
Proof.
  intros Hsteps m scaled. subst m scaled.
  rewrite accumulate_and_step_run. cbn [trace result].
  set (micro := flat_map (micro_step_trace cfg ctx steps orc batch it)
                  (py_range steps)).
  set (rest := (if negb (Qeq_bool (grad_clip cfg) 0) then [ClipGradNorm] else [])
               ++ [ScalerStep; ScalerUpdate; ZeroGrad]).
  assert (Hf : forwards (micro ++ rest) = forwards micro).
  { unfold forwards. rewrite omap_app. subst rest.
    destruct (negb (Qeq_bool (grad_clip cfg) 0)); cbn; apply app_nil_r. }
  assert (Hb : backwards (micro ++ rest) = backwards micro).
  { unfold backwards. rewrite omap_app. subst rest.
    destruct (negb (Qeq_bool (grad_clip cfg) 0)); cbn; apply app_nil_r. }
  assert (Hg : grad_syncs (micro ++ rest) = grad_syncs micro).
  { unfold grad_syncs. rewrite omap_app. subst rest.
    destruct (negb (Qeq_bool (grad_clip cfg) 0)); cbn; apply app_nil_r. }
  assert (Hrest : optimizer_steps rest = 1%nat).
  { subst rest. destruct (negb (Qeq_bool (grad_clip cfg) 0)); reflexivity. }
  assert (Hmicro : optimizer_steps micro = 0%nat)
    by apply optimizer_steps_micro_steps.
  assert (Hpasses : forall sync,
            passes sync (micro ++ rest)
            = flat_map (fun i =>
                let s := if ddp ctx then Some (i =? steps - 1) else sync in
                [ForwardPass s batch;
                 BackwardPass s
                   (model_loss orc batch it i / inject_Z steps)%Q])
                (py_range steps)
              ++ [OptimizerStep]).
  { intros sync. subst micro. rewrite passes_micro_steps. f_equal.
    subst rest. destruct (negb (Qeq_bool (grad_clip cfg) 0)); reflexivity. }
  rewrite Hf, Hb, Hg. subst micro.
  rewrite forwards_micro_steps, backwards_micro_steps, grad_syncs_micro_steps.
  rewrite !length_map, py_range_length.
  split; [eexists; reflexivity|].
  split; [lia|]. split; [lia|].
  split; [reflexivity|].
  split; [exact Hpasses|].
  split.
  { intros Hddp H1 sync. rewrite Hpasses, Hddp.
    assert (Hrange : py_range steps = py_range (steps - 1) ++ [steps - 1]).
    { replace (steps - 1) with (Z.of_nat (Z.to_nat (steps - 1))) by lia.
      rewrite <- py_range_succ. f_equal. lia. }
    rewrite Hrange at 1. rewrite flat_map_app, <- app_assoc.
    cbn [flat_map app]. rewrite Z.eqb_refl. f_equal.
    rewrite !flat_map_concat_map. f_equal.
    apply map_ext_in. intros i Hi. apply py_range_In in Hi.
    replace (i =? steps - 1) with false; [reflexivity|].
    symmetry. apply Z.eqb_neq. lia. }
  split.
  { intros ->. split; [reflexivity|]. intros H1. apply final_step_flags, H1. }
  split; [intros ->; reflexivity|].
  eexists _, rest. split; [reflexivity|].
  rewrite forwards_micro_steps, backwards_micro_steps.
  repeat split; [exact Hmicro | exact Hrest |].
  unfold optimizer_steps in *. rewrite omap_app, length_app, Hmicro, Hrest.
  reflexivity.
Qed.

Lemma accumulation_then_one_step_witness :
  0 <= 4
  /\ let m := accumulate_and_step default_config (coordinator 2) 4
                sample_oracle 0%nat 0 in
     let scaled i := (model_loss sample_oracle 0%nat 0 i / inject_Z 4)%Q in
     (exists loss, result m = Ok loss)
     /\ Z.of_nat (length (forwards (trace m))) = 4
     /\ Z.of_nat (length (backwards (trace m))) = 4
     /\ backwards (trace m) = map scaled (py_range 4)
     /\ (forall sync,
           passes sync (trace m)
           = flat_map (fun i =>
               let s := if ddp (coordinator 2) then Some (i =? 4 - 1)
                        else sync in
               [ForwardPass s 0%nat; BackwardPass s (scaled i)])
               (py_range 4)
             ++ [OptimizerStep])
     /\ (ddp (coordinator 2) = true -> 1 <= 4 -> forall sync,
           passes sync (trace m)
           = flat_map (fun i =>
               [ForwardPass (Some false) 0%nat;
                BackwardPass (Some false) (scaled i)])
               (py_range (4 - 1))
             ++ [ForwardPass (Some true) 0%nat;
                 BackwardPass (Some true) (scaled (4 - 1));
                 OptimizerStep])
     /\ (ddp (coordinator 2) = true ->
         grad_syncs (trace m) = map (fun i => i =? 4 - 1) (py_range 4)
         /\ (1 <= 4 ->
             grad_syncs (trace m)
             = replicate (Z.to_nat (4 - 1)) false ++ [true]))
     /\ (ddp (coordinator 2) = false -> grad_syncs (trace m) = [])
     /\ exists micro rest,
          trace m = micro ++ rest
          /\ forwards micro = forwards (trace m)
          /\ backwards micro = backwards (trace m)
          /\ optimizer_steps micro = 0%nat
          /\ optimizer_steps rest = 1%nat
          /\ optimizer_steps (trace m) = 1%nat.
Proof.
  split; [lia|].
  apply (accumulation_then_one_step default_config (coordinator 2) 4
           sample_oracle 0%nat 0).
  lia.
Defined.

(** Four accumulation steps on the coordinator of a distributed run:
    three forward and backward passes without gradient synchronisation,
    the fourth with it, then the optimizer step. *)
Example passes_of_four_micro_steps :
  passes None
    (trace (accumulate_and_step default_config (coordinator 2) 4
              sample_oracle 0%nat 0))
  = [ForwardPass (Some false) 0%nat; BackwardPass (Some false) (1 / 4)%Q;
     ForwardPass (Some false) 0%nat; BackwardPass (Some false) (1 / 4)%Q;
     ForwardPass (Some false) 0%nat; BackwardPass (Some false) (1 / 4)%Q;
     ForwardPass (Some true) 0%nat; BackwardPass (Some true) (1 / 4)%Q;
     OptimizerStep].
Proof. reflexivity. Qed.

(** Two accumulation steps over the batches 0, 1 and 2: each batch is
    run through the model twice. *)
Example forwards_of_short_run :
  forwards (trace (train short_config single_worker 2 sample_oracle
                     (initial short_config)))
  = [0%nat; 0%nat; 1%nat; 1%nat; 2%nat; 2%nat].
Proof. vm_compute. reflexivity. Qed.

(** ** Which part of the loop emits what *)

Lemma micro_step_trace_events cfg ctx steps orc batch it i :
  Forall step_event (micro_step_trace cfg ctx steps orc batch it i).
Proof.
  unfold micro_step_trace.
  destruct (ddp ctx), (wandb_enabled cfg ctx && master_process ctx);
    repeat constructor.
Qed.

Lemma accumulate_and_step_events cfg ctx steps orc batch it :
  Forall step_event (trace (accumulate_and_step cfg ctx steps orc batch it)).
Proof.
  rewrite accumulate_and_step_run. cbn [trace]. apply Forall_app. split.
  - apply Forall_flat_map, Forall_forall. intros i _.
    apply micro_step_trace_events.
  - destruct (negb (Qeq_bool (grad_clip cfg) 0)); repeat constructor.
Qed.

Lemma log_iteration_events cfg ctx steps epoch it loss :
  Forall step_event (trace (log_iteration cfg ctx steps epoch it loss)).
Proof.
  unfold log_iteration.
  apply Forall_trace_bind; [constructor | intros r].
  apply Forall_trace_bind.
  - apply Forall_trace_when. destruct loss; repeat constructor.
  - intros _. apply Forall_trace_bind; [constructor | intros r'].
    apply Forall_trace_when. destruct loss; repeat constructor.
Qed.

Lemma set_lr_trace cfg it : trace (set_lr cfg it) = [].
Proof.
  unfold set_lr. destruct (decay_lr cfg); [|reflexivity].
  destruct (get_lr_raises cfg it); reflexivity.
Qed.

Lemma set_lr_ok cfg it :
  result (set_lr cfg it) = Ok tt -> set_lr cfg it = Run [] (Ok tt).
Proof.
  intros Hok. pose proof (set_lr_trace cfg it) as Htrace.
  destruct (set_lr cfg it) as [t r]. cbn in *. subst. reflexivity.
Qed.

Lemma saved_step_events (t : list Event) :
  Forall step_event t -> saved t = [] /\ evaluated t = [].
Proof.
  induction 1 as [| e t [He _] _ [IHs IHe]]; [split; reflexivity|].
  unfold saved, evaluated in *. destruct e; try discriminate He;
    cbn; rewrite ?IHs, ?IHe; split; reflexivity.
Qed.

Lemma epochs_started_no_epoch_event (t : list Event) :
  Forall (fun e => epoch_event e = false) t -> epochs_started t = [].
Proof.
  induction 1 as [| e t He _ IH]; [reflexivity|].
  unfold epochs_started in *. destruct e; try discriminate He; cbn; exact IH.
Qed.

(** ** Evaluation and checkpointing *)

(** The events and the value of lines 315-354. *)
Lemma eval_and_checkpoint_run cfg ctx orc st :
  eval_interval cfg <> 0 ->
  eval_and_checkpoint cfg ctx orc st
  = let it := iter_num st in
    let val_loss := (evaluate orc it).1 in
    let val_bleu := (evaluate orc it).2 in
    if (it mod eval_interval cfg =? 0) && master_process ctx then
      Run ([Evaluate it; PrintEval it val_loss val_bleu]
           ++ (if wandb_enabled cfg ctx then [WandbVal it val_loss val_bleu]
               else [])
           ++ (if improved cfg st val_loss val_bleu && (0 <? it) then
                 [SaveCheckpoint
                    (make_checkpoint cfg (model_state_dict orc it)
                       (optimizer_state_dict orc it)
                       (update_best st val_loss val_bleu))]
               else []))
          (Ok (if improved cfg st val_loss val_bleu then
                 update_best st val_loss val_bleu
               else st))
    else Run [] (Ok st).
Proof.
  intros Hnz. unfold eval_and_checkpoint. rewrite (py_mod_nonzero _ _ Hnz).
  cbn zeta. destruct (evaluate orc (iter_num st)) as [val_loss val_bleu].
  cbn [fst snd]. unfold lift. rewrite bind_run_ok. cbn [trace result app].
  destruct ((iter_num st mod eval_interval cfg =? 0) && master_process ctx);
    [|reflexivity].
  unfold save_checkpoint. rewrite update_best_iter_num.
  destruct (wandb_enabled cfg ctx), (improved cfg st val_loss val_bleu),
    (0 <? iter_num st); reflexivity.
Qed.

Lemma eval_and_checkpoint_iter_num cfg ctx orc st st' :
  result (eval_and_checkpoint cfg ctx orc st) = Ok st' ->
  iter_num st' = iter_num st.
Proof.
  destruct (Z.eqb_spec (eval_interval cfg) 0) as [Hz | Hnz].
  - unfold eval_and_checkpoint, py_mod. rewrite Hz. discriminate.
  - rewrite (eval_and_checkpoint_run _ _ _ _ Hnz). cbn zeta.
    destruct ((iter_num st mod eval_interval cfg =? 0) && master_process ctx);
      cbn [result]; intros [= Heq]; subst st'; [|reflexivity].
    destruct (improved cfg st _ _); auto using update_best_iter_num.
Qed.

Lemma eval_and_checkpoint_events cfg ctx orc st :
  Forall (fun e => epoch_event e = false)
    (trace (eval_and_checkpoint cfg ctx orc st)).
Proof.
  destruct (Z.eqb_spec (eval_interval cfg) 0) as [Hz | Hnz].
  - unfold eval_and_checkpoint, py_mod. rewrite Hz. constructor.
  - rewrite (eval_and_checkpoint_run _ _ _ _ Hnz). cbn zeta.
    destruct ((iter_num st mod eval_interval cfg =? 0) && master_process ctx);
      [|constructor].
    cbn [trace].
    destruct (wandb_enabled cfg ctx), (improved cfg st _ _ && (0 <? iter_num st));
      repeat constructor.
Qed.

Lemma improved_iff cfg st val_loss val_bleu :
  improved cfg st val_loss val_bleu = true
  <-> (val_loss < best_val_loss st)%Q
      \/ (best_val_bleu st < val_bleu)%Q
      \/ always_save_checkpoint cfg = true.
Proof.
  unfold improved. rewrite !orb_true_iff, !Qlt_bool_iff. tauto.
Qed.

Lemma iteration_tail_events cfg ctx steps orc epoch batch st :
  Forall step_event
    (trace (if (iter_num st =? 0) && eval_only cfg then
              mret (Break, st)
            else
              loss ← accumulate_and_step cfg ctx steps orc batch (iter_num st);
              log_iteration cfg ctx steps epoch (iter_num st) loss;;
              mret (Continue, set_iter_num st (iter_num st + 1)))).
Proof.
  destruct ((iter_num st =? 0) && eval_only cfg); [constructor|].
  apply Forall_trace_bind; [apply accumulate_and_step_events | intros loss].
  apply Forall_trace_bind; [apply log_iteration_events | intros _].
  constructor.
Qed.

(** What one pass of the batch loop evaluates and saves is what its
    evaluation block does. *)
Lemma iteration_saved_evaluated cfg ctx steps orc epoch batch st :
  eval_interval cfg <> 0 ->
  result (set_lr cfg (iter_num st)) = Ok tt ->
  let t := trace (iteration cfg ctx steps orc epoch batch st) in
  let t0 := trace (eval_and_checkpoint cfg ctx orc st) in
  saved t = saved t0 /\ evaluated t = evaluated t0.
Proof.
  intros Hnz Hlr t t0. subst t t0. unfold iteration.
  rewrite (set_lr_ok _ _ Hlr), bind_run_ok. cbn [trace app].
  assert (Hok : exists st1, result (eval_and_checkpoint cfg ctx orc st) = Ok st1).
  { rewrite (eval_and_checkpoint_run _ _ _ _ Hnz). cbn zeta.
    destruct ((iter_num st mod eval_interval cfg =? 0) && master_process ctx);
      eexists; reflexivity. }
  destruct Hok as [st1 Hok]. rewrite (bind_ok _ _ _ Hok). cbn [trace].
  destruct (saved_step_events _
              (iteration_tail_events cfg ctx steps orc epoch batch st1))
    as [Hs He].
  unfold saved, evaluated in *. rewrite !omap_app, Hs, He, !app_nil_r.
  split; reflexivity.
Qed.

(** C3: in a pass of the batch loop that got past setting the learning
    rate, a checkpoint is written exactly when [iter_num % eval_interval
    == 0], the process is the coordinator, [iter_num > 0], and the
    validation result beats the loss tracker or the BLEU tracker or
    [always_save_checkpoint] is set; it is then the one checkpoint of the
    pass.  Nothing is written at [iter_num == 0], and the evaluation runs
    exactly when the cadence is hit on the coordinator, so never on
    another process. *)
Theorem checkpoint_persisted_iff cfg ctx steps orc epoch batch st :
  eval_interval cfg <> 0 ->
  result (set_lr cfg (iter_num st)) = Ok tt ->
  let it := iter_num st in
  let t := trace (iteration cfg ctx steps orc epoch batch st) in
  let val_loss := (evaluate orc it).1 in
  let val_bleu := (evaluate orc it).2 in
  let persist :=
    it mod eval_interval cfg = 0 /\ master_process ctx = true /\ 0 < it
    /\ ((val_loss < best_val_loss st)%Q \/ (best_val_bleu st < val_bleu)%Q
        \/ always_save_checkpoint cfg = true) in
  (saved t <> [] <-> persist)
  /\ (persist ->
      saved t = [make_checkpoint cfg (model_state_dict orc it)
                   (optimizer_state_dict orc it)
                   (update_best st val_loss val_bleu)])
  /\ (it = 0 -> saved t = [])
  /\ (evaluated t <> [] <-> it mod eval_interval cfg = 0 /\ master_process ctx = true)
  /\ (it mod eval_interval cfg = 0 -> master_process ctx = true ->
      evaluated t = [it])
  /\ (master_process ctx = false -> evaluated t = []).
Proof.
  intros Hnz Hlr it t val_loss val_bleu persist.
  destruct (iteration_saved_evaluated cfg ctx steps orc epoch batch st Hnz Hlr)
    as [Hs He].
  fold t in Hs, He. rewrite Hs, He.
  rewrite (eval_and_checkpoint_run _ _ _ _ Hnz). cbn zeta.
  fold it val_loss val_bleu.
  assert (Hpersist : persist
            <-> (it mod eval_interval cfg =? 0) && master_process ctx
                && (improved cfg st val_loss val_bleu && (0 <? it)) = true).
  { subst persist. rewrite !andb_true_iff, Z.eqb_eq, Z.ltb_lt, improved_iff.
    tauto. }
  destruct ((it mod eval_interval cfg =? 0) && master_process ctx) eqn:Hcad.
  - cbn [trace andb] in *. unfold saved, evaluated. rewrite !omap_app.
    apply andb_true_iff in Hcad as [Hmod Hmaster]. apply Z.eqb_eq in Hmod.
    assert (Hw : forall w : list Event,
               w = (if wandb_enabled cfg ctx then
                      [WandbVal it val_loss val_bleu] else []) ->
               saved w = [] /\ evaluated w = []).
    { intros w ->. destruct (wandb_enabled cfg ctx); split; reflexivity. }
    destruct (Hw _ eq_refl) as [Hws Hwe]. unfold saved, evaluated in Hws, Hwe.
    rewrite Hws, Hwe. cbn [omap list_omap app].
    assert (Heval : [it] <> [] <->
                    it mod eval_interval cfg = 0 /\ master_process ctx = true)
      by (split; [intros _; split; assumption | intros _; discriminate]).
    destruct (improved cfg st val_loss val_bleu && (0 <? it)) eqn:Hsave;
      cbn [omap list_omap app].
    + assert (Hp : persist) by (apply Hpersist; reflexivity).
      split; [split; [intros _; exact Hp | intros _; discriminate]|].
      split; [intros _; reflexivity|].
      split; [intros Hit; destruct Hp as (_ & _ & Hpos & _); lia|].
      split; [exact Heval|].
      split; [intros _ _; reflexivity | intros Hm; congruence].
    + assert (Hnp : ~ persist) by (intros Hp; apply Hpersist in Hp; discriminate).
      split; [split; [intros Hne; contradiction | intros Hp; contradiction]|].
      split; [intros Hp; contradiction|].
      split; [intros _; reflexivity|].
      split; [exact Heval|].
      split; [intros _ _; reflexivity | intros Hm; congruence].
  - cbn [trace andb] in *. unfold saved, evaluated. cbn [omap list_omap].
    assert (Hnp : ~ persist) by (intros Hp; apply Hpersist in Hp; discriminate).
    assert (Hncad : ~ (it mod eval_interval cfg = 0 /\ master_process ctx = true)).
    { intros [Hmod Hmaster]. apply Z.eqb_eq in Hmod.
      rewrite Hmod, Hmaster in Hcad. discriminate. }
    split; [split; [intros Hne; contradiction | intros Hp; contradiction]|].
    split; [intros Hp; contradiction|].
    split; [intros _; reflexivity|].
    split; [split; [intros Hne; contradiction | intros Hc; contradiction]|].
    split; [intros Hmod Hmaster; exfalso; apply Hncad; split; assumption|].
    intros _; reflexivity.
Qed.

Lemma checkpoint_persisted_iff_witness :
  let cfg := default_config in
  let ctx := single_worker in
  let orc := sample_oracle in
  let st := {| iter_num := 600; best_val_loss := 2; best_val_bleu := 0 |} in
  eval_interval cfg <> 0
  /\ result (set_lr cfg (iter_num st)) = Ok tt
  /\ let it := iter_num st in
     let t := trace (iteration cfg ctx 8 orc 0 0%nat st) in
     let val_loss := (evaluate orc it).1 in
     let val_bleu := (evaluate orc it).2 in
     let persist :=
       it mod eval_interval cfg = 0 /\ master_process ctx = true /\ 0 < it
       /\ ((val_loss < best_val_loss st)%Q \/ (best_val_bleu st < val_bleu)%Q
           \/ always_save_checkpoint cfg = true) in
     (saved t <> [] <-> persist)
     /\ (persist ->
         saved t = [make_checkpoint cfg (model_state_dict orc it)
                      (optimizer_state_dict orc it)
                      (update_best st val_loss val_bleu)])
     /\ (it = 0 -> saved t = [])
     /\ (evaluated t <> []
         <-> it mod eval_interval cfg = 0 /\ master_process ctx = true)
     /\ (it mod eval_interval cfg = 0 -> master_process ctx = true ->
         evaluated t = [it])
     /\ (master_process ctx = false -> evaluated t = []).
Proof.
  intros cfg ctx orc st.
  split; [discriminate|]. split; [reflexivity|].
  apply (checkpoint_persisted_iff cfg ctx 8 orc 0 0%nat st);
    [discriminate | reflexivity].
Defined.

(** ** Learning-rate schedule *)

Section SchedulerFacts.
Variable cfg : Config.
Let W := warmup_iters cfg.
Let D := lr_decay_iters cfg.
Let base := Q2R (learning_rate cfg).
Let floor := Q2R (min_lr cfg).

(** The value of the cosine branch at a decay ratio. *)
Let cosine (ratio : R) : R :=
  (floor + 0.5 * (1.0 + cos (PI * ratio)) * (base - floor))%R.

Lemma decay_ratio_bounds (it : Z) :
  W <= it <= D -> W < D ->
  (0 <= IZR (it - W) / IZR (D - W) <= 1)%R.
Proof.
  intros Hit Hlt.
  assert (Hb : (0 < IZR (D - W))%R) by (apply IZR_lt; lia).
  assert (Ha : (0 <= IZR (it - W))%R) by (apply IZR_le; lia).
  assert (Hab : (IZR (it - W) <= IZR (D - W))%R) by (apply IZR_le; lia).
  split.
  - apply Rle_mult_inv_pos; assumption.
  - apply (Rmult_le_reg_r (IZR (D - W))); [exact Hb|].
    unfold Rdiv. rewrite Rmult_assoc, Rinv_l by lra. lra.
Qed.

Lemma decay_ratio_monotone (i j : Z) :
  i <= j -> W < D ->
  (IZR (i - W) / IZR (D - W) <= IZR (j - W) / IZR (D - W))%R.
Proof.
  intros Hij Hlt.
  assert (Hb : (0 < / IZR (D - W))%R)
    by (apply Rinv_0_lt_compat, IZR_lt; lia).
  apply Rmult_le_compat_r; [lra | apply IZR_le; lia].
Qed.

Lemma get_lr_warmup (it : Z) :
  it < W -> W <> 0 ->
  get_lr cfg it = Ok (base * IZR it / IZR W)%R.
Proof.
  intros Hit Hnz. unfold get_lr. fold W.
  destruct (Z.ltb_spec it W); [|lia].
  destruct (Z.eqb_spec W 0); [contradiction | reflexivity].
Qed.

Lemma get_lr_floor (it : Z) :
  W <= it -> D < it -> get_lr cfg it = Ok floor.
Proof.
  intros Hw Hd. unfold get_lr. fold W D.
  destruct (Z.ltb_spec it W); [lia|].
  destruct (Z.ltb_spec D it); [reflexivity | lia].
Qed.

Lemma get_lr_cosine (it : Z) :
  W <= it <= D -> W < D ->
  get_lr cfg it = Ok (cosine (IZR (it - W) / IZR (D - W))).
Proof.
  intros Hit Hlt. unfold get_lr. fold W D.
  destruct (Z.ltb_spec it W); [lia|].
  destruct (Z.ltb_spec D it); [lia|].
  destruct (Z.eqb_spec (D - W) 0); [lia|].
  destruct (decay_ratio_bounds it Hit Hlt) as [Hr0 Hr1]. cbn zeta.
  destruct (Rle_dec 0 (IZR (it - W) / IZR (D - W))); [|contradiction].
  destruct (Rle_dec (IZR (it - W) / IZR (D - W)) 1); [|contradiction].
  reflexivity.
Qed.

(** [get_lr] raises exactly where the integer test says so; the
    assertion of line 272 never fails. *)
Lemma get_lr_raises_spec (it : Z) (e : PyError) :
  get_lr cfg it = Raise e <-> get_lr_raises cfg it = Some e.
Proof.
  destruct (Z.ltb_spec it W) as [Hw | Hw].
  - unfold get_lr, get_lr_raises. fold W.
    destruct (Z.ltb_spec it W); [|lia].
    destruct (W =? 0); split; intros [= ->] || discriminate; reflexivity.
  - destruct (Z.ltb_spec D it) as [Hd | Hd].
    + rewrite get_lr_floor by assumption. unfold get_lr_raises. fold W D.
      destruct (Z.ltb_spec it W); [lia|].
      destruct (Z.ltb_spec D it); [|lia]. split; discriminate.
    + destruct (Z.eqb_spec (D - W) 0) as [Hz | Hz].
      * unfold get_lr, get_lr_raises. fold W D.
        destruct (Z.ltb_spec it W); [lia|].
        destruct (Z.ltb_spec D it); [lia|].
        destruct (Z.eqb_spec (D - W) 0); [|contradiction].
        split; intros [= ->]; reflexivity.
      * rewrite get_lr_cosine by lia. unfold get_lr_raises. fold W D.
        destruct (Z.ltb_spec it W); [lia|].
        destruct (Z.ltb_spec D it); [lia|].
        destruct (Z.eqb_spec (D - W) 0); [contradiction|].
        split; discriminate.
Qed.

Lemma cosine_range (ratio : R) :
  (floor <= base)%R -> (floor <= cosine ratio <= base)%R.
Proof.
  intros Hle. unfold cosine.
  pose proof (COS_bound (PI * ratio)) as [Hlo Hhi].
  set (c := cos (PI * ratio)) in *.
  assert (H0 : (0 <= 0.5 * (1.0 + c) <= 1)%R) by lra.
  set (k := (0.5 * (1.0 + c))%R) in *.
  assert (Hk : (0 <= k * (base - floor) <= 1 * (base - floor))%R).
  { split; [apply Rmult_le_pos; lra|].
    apply Rmult_le_compat_r; lra. }
  lra.
Qed.

Lemma cosine_monotone (r1 r2 : R) :
  (floor <= base)%R -> (0 <= r1 <= r2)%R -> (r2 <= 1)%R ->
  (cosine r2 <= cosine r1)%R.
Proof.
  intros Hle [H0 H12] H1. unfold cosine.
  pose proof PI_RGT_0 as Hpi.
  assert (Hcos : (cos (PI * r2) <= cos (PI * r1))%R).
  { apply cos_decr_1.
    - apply Rmult_le_pos; lra.
    - rewrite <- (Rmult_1_r PI) at 2. apply Rmult_le_compat_l; lra.
    - apply Rmult_le_pos; lra.
    - rewrite <- (Rmult_1_r PI) at 2. apply Rmult_le_compat_l; lra.
    - apply Rmult_le_compat_l; lra. }
  assert (Hk : (0.5 * (1.0 + cos (PI * r2)) * (base - floor)
                <= 0.5 * (1.0 + cos (PI * r1)) * (base - floor))%R)
    by (apply Rmult_le_compat_r; lra).
  lra.
Qed.

Lemma cosine_start : cosine 0 = base.
Proof. unfold cosine. rewrite Rmult_0_r, cos_0. lra. Qed.

Lemma cosine_end : cosine 1 = floor.
Proof. unfold cosine. rewrite Rmult_1_r, cos_PI. lra. Qed.

Lemma warmup_range (it : Z) :
  0 <= it < W -> (0 <= base)%R ->
  (0 <= base * IZR it / IZR W <= base)%R.
Proof.
  intros Hit Hbase.
  assert (HW : (0 < IZR W)%R) by (apply IZR_lt; lia).
  assert (H0 : (0 <= IZR it)%R) by (apply IZR_le; lia).
  assert (H1 : (IZR it <= IZR W)%R) by (apply IZR_le; lia).
  assert (Hr : (0 <= IZR it / IZR W <= 1)%R).
  { split; [apply Rle_mult_inv_pos; assumption|].
    apply (Rmult_le_reg_r (IZR W)); [exact HW|].
    unfold Rdiv. rewrite Rmult_assoc, Rinv_l by lra. lra. }
  replace (base * IZR it / IZR W)%R with (base * (IZR it / IZR W))%R
    by (unfold Rdiv; ring).
  split; [apply Rmult_le_pos; lra|].
  rewrite <- (Rmult_1_r base) at 2. apply Rmult_le_compat_l; lra.
Qed.

Lemma warmup_monotone (i j : Z) :
  i <= j -> 0 < W -> (0 <= base)%R ->
  (base * IZR i / IZR W <= base * IZR j / IZR W)%R.
Proof.
  intros Hij HW Hbase.
  assert (Hinv : (0 < / IZR W)%R) by (apply Rinv_0_lt_compat, IZR_lt; lia).
  assert (Hle : (IZR i <= IZR j)%R) by (apply IZR_le; lia).
  apply Rmult_le_compat_r; [lra|]. apply Rmult_le_compat_l; lra.
Qed.
End SchedulerFacts.

(** Line 309 raises what [get_lr] raises, and nothing else. *)
Lemma set_lr_get_lr cfg it :
  set_lr cfg it
  = if decay_lr cfg then
      match get_lr cfg it with
      | Ok _ => Run [] (Ok tt)
      | Raise e => Run [] (Raise e)
      end
    else Run [] (Ok tt).
Proof.
  unfold set_lr. destruct (decay_lr cfg); [|reflexivity].
  destruct (get_lr cfg it) as [lr | e] eqn:Hlr.
  - destruct (get_lr_raises cfg it) as [e |] eqn:Hraises; [|reflexivity].
    apply get_lr_raises_spec in Hraises. congruence.
  - apply get_lr_raises_spec in Hlr. rewrite Hlr. reflexivity.
Qed.


(** The formula of lines 262-274 read over the reals, without rounding:
    with [0 <= warmup_iters < lr_decay_iters] and [0 <= learning_rate],
    [min_lr <= learning_rate], it is defined at every [it >= 0]; it lies
    in [[0, learning_rate]] during warm-up ([it < warmup_iters]) and in
    [[min_lr, learning_rate]] from [warmup_iters] on; it is [0] at [0]
    when [warmup_iters > 0], [learning_rate] at [warmup_iters] and
    [min_lr] at [lr_decay_iters]; it is non-decreasing up to
    [warmup_iters] and non-increasing from there on.  What the script
    computes is this formula rounded at every operation, see
    [get_lr_binary64]. *)
Lemma get_lr_exact_schedule cfg :
  0 <= warmup_iters cfg < lr_decay_iters cfg ->
  (0 <= learning_rate cfg)%Q ->
  (min_lr cfg <= learning_rate cfg)%Q ->
  (forall it, 0 <= it ->
     exists lr, get_lr cfg it = Ok lr
       /\ (it < warmup_iters cfg -> (0 <= lr <= Q2R (learning_rate cfg))%R)
       /\ (warmup_iters cfg <= it ->
           (Q2R (min_lr cfg) <= lr <= Q2R (learning_rate cfg))%R))
  /\ (0 < warmup_iters cfg -> get_lr cfg 0 = Ok 0%R)
  /\ get_lr cfg (warmup_iters cfg) = Ok (Q2R (learning_rate cfg))
  /\ get_lr cfg (lr_decay_iters cfg) = Ok (Q2R (min_lr cfg))
  /\ (forall i j lr_i lr_j,
        0 <= i <= j -> j <= warmup_iters cfg ->
        get_lr cfg i = Ok lr_i -> get_lr cfg j = Ok lr_j ->
        (lr_i <= lr_j)%R)
  /\ (forall i j lr_i lr_j,
        warmup_iters cfg <= i <= j ->
        get_lr cfg i = Ok lr_i -> get_lr cfg j = Ok lr_j ->
        (lr_j <= lr_i)%R).
Proof.
  intros [HW HWD] Hbase Hfloor.
  apply Qreals.Qle_Rle in Hbase, Hfloor.
  change (Q2R 0) with (Q2R (0 # 1)) in Hbase.
  assert (Hbase' : (0 <= Q2R (learning_rate cfg))%R)
    by (unfold Q2R in Hbase at 1; cbn in Hbase; lra).
  clear Hbase.
  assert (Hstart : get_lr cfg (warmup_iters cfg) = Ok (Q2R (learning_rate cfg))).
  { rewrite get_lr_cosine by lia. f_equal.
    rewrite Z.sub_diag. unfold Rdiv. rewrite Rmult_0_l.
    apply cosine_start. }
  assert (Hend : get_lr cfg (lr_decay_iters cfg) = Ok (Q2R (min_lr cfg))).
  { rewrite get_lr_cosine by lia. f_equal.
    unfold Rdiv. rewrite Rinv_r by (apply not_0_IZR; lia).
    apply cosine_end. }
  assert (Hrange : forall it, warmup_iters cfg <= it ->
            exists lr, get_lr cfg it = Ok lr
              /\ (Q2R (min_lr cfg) <= lr <= Q2R (learning_rate cfg))%R).
  { intros it Hit. destruct (Z.ltb_spec (lr_decay_iters cfg) it) as [Hd | Hd].
    - eexists. split; [apply get_lr_floor; assumption | lra].
    - eexists. split; [apply get_lr_cosine; lia|].
      apply cosine_range, Hfloor. }
  split; [|split; [|split; [|split; [|split]]]].
  - intros it Hit. destruct (Z.ltb_spec it (warmup_iters cfg)) as [Hw | Hw].
    + eexists. split; [apply get_lr_warmup; lia|].
      split; [intros _; apply warmup_range; [lia | exact Hbase'] | lia].
    + destruct (Hrange it Hw) as (lr & Hlr & Hb).
      exists lr. split; [exact Hlr|]. split; [lia | intros _; exact Hb].
  - intros Hpos. rewrite get_lr_warmup by lia. f_equal.
    unfold Rdiv. rewrite Rmult_0_r, Rmult_0_l. reflexivity.
  - exact Hstart.
  - exact Hend.
  - intros i j lr_i lr_j Hij Hj Hi Hj'.
    destruct (Z.eq_dec j (warmup_iters cfg)) as [-> | Hne].
    + rewrite Hstart in Hj'. injection Hj' as <-.
      destruct (Z.eq_dec i (warmup_iters cfg)) as [-> | Hne'].
      * rewrite Hstart in Hi. injection Hi as <-. lra.
      * rewrite get_lr_warmup in Hi by lia. injection Hi as <-.
        apply warmup_range; [lia | exact Hbase'].
    + rewrite get_lr_warmup in Hi, Hj' by lia.
      injection Hi as <-. injection Hj' as <-.
      apply warmup_monotone; [lia | lia | exact Hbase'].
  - intros i j lr_i lr_j Hij Hi Hj.
    destruct (Z.ltb_spec (lr_decay_iters cfg) j) as [Hdj | Hdj].
    + rewrite get_lr_floor in Hj by lia. injection Hj as <-.
      destruct (Hrange i ltac:(lia)) as (lr & Hlr & Hb).
      rewrite Hlr in Hi. injection Hi as <-. lra.
    + rewrite get_lr_cosine in Hi, Hj by lia.
      injection Hi as <-. injection Hj as <-.
      apply cosine_monotone; [exact Hfloor | |].
      * split; [apply decay_ratio_bounds; lia|].
        apply decay_ratio_monotone; lia.
      * apply decay_ratio_bounds; lia.
Qed.

Lemma get_lr_exact_schedule_witness :
  let cfg := default_config in
  0 <= warmup_iters cfg < lr_decay_iters cfg
  /\ (0 <= learning_rate cfg)%Q
  /\ (min_lr cfg <= learning_rate cfg)%Q
  /\ (forall it, 0 <= it ->
        exists lr, get_lr cfg it = Ok lr
          /\ (it < warmup_iters cfg ->
              (0 <= lr <= Q2R (learning_rate cfg))%R)
          /\ (warmup_iters cfg <= it ->
              (Q2R (min_lr cfg) <= lr <= Q2R (learning_rate cfg))%R))
  /\ (0 < warmup_iters cfg -> get_lr cfg 0 = Ok 0%R)
  /\ get_lr cfg (warmup_iters cfg) = Ok (Q2R (learning_rate cfg))
  /\ get_lr cfg (lr_decay_iters cfg) = Ok (Q2R (min_lr cfg))
  /\ (forall i j lr_i lr_j,
        0 <= i <= j -> j <= warmup_iters cfg ->
        get_lr cfg i = Ok lr_i -> get_lr cfg j = Ok lr_j ->
        (lr_i <= lr_j)%R)
  /\ (forall i j lr_i lr_j,
        warmup_iters cfg <= i <= j ->
        get_lr cfg i = Ok lr_i -> get_lr cfg j = Ok lr_j ->
        (lr_j <= lr_i)%R).
Proof.
  intros cfg.
  assert (H1 : 0 <= warmup_iters cfg < lr_decay_iters cfg) by (cbn; lia).
  assert (H2 : (0 <= learning_rate cfg)%Q) by (cbn; discriminate).
  assert (H3 : (min_lr cfg <= learning_rate cfg)%Q) by (cbn; discriminate).
  split; [exact H1|]. split; [exact H2|]. split; [exact H3|].
  exact (get_lr_exact_schedule cfg H1 H2 H3).
Defined.

(** ** Rounding to binary64 *)

(** The doubles are Rocq's primitive floats; what is proved about them is
    read off [SpecFloat], the specification of binary64 that the
    primitive operations are stated to follow ([FloatAxioms]). *)

Lemma digits2_pos_lower (p : positive) :
  2 ^ (Zpos (digits2_pos p) - 1) <= Zpos p.
Proof.
  induction p as [p IH | p IH |]; cbn [digits2_pos]; [| |cbn; lia].
  - rewrite Pos2Z.inj_succ.
    replace (Z.succ (Zpos (digits2_pos p)) - 1)
      with (Z.succ (Zpos (digits2_pos p) - 1)) by lia.
    rewrite Z.pow_succ_r by lia. lia.
  - rewrite Pos2Z.inj_succ.
    replace (Z.succ (Zpos (digits2_pos p)) - 1)
      with (Z.succ (Zpos (digits2_pos p) - 1)) by lia.
    rewrite Z.pow_succ_r by lia. lia.
Qed.

Lemma digits2_pos_le (p : positive) (n : Z) :
  Zpos p < 2 ^ n -> Zpos (digits2_pos p) <= n.
Proof.
  intros Hp. destruct (Z.le_gt_cases (Zpos (digits2_pos p)) n) as [H | H];
    [exact H|].
  assert (Hn : 0 <= n).
  { destruct (Z.le_gt_cases 0 n) as [H0 | H0]; [exact H0|].
    rewrite Z.pow_neg_r in Hp by lia. lia. }
  pose proof (digits2_pos_lower p) as Hlow.
  assert (Hmono : 2 ^ n <= 2 ^ (Zpos (digits2_pos p) - 1))
    by (apply Z.pow_le_mono_r; lia).
  lia.
Qed.

Lemma digits2_pos_iter_xO (p k : positive) :
  digits2_pos (Pos.iter xO p k) = (digits2_pos p + k)%positive.
Proof.
  induction k as [| k IH] using Pos.peano_ind.
  - cbn. lia.
  - rewrite Pos.iter_succ. cbn [digits2_pos]. rewrite IH. lia.
Qed.

(** Rounding a double already in canonical form returns it. *)
Lemma binary_round_aux_canonical (s : bool) (m : positive) (e : Z) :
  canonical_mantissa prec emax m e = true -> e <= emax - prec ->
  binary_round_aux prec emax s (Zpos m) e loc_Exact = S754_finite s m e.
Proof.
  intros Hcan He. unfold canonical_mantissa in Hcan.
  apply Z.eqb_eq in Hcan.
  assert (Hshr : forall l, l = loc_Exact ->
            shr_fexp prec emax (Zpos m) e l
            = ({| shr_m := Zpos m; shr_r := false; shr_s := false |}, e)).
  { intros l ->. unfold shr_fexp. cbn [Zdigits2]. rewrite Hcan, Z.sub_diag.
    reflexivity. }
  unfold binary_round_aux. rewrite (Hshr _ eq_refl).
  cbn [shr_m loc_of_shr_record round_nearest_even]. rewrite (Hshr _ eq_refl).
  cbn [shr_m]. apply Z.leb_le in He. rewrite He. reflexivity.
Qed.

(** An integer of magnitude below [2^53] converts exactly, to a finite
    double of its sign. *)
Lemma binary_round_small (s : bool) (p : positive) :
  Zpos p < 2 ^ 53 ->
  exists m e,
    binary_round prec emax s p 0 = S754_finite s m e
    /\ valid_binary (S754_finite s m e) = true.
Proof.
  intros Hp. pose proof (digits2_pos_le p 53 Hp) as Hd.
  unfold binary_round.
  assert (Hfexp : fexp prec emax (Zpos (digits2_pos p) + 0)
                  = Zpos (digits2_pos p) - 53)
    by (unfold fexp, SpecFloat.emin, prec, emax; lia).
  rewrite Hfexp. unfold shl_align.
  destruct (Zpos (digits2_pos p) - 53 - 0) as [| q | q] eqn:Hq; [|lia|].
  - assert (Hcan : canonical_mantissa prec emax p 0 = true).
    { unfold canonical_mantissa. rewrite Hfexp. apply Z.eqb_eq. lia. }
    exists p, 0. split.
    + apply binary_round_aux_canonical; [exact Hcan | unfold prec, emax; lia].
    + cbn [SpecFloat.valid_binary]. unfold bounded. rewrite Hcan. reflexivity.
  - assert (Hcan : canonical_mantissa prec emax (Pos.iter xO p q)
                     (Zpos (digits2_pos p) - 53) = true).
    { unfold canonical_mantissa. rewrite digits2_pos_iter_xO.
      apply Z.eqb_eq. unfold fexp, SpecFloat.emin, prec, emax. lia. }
    exists (Pos.iter xO p q), (Zpos (digits2_pos p) - 53). split.
    + apply binary_round_aux_canonical;
        [exact Hcan | unfold prec, emax; lia].
    + cbn [SpecFloat.valid_binary]. unfold bounded. rewrite Hcan.
      apply andb_true_iff. split; [reflexivity|].
      apply Z.leb_le. unfold prec, emax. lia.
Qed.



Lemma shr_1_nonneg (mrs : shr_record) :
  0 <= shr_m mrs -> 0 <= shr_m (shr_1 mrs).
Proof.
  destruct mrs as [[| [p | p |] | p] r s]; cbn; lia.
Qed.





(** ** Rounding below one *)

Lemma digits2_pos_upper (p : positive) :
  Zpos p < 2 ^ Zpos (digits2_pos p).
Proof.
  induction p as [p IH | p IH |]; cbn [digits2_pos]; [| |cbn; lia];
    rewrite Pos2Z.inj_succ, Z.pow_succ_r by lia; lia.
Qed.

Lemma digits2_pos_unique (p : positive) (k : Z) :
  2 ^ (k - 1) <= Zpos p < 2 ^ k -> Zpos (digits2_pos p) = k.
Proof.
  intros [Hlow Hup].
  pose proof (digits2_pos_le p k Hup) as Hle.
  pose proof (digits2_pos_upper p) as Hup'.
  destruct (Z.le_gt_cases k (Zpos (digits2_pos p))) as [H | H]; [lia|].
  assert (Hmono : 2 ^ Zpos (digits2_pos p) <= 2 ^ (k - 1))
    by (apply Z.pow_le_mono_r; lia).
  lia.
Qed.

Lemma shr_1_m (mrs : shr_record) :
  0 <= shr_m mrs -> shr_m (shr_1 mrs) = shr_m mrs / 2.
Proof.
  destruct mrs as [[| [p | p |] | p] r s]; cbn [shr_m shr_1]; intros H;
    try lia; try reflexivity.
  - rewrite Pos2Z.inj_xI. apply Z.div_unique with (r := 1); lia.
  - rewrite Pos2Z.inj_xO. apply Z.div_unique with (r := 0); lia.
Qed.

Lemma iter_pos_shr_m (n : positive) (mrs : shr_record) :
  0 <= shr_m mrs ->
  shr_m (SpecFloat.iter_pos shr_1 n mrs) = shr_m mrs / 2 ^ Zpos n.
Proof.
  revert mrs. induction n as [n IH | n IH |]; intros mrs Hm;
    cbn [SpecFloat.iter_pos].
  - assert (H1 : 0 <= shr_m (shr_1 mrs)) by (apply shr_1_nonneg, Hm).
    assert (H2 : 0 <= shr_m (SpecFloat.iter_pos shr_1 n (shr_1 mrs)))
      by (rewrite IH by exact H1; apply Z.div_pos; lia).
    rewrite IH, IH, shr_1_m by assumption.
    rewrite !Z.div_div by lia. f_equal.
    rewrite (Pos2Z.inj_xI n).
    replace (2 * Zpos n + 1) with (Z.succ (Zpos n + Zpos n)) by lia.
    rewrite Z.pow_succ_r, Z.pow_add_r by lia. reflexivity.
  - assert (H2 : 0 <= shr_m (SpecFloat.iter_pos shr_1 n mrs))
      by (rewrite IH by exact Hm; apply Z.div_pos; lia).
    rewrite IH, IH by assumption.
    rewrite !Z.div_div by lia. f_equal.
    rewrite (Pos2Z.inj_xO n).
    replace (2 * Zpos n) with (Zpos n + Zpos n) by lia.
    rewrite Z.pow_add_r by lia. reflexivity.
  - rewrite shr_1_m by exact Hm. reflexivity.
Qed.

(** The first component of a shift: the mantissa divided by the power of
    two shifted out, at the exponent raised by as much. *)
Lemma shr_fexp_spec (m e : Z) (l : location) :
  0 <= m ->
  let n := fexp prec emax (Zdigits2 m + e) - e in
  shr_m (fst (shr_fexp prec emax m e l)) = (if 0 <? n then m / 2 ^ n else m)
  /\ snd (shr_fexp prec emax m e l) = (if 0 <? n then e + n else e).
Proof.
  intros Hm n. unfold shr_fexp. fold n.
  assert (H0 : shr_m (shr_record_of_loc m l) = m)
    by (destruct l as [| []]; reflexivity).
  destruct n as [| p | p]; cbn [shr fst snd Z.ltb Z.compare].
  - split; [exact H0 | reflexivity].
  - rewrite iter_pos_shr_m by (rewrite H0; exact Hm). rewrite H0.
    split; reflexivity.
  - split; [exact H0 | reflexivity].
Qed.

Lemma fexp_binary64 (x : Z) : fexp prec emax x = Z.max (x - 53) (-1074).
Proof. reflexivity. Qed.

Lemma round_nearest_even_bounds (m : Z) (l : location) :
  m <= round_nearest_even m l <= m + 1.
Proof.
  destruct l as [| []]; cbn [round_nearest_even]; try lia.
  destruct (Z.even m); lia.
Qed.

Lemma binary_round_aux_unfold (s : bool) (m e : Z) (l : location) :
  binary_round_aux prec emax s m e l
  = let first := shr_fexp prec emax m e l in
    let m2 := round_nearest_even (shr_m (fst first))
                (loc_of_shr_record (fst first)) in
    let second := shr_fexp prec emax m2 (snd first) loc_Exact in
    match shr_m (fst second) with
    | Z0 => S754_zero s
    | Zpos p =>
        if snd second <=? emax - prec then S754_finite s p (snd second)
        else S754_infinity s
    | Zneg _ => S754_nan
    end.
Proof.
  unfold binary_round_aux.
  destruct (shr_fexp prec emax m e l) as [mrs1 e1]. cbn [fst snd].
  destruct (shr_fexp prec emax _ e1 loc_Exact) as [mrs2 e2]. reflexivity.
Qed.

(** A mantissa that needs no further shift and sits at an exponent below
    [-52] rounds to itself, a valid double below one. *)
Lemma finite_below_one (p : positive) (F : Z) :
  fexp prec emax (Zpos (digits2_pos p) + F) = F -> F <= -53 ->
  let x := S754_finite false p F in
  valid_binary x = true
  /\ SFleb x (S754_finite false 4503599627370496 (-52)) = true
  /\ SFleb (S754_zero false) x = true.
Proof.
  intros Hcan HF x. subst x. split; [|split].
  - cbn [SpecFloat.valid_binary]. unfold bounded, canonical_mantissa.
    rewrite Hcan, Z.eqb_refl. apply Z.leb_le. unfold emax, prec. lia.
  - unfold SFleb. cbn [SFcompare].
    destruct (Z.compare_spec F (-52)) as [H | H | H]; [lia | reflexivity | lia].
  - reflexivity.
Qed.

Lemma binary_round_aux_below_one (q e : Z) (l : location) :
  0 < q < 2 ^ (- e) -> -1074 <= e <= -53 ->
  e <= fexp prec emax (Zdigits2 q + e) ->
  let x := binary_round_aux prec emax false q e l in
  valid_binary x = true
  /\ SFleb x (S754_finite false 4503599627370496 (-52)) = true
  /\ SFleb (S754_zero false) x = true.
Proof.
  intros [Hq0 Hq] [Hemin He] Hpre x. subst x.
  destruct q as [| pq | pq]; [lia | | lia]. cbn [Zdigits2] in Hpre.
  pose proof (digits2_pos_lower pq) as Hlow.
  pose proof (digits2_pos_upper pq) as Hup.
  pose proof (digits2_pos_le pq (- e) Hq) as Hdq.
  set (dq := Zpos (digits2_pos pq)) in *.
  set (F := fexp prec emax (dq + e)) in *.
  assert (HF : F = Z.max (dq + e - 53) (-1074)) by apply fexp_binary64.
  rewrite binary_round_aux_unfold. cbv zeta.
  destruct (shr_fexp_spec (Zpos pq) e l ltac:(lia)) as [Hm1 HE1].
  cbn [Zdigits2] in Hm1, HE1. fold dq F in Hm1, HE1.
  set (first := shr_fexp prec emax (Zpos pq) e l) in *.
  assert (HE : snd first = F).
  { rewrite HE1. destruct (Z.ltb_spec 0 (F - e)); lia. }
  rewrite HE.
  set (m1 := shr_m (fst first)) in *.
  set (k := dq + e - F).
  assert (Hm1' : (1 <= k <= 53 /\ 2 ^ (k - 1) <= m1 < 2 ^ k)
                 \/ (m1 = 0 /\ F = -1074)).
  { destruct (Z.le_gt_cases 1 k) as [Hk | Hk].
    - left. split; [lia|]. rewrite Hm1.
      destruct (Z.ltb_spec 0 (F - e)) as [Hn | Hn].
      + assert (Hpow : 2 ^ dq = 2 ^ (F - e) * 2 ^ k)
          by (rewrite <- Z.pow_add_r by lia; f_equal; lia).
        assert (Hpow' : 2 ^ (dq - 1) = 2 ^ (F - e) * 2 ^ (k - 1))
          by (rewrite <- Z.pow_add_r by lia; f_equal; lia).
        split.
        * apply Z.div_le_lower_bound; [lia|]. rewrite <- Hpow'. exact Hlow.
        * apply Z.div_lt_upper_bound; [lia|]. rewrite <- Hpow. exact Hup.
      + replace k with dq by lia. lia.
    - right. assert (Hn : 0 < F - e) by lia.
      split; [|lia]. rewrite Hm1.
      destruct (Z.ltb_spec 0 (F - e)) as [_ | H]; [|lia].
      apply Z.div_small. split; [lia|].
      assert (Hmono : 2 ^ dq <= 2 ^ (F - e)) by (apply Z.pow_le_mono_r; lia).
      lia. }
  pose proof (round_nearest_even_bounds m1 (loc_of_shr_record (fst first)))
    as Hm2.
  set (m2 := round_nearest_even m1 (loc_of_shr_record (fst first))) in *.
  assert (Hm2pos : 0 <= m2) by (destruct Hm1' as [[_ [H _]] | [H _]]; lia).
  destruct (shr_fexp_spec m2 F loc_Exact Hm2pos) as [Hm3 HE3].
  set (second := shr_fexp prec emax m2 F loc_Exact) in *.
  destruct m2 as [| p2 | p2] eqn:Hp2; [| |lia].
  - (* everything was shifted out *)
    cbn [Zdigits2] in Hm3. rewrite fexp_binary64 in Hm3.
    destruct (Z.ltb_spec 0 (Z.max (0 + F - 53) (-1074) - F)) as [H | H];
      [lia|].
    rewrite Hm3. repeat split; reflexivity.
  - cbn [Zdigits2] in Hm3, HE3. rewrite fexp_binary64 in Hm3, HE3.
    set (d2 := Zpos (digits2_pos p2)) in *.
    assert (Hd2 : (d2 = k /\ 1 <= k) \/ (d2 = k + 1 /\ 1 <= k /\ Zpos p2 = 2 ^ k)
                  \/ (d2 = 1 /\ F = -1074 /\ k <= 0)).
    { destruct Hm1' as [[Hk [Hl Hu]] | [H0 HF0]].
      - destruct (Z.eq_dec (Zpos p2) (2 ^ k)) as [Heq | Hne].
        + right. left. split; [|split; [lia | exact Heq]].
          apply digits2_pos_unique.
          replace (k + 1 - 1) with k by lia.
          rewrite Z.pow_add_r, Heq by lia. lia.
        + left. split; [|lia]. apply digits2_pos_unique. lia.
      - right. right. split; [|split; [exact HF0|]].
        + apply digits2_pos_unique. cbn. lia.
        + destruct (Z.le_gt_cases k 0) as [H | H]; [exact H|].
          exfalso. subst k.
          assert (Hn : 0 < F - e \/ F - e <= 0) by lia.
          rewrite Hm1 in H0. destruct (Z.ltb_spec 0 (F - e)) as [Hn' | Hn'];
            [|lia].
          assert (Hpow' : 2 ^ (dq - 1) = 2 ^ (F - e) * 2 ^ (dq + e - F - 1))
            by (rewrite <- Z.pow_add_r by lia; f_equal; lia).
          assert (Hge : 1 <= Zpos pq / 2 ^ (F - e)).
          { apply Z.div_le_lower_bound; [lia|].
            assert (0 < 2 ^ (dq + e - F - 1)) by (apply Z.pow_pos_nonneg; lia).
            assert (0 < 2 ^ (F - e)) by (apply Z.pow_pos_nonneg; lia).
            nia. }
          lia. }
    destruct Hd2 as [[Hd Hk] | [(Hd & Hk & Heq) | (Hd & HF0 & Hk)]].
    + (* no carry *)
      destruct (Z.ltb_spec 0 (Z.max (d2 + F - 53) (-1074) - F)) as [H | H];
        [lia|].
      rewrite Hm3, HE3.
      assert (Hle : (F <=? emax - prec) = true)
        by (apply Z.leb_le; unfold emax, prec; lia).
      rewrite Hle. apply finite_below_one; [|lia].
      rewrite fexp_binary64. fold d2. lia.
    + (* the rounding carried into the next binade *)
      destruct (Z.ltb_spec 0 (Z.max (d2 + F - 53) (-1074) - F)) as [H | H].
      * assert (Hn2 : Z.max (d2 + F - 53) (-1074) - F = 1) by lia.
        rewrite Hn2 in Hm3, HE3.
        assert (Hk53 : k = 53) by lia.
        assert (Hm3' : shr_m (fst second) = Zpos 4503599627370496).
        { rewrite Hm3, Heq, Hk53. reflexivity. }
        rewrite Hm3', HE3.
        assert (Hle : (F + 1 <=? emax - prec) = true)
          by (apply Z.leb_le; unfold emax, prec; lia).
        rewrite Hle.
        destruct (Z.eq_dec (F + 1) (-52)) as [-> | Hne].
        -- repeat split; reflexivity.
        -- apply finite_below_one; [|lia].
           rewrite fexp_binary64.
           change (Zpos (digits2_pos 4503599627370496)) with 53. lia.
      * rewrite Hm3, HE3.
        assert (Hle : (F <=? emax - prec) = true)
          by (apply Z.leb_le; unfold emax, prec; lia).
        rewrite Hle. apply finite_below_one; [|lia].
        rewrite fexp_binary64. fold d2. lia.
    + destruct (Z.ltb_spec 0 (Z.max (d2 + F - 53) (-1074) - F)) as [H | H];
        [lia|].
      rewrite Hm3, HE3.
      assert (Hle : (F <=? emax - prec) = true)
        by (apply Z.leb_le; unfold emax, prec; lia).
      rewrite Hle. apply finite_below_one; [|lia].
      rewrite fexp_binary64. fold d2. lia.
Qed.

Lemma binary_round_aux_underflow (l : location) :
  let x := binary_round_aux prec emax false 0 (-1074) l in
  valid_binary x = true
  /\ SFleb x (S754_finite false 4503599627370496 (-52)) = true
  /\ SFleb (S754_zero false) x = true.
Proof. destruct l as [| []]; repeat split; reflexivity. Qed.

(** The correctly rounded quotient of [0 < a < b] is a valid double
    between zero and one. *)
Lemma SF_of_quotient_below_one (a b : Z) :
  0 < a < b ->
  let x := SF_of_quotient a b in
  valid_binary x = true
  /\ SFleb x (S754_finite false 4503599627370496 (-52)) = true
  /\ SFleb (S754_zero false) x = true.
Proof.
  intros [Ha Hab] x. subst x.
  destruct a as [| pa | pa]; [lia | | lia].
  destruct b as [| pb | pb]; [lia | | lia].
  unfold SF_of_quotient. change (Z.abs (Zpos pa)) with (Zpos pa).
  change (Z.abs (Zpos pb)) with (Zpos pb).
  change (xorb (Zpos pa <? 0) (Zpos pb <? 0)) with false. cbv iota beta.
  pose proof (digits2_pos_lower pa) as Hla.
  pose proof (digits2_pos_upper pa) as Hua.
  pose proof (digits2_pos_lower pb) as Hlb.
  pose proof (digits2_pos_upper pb) as Hub.
  assert (Hd : Zpos (digits2_pos pa) <= Zpos (digits2_pos pb))
    by (apply digits2_pos_le; lia).
  unfold SFdiv_core_binary. cbn [Zdigits2].
  set (d1 := Zpos (digits2_pos pa)) in *.
  set (d2 := Zpos (digits2_pos pb)) in *.
  replace (d1 + 0 - (d2 + 0)) with (d1 - d2) by lia.
  rewrite fexp_binary64. change (0 - 0) with 0.
  set (E := Z.max (d1 - d2 - 53) (-1074)).
  assert (HE : -1074 <= E <= -53) by lia.
  rewrite (Z.min_l E 0) by lia.
  destruct (0 - E) as [| s | s] eqn:Hs; [lia | | lia].
  rewrite Z.shiftl_mul_pow2 by lia. rewrite <- Hs.
  replace (0 - E) with (- E) by lia.
  assert (Hpow : 0 < 2 ^ (- E)) by (apply Z.pow_pos_nonneg; lia).
  assert (Hq : Z.div_eucl (Zpos pa * 2 ^ (- E)) (Zpos pb)
               = (Zpos pa * 2 ^ (- E) / Zpos pb,
                  (Zpos pa * 2 ^ (- E)) mod Zpos pb)).
  { unfold Z.div, Z.modulo.
    destruct (Z.div_eucl (Zpos pa * 2 ^ (- E)) (Zpos pb)). reflexivity. }
  rewrite Hq. set (q := Zpos pa * 2 ^ (- E) / Zpos pb).
  assert (Hq0 : 0 <= q) by (apply Z.div_pos; lia).
  assert (Hq1 : q < 2 ^ (- E)) by (apply Z.div_lt_upper_bound; nia).
  destruct (Z.eq_dec q 0) as [Hz | Hnz].
  - assert (HEmin : E = -1074).
    { destruct (Z.eq_dec E (-1074)) as [H | H]; [exact H|]. exfalso.
      assert (HEn : E = d1 - d2 - 53) by lia.
      assert (Hge : 1 <= q).
      { apply Z.div_le_lower_bound; [lia|].
        assert (Hp : 2 ^ (d1 - 1) * 2 ^ (- E) = 2 ^ (d2 + 52))
          by (rewrite <- Z.pow_add_r by lia; f_equal; lia).
        assert (Hp2 : 2 ^ d2 <= 2 ^ (d2 + 52))
          by (apply Z.pow_le_mono_r; lia).
        nia. }
      lia. }
    rewrite Hz, HEmin. apply binary_round_aux_underflow.
  - apply binary_round_aux_below_one; [lia | lia|].
    destruct (Z.eq_dec E (-1074)) as [H | H];
      [rewrite fexp_binary64; lia|].
    assert (HEn : E = d1 - d2 - 53) by lia.
    assert (Hge : 2 ^ 52 <= q).
    { apply Z.div_le_lower_bound; [lia|].
      assert (Hp : 2 ^ (d1 - 1) * 2 ^ (- E) = 2 ^ 52 * 2 ^ d2).
      { rewrite <- !Z.pow_add_r by lia. f_equal. lia. }
      nia. }
    destruct q as [| pq | pq]; [lia | | lia]. cbn [Zdigits2].
    pose proof (digits2_pos_upper pq) as Huq.
    assert (Hdq : 52 < Zpos (digits2_pos pq)).
    { apply (Z.pow_lt_mono_r_iff 2); lia. }
    rewrite fexp_binary64. lia.
Qed.

(** ** Doubles through their specification *)

Lemma Prim2SF_zero : Prim2SF 0%float = S754_zero false.
Proof. reflexivity. Qed.






Lemma float_of_int_small (z : Z) :
  Z.abs z < 2 ^ 53 -> float_of_int z = Ok (binary64_of_int z).
Proof.
  intros Hz. unfold float_of_int.
  assert (Hlt : 2 ^ 53 < 2 ^ 1024 - 2 ^ 970) by reflexivity.
  destruct (Z.leb_spec (2 ^ 1024 - 2 ^ 970) (Z.abs z)) as [H | H];
    [lia | reflexivity].
Qed.

(** A non-zero integer of magnitude below [2^53] converts to a non-zero
    double. *)
Lemma binary64_of_int_nonzero (z : Z) :
  z <> 0 -> Z.abs z < 2 ^ 53 -> (binary64_of_int z =? 0)%float = false.
Proof.
  intros Hz Hsmall. unfold binary64_of_int.
  destruct z as [| p | p]; [congruence | |];
    cbn [binary_normalize];
    [destruct (binary_round_small false p ltac:(lia)) as (m & e & -> & Hv)
    |destruct (binary_round_small true p ltac:(lia)) as (m & e & -> & Hv)];
    rewrite FloatAxioms.eqb_spec, (Prim2SF_SF2Prim _ Hv), Prim2SF_zero;
    reflexivity.
Qed.

(** ** The warm-up ramp in binary64 *)




(** ** Multiplication by one *)

Lemma Prim2SF_one : Prim2SF 1%float = S754_finite false 4503599627370496 (-52).
Proof. reflexivity. Qed.




(** ** The two ends of the decay in binary64 *)

Lemma SF_of_quotient_zero (b : Z) :
  0 < b -> SF_of_quotient 0 b = S754_zero false.
Proof.
  intros Hb. unfold SF_of_quotient. change (Z.abs 0) with 0.
  cbv iota beta. change (0 <? 0) with false.
  destruct (Z.ltb_spec b 0) as [H | _]; [lia | reflexivity].
Qed.

Lemma SF_of_quotient_one (b : Z) :
  0 < b -> SF_of_quotient b b = S754_finite false 4503599627370496 (-52).
Proof.
  intros Hb. destruct b as [| p | p]; [lia | | lia].
  unfold SF_of_quotient. change (Z.abs (Zpos p)) with (Zpos p).
  change (xorb (Zpos p <? 0) (Zpos p <? 0)) with false.
  cbv iota beta. unfold SFdiv_core_binary.
  replace (Zdigits2 (Zpos p) + 0 - (Zdigits2 (Zpos p) + 0)) with 0 by lia.
  change (Z.min (fexp prec emax 0) (0 - 0)) with (-53).
  change (0 - 0 - -53) with 53.
  cbv iota beta.
  rewrite Z.shiftl_mul_pow2 by lia.
  assert (Hq : Zpos p * 2 ^ 53 / Zpos p = 2 ^ 53)
    by (rewrite Z.mul_comm; apply Z.div_mul; lia).
  assert (Hr : (Zpos p * 2 ^ 53) mod Zpos p = 0)
    by (rewrite Z.mul_comm; apply Z.mod_mul; lia).
  unfold Z.div, Z.modulo in Hq, Hr.
  destruct (Z.div_eucl (Zpos p * 2 ^ 53) (Zpos p)) as [q r]. subst q r.
  assert (Hloc : new_location (Zpos p) 0 = loc_Exact)
    by (unfold new_location; destruct (Z.even (Zpos p)); reflexivity).
  rewrite Hloc. reflexivity.
Qed.

Lemma int_truediv_zero (b : Z) : 0 < b -> int_truediv 0 b = Ok 0%float.
Proof.
  intros Hb. unfold int_truediv, binary64_of_quotient.
  destruct (Z.eqb_spec b 0) as [H | _]; [lia|].
  rewrite (SF_of_quotient_zero b Hb). reflexivity.
Qed.

Lemma int_truediv_one (b : Z) : 0 < b -> int_truediv b b = Ok 1%float.
Proof.
  intros Hb. unfold int_truediv, binary64_of_quotient.
  destruct (Z.eqb_spec b 0) as [H | _]; [lia|].
  rewrite (SF_of_quotient_one b Hb). reflexivity.
Qed.




Lemma get_lr_binary64_floor cfg math_cos (it : Z) :
  warmup_iters cfg <= it -> lr_decay_iters cfg < it ->
  get_lr_binary64 cfg math_cos it = Ok (float_of_Q (min_lr cfg)).
Proof.
  intros HW HD. unfold get_lr_binary64.
  destruct (Z.ltb_spec it (warmup_iters cfg)) as [H | _]; [lia|].
  destruct (Z.ltb_spec (lr_decay_iters cfg) it) as [_ | H]; [reflexivity | lia].
Qed.

(** ** The decay ratio *)

(** [a / b] for [0 <= a <= b], [b <> 0], is a double between [0.0] and
    [1.0]: the assertion of line 272 holds. *)
Lemma int_truediv_ratio (a b : Z) :
  0 <= a <= b -> 0 < b ->
  exists ratio,
    int_truediv a b = Ok ratio
    /\ (0 <=? ratio)%float = true /\ (ratio <=? 1)%float = true.
Proof.
  intros [Ha Hab] Hb.
  destruct (Z.eq_dec a 0) as [-> | Ha0].
  { exists 0%float. rewrite int_truediv_zero by exact Hb.
    repeat split; reflexivity. }
  destruct (Z.eq_dec a b) as [-> | Hne].
  { exists 1%float. rewrite int_truediv_one by exact Hb.
    repeat split; reflexivity. }
  destruct (SF_of_quotient_below_one a b ltac:(lia)) as (Hvalid & Hle & Hge).
  exists (binary64_of_quotient a b).
  assert (Hspec : Prim2SF (binary64_of_quotient a b) = SF_of_quotient a b)
    by (apply Prim2SF_SF2Prim, Hvalid).
  assert (H0 : (0 <=? binary64_of_quotient a b)%float = true)
    by (rewrite FloatAxioms.leb_spec, Hspec, Prim2SF_zero; exact Hge).
  assert (H1 : (binary64_of_quotient a b <=? 1)%float = true)
    by (rewrite FloatAxioms.leb_spec, Hspec, Prim2SF_one; exact Hle).
  split; [|split; assumption].
  unfold int_truediv. destruct (Z.eqb_spec b 0) as [H | _]; [lia|].
  assert (Hinf : is_infinity (binary64_of_quotient a b) = false).
  { unfold is_infinity.
    rewrite FloatAxioms.eqb_spec, FloatAxioms.abs_spec, Hspec.
    change (Prim2SF infinity) with (S754_infinity false).
    destruct (SF_of_quotient a b) as [s | [] | | s m e];
      try reflexivity; try discriminate Hle; discriminate Hge. }
  rewrite Hinf. reflexivity.
Qed.

(** Between [warmup_iters] and [lr_decay_iters] the assertion holds and
    the schedule returns the cosine interpolation. *)
Lemma get_lr_binary64_decay cfg math_cos (it : Z) :
  let base := float_of_Q (learning_rate cfg) in
  let floor := float_of_Q (min_lr cfg) in
  warmup_iters cfg <= it <= lr_decay_iters cfg ->
  warmup_iters cfg < lr_decay_iters cfg ->
  exists ratio,
    int_truediv (it - warmup_iters cfg)
      (lr_decay_iters cfg - warmup_iters cfg) = Ok ratio
    /\ (0 <=? ratio)%float = true /\ (ratio <=? 1)%float = true
    /\ get_lr_binary64 cfg math_cos it
       = Ok (floor
             + 0.5 * (1 + math_cos (math_pi * ratio)) * (base - floor))%float.
Proof.
  intros base floor Hit HWD.
  destruct (int_truediv_ratio (it - warmup_iters cfg)
              (lr_decay_iters cfg - warmup_iters cfg) ltac:(lia) ltac:(lia))
    as (ratio & Hdiv & H0 & H1).
  exists ratio. repeat (split; [assumption|]).
  unfold get_lr_binary64. fold base floor.
  destruct (Z.ltb_spec it (warmup_iters cfg)) as [H | _]; [lia|].
  destruct (Z.ltb_spec (lr_decay_iters cfg) it) as [H | _]; [lia|].
  rewrite Hdiv. cbn [mbind Result_bind]. rewrite H0, H1. reflexivity.
Qed.

(** ** Comparisons of doubles *)














(** With [learning_rate = 0.01] and [min_lr = 0.001] the value at
    [warmup_iters] is [0.010000000000000002], the double next above
    [learning_rate]: neither equal to it nor within
    [[min_lr, learning_rate]]. *)
Example get_lr_binary64_rounding :
  let base := float_of_Q (learning_rate rounding_config) in
  exists v,
    get_lr_binary64 rounding_config cos_at_ends
      (warmup_iters rounding_config) = Ok v
    /\ v = 0x1.47ae147ae147cp-7%float
    /\ base = 0x1.47ae147ae147bp-7%float
    /\ (base <? v)%float = true
    /\ v = next_up base.
Proof. eexists. repeat split; vm_compute; reflexivity. Qed.


(** With the script's settings the value at [warmup_iters] is
    [learning_rate] itself, the value at iteration 100 is
    [2.9999999999999997e-05], below [min_lr], and the value at
    [lr_decay_iters] is [min_lr]. *)
Example get_lr_binary64_default :
  get_lr_binary64 default_config cos_at_ends 2000
  = Ok (float_of_Q (learning_rate default_config))
  /\ (exists v, get_lr_binary64 default_config cos_at_ends 100 = Ok v
                /\ v = 0x1.f75104d551d68p-16%float
                /\ (v <? float_of_Q (min_lr default_config))%float = true)
  /\ get_lr_binary64 default_config cos_at_ends 45000
     = Ok (float_of_Q (min_lr default_config)).
Proof.
  split; [vm_compute; reflexivity|].
  split; [eexists; repeat split; vm_compute; reflexivity|].
  vm_compute. reflexivity.
Qed.

(** The integers that round to [2^1024] or beyond are those from
    [2^1024 - 2^970] on: there the nearest double is an infinity, and just
    below it is the largest finite double. *)
Example binary64_of_int_range :
  binary64_of_int (2 ^ 1024 - 2 ^ 970) = infinity
  /\ binary64_of_int (2 ^ 1024 - 2 ^ 970 - 1) = 0x1.fffffffffffffp+1023%float
  /\ float_of_int (2 ^ 1024 - 2 ^ 970) = Raise OverflowError
  /\ float_of_int (-(2 ^ 1024 - 2 ^ 970)) = Raise OverflowError
  /\ float_of_int (2 ^ 1024 - 2 ^ 970 - 1) = Ok 0x1.fffffffffffffp+1023%float.
Proof. repeat split; vm_compute; reflexivity. Qed.

(** Correct rounding of quotients and of decimal literals on samples. *)
Example binary64_of_quotient_samples :
  binary64_of_quotient 1 3 = 0x1.5555555555555p-2%float
  /\ binary64_of_quotient 2 3 = 0x1.5555555555555p-1%float
  /\ binary64_of_quotient (-1) 10 = (-0x1.999999999999ap-4)%float
  /\ float_of_Q (6 # 10000) = 0x1.3a92a30553261p-11%float
  /\ float_of_Q (1 # 100) = 0x1.47ae147ae147bp-7%float
  /\ int_truediv 1 0 = Raise ZeroDivisionError
  /\ int_truediv (10 ^ 330) 7 = Raise OverflowError
  /\ int_truediv 1 (10 ^ 330) = Ok 0%float.
Proof. repeat split; vm_compute; reflexivity. Qed.


(** ** Passes that do not raise *)

Lemma result_bind_ok {A B : Type} (m : M A) (f : A -> M B) (a : A) :
  result m = Ok a -> result (m ≫= f) = result (f a).
Proof. intros Hm. rewrite (bind_ok _ _ _ Hm). reflexivity. Qed.

Lemma get_lr_raises_none cfg it :
  0 <= it -> warmup_iters cfg <> lr_decay_iters cfg ->
  get_lr_raises cfg it = None.
Proof.
  intros Hit Hne. unfold get_lr_raises.
  destruct (Z.ltb_spec it (warmup_iters cfg)).
  - destruct (Z.eqb_spec (warmup_iters cfg) 0); [lia | reflexivity].
  - destruct (Z.ltb_spec (lr_decay_iters cfg) it); [reflexivity|].
    destruct (Z.eqb_spec (lr_decay_iters cfg - warmup_iters cfg) 0);
      [lia | reflexivity].
Qed.

Lemma set_lr_returns cfg it :
  0 <= it ->
  (decay_lr cfg = true -> warmup_iters cfg <> lr_decay_iters cfg) ->
  set_lr cfg it = Run [] (Ok tt).
Proof.
  intros Hit Hlr. unfold set_lr. destruct (decay_lr cfg); [|reflexivity].
  rewrite get_lr_raises_none by auto. reflexivity.
Qed.

Lemma eval_and_checkpoint_returns cfg ctx orc st :
  eval_interval cfg <> 0 ->
  exists st', result (eval_and_checkpoint cfg ctx orc st) = Ok st'
              /\ iter_num st' = iter_num st.
Proof.
  intros Hnz.
  assert (Hok : exists st', result (eval_and_checkpoint cfg ctx orc st) = Ok st').
  { rewrite (eval_and_checkpoint_run _ _ _ _ Hnz). cbn zeta.
    destruct ((iter_num st mod eval_interval cfg =? 0) && master_process ctx);
      eexists; reflexivity. }
  destruct Hok as [st' Hok]. exists st'. split; [exact Hok|].
  eapply eval_and_checkpoint_iter_num, Hok.
Qed.

Lemma accumulate_and_step_returns cfg ctx steps orc batch it :
  1 <= steps ->
  exists loss,
    result (accumulate_and_step cfg ctx steps orc batch it) = Ok (Some loss).
Proof.
  intros Hsteps. rewrite accumulate_and_step_run. cbn [result].
  assert (Hrange : py_range steps = py_range (steps - 1) ++ [steps - 1]).
  { replace (steps - 1) with (Z.of_nat (Z.to_nat (steps - 1))) by lia.
    rewrite <- py_range_succ. f_equal. lia. }
  rewrite Hrange, map_app. cbn [map]. rewrite last_last.
  eexists. reflexivity.
Qed.

Lemma log_iteration_returns cfg ctx steps epoch it loss :
  log_interval cfg <> 0 -> sample_interval cfg <> 0 ->
  result (log_iteration cfg ctx steps epoch it (Some loss)) = Ok tt.
Proof.
  intros Hlog Hsample. unfold log_iteration.
  rewrite (py_mod_nonzero _ _ Hlog), (py_mod_nonzero _ _ Hsample).
  unfold lift. rewrite bind_run_ok. cbn [trace result app].
  destruct ((it mod log_interval cfg =? 0) && master_process ctx),
    (it mod sample_interval cfg =? 0) eqn:Hs; cbn; rewrite ?Hs; reflexivity.
Qed.

Section NoException.
Variable cfg : Config.
Variable ctx : RunContext.
Variable steps : Z.
Variable orc : Oracle.
Hypothesis eval_interval_nonzero : eval_interval cfg <> 0.
Hypothesis log_interval_nonzero : log_interval cfg <> 0.
Hypothesis sample_interval_nonzero : sample_interval cfg <> 0.
Hypothesis steps_positive : 1 <= steps.
Hypothesis schedule_defined :
  decay_lr cfg = true -> warmup_iters cfg <> lr_decay_iters cfg.

Lemma iteration_returns epoch batch st :
  0 <= iter_num st ->
  exists flow st',
    result (iteration cfg ctx steps orc epoch batch st) = Ok (flow, st')
    /\ 0 <= iter_num st'.
Proof.
  intros Hit. unfold iteration.
  rewrite (set_lr_returns _ _ Hit schedule_defined), bind_run_ok.
  cbn [trace result app].
  destruct (eval_and_checkpoint_returns cfg ctx orc st eval_interval_nonzero)
    as (st1 & Heval & Hiter).
  rewrite (result_bind_ok _ _ _ Heval).
  destruct ((iter_num st1 =? 0) && eval_only cfg).
  - exists Break, st1. split; [reflexivity | lia].
  - destruct (accumulate_and_step_returns cfg ctx steps orc batch
                (iter_num st1) steps_positive) as [loss Hacc].
    rewrite (result_bind_ok _ _ _ Hacc).
    rewrite (result_bind_ok _ _ _
               (log_iteration_returns cfg ctx steps epoch (iter_num st1) loss
                  log_interval_nonzero sample_interval_nonzero)).
    eexists _, _. split; [reflexivity|]. cbn. lia.
Qed.

Lemma run_batches_returns epoch batches st :
  0 <= iter_num st ->
  exists st',
    result (run_batches cfg ctx steps orc epoch batches st) = Ok st'
    /\ 0 <= iter_num st'.
Proof.
  revert st. induction batches as [| batch rest IH]; intros st Hit.
  - exists st. split; [reflexivity | exact Hit].
  - cbn [run_batches].
    destruct (iteration_returns epoch batch st Hit) as (flow & st1 & Hok & Hit1).
    rewrite (result_bind_ok _ _ _ Hok).
    destruct flow; [apply IH, Hit1|].
    exists st1. split; [reflexivity | exact Hit1].
Qed.
End NoException.

Lemma iteration_events cfg ctx steps orc epoch batch st :
  Forall (fun e => epoch_event e = false)
    (trace (iteration cfg ctx steps orc epoch batch st)).
Proof.
  unfold iteration. apply Forall_trace_bind.
  - rewrite set_lr_trace. constructor.
  - intros _. apply Forall_trace_bind; [apply eval_and_checkpoint_events|].
    intros st1. eapply Forall_impl; [apply iteration_tail_events|].
    intros e [_ He]. exact He.
Qed.

Lemma run_batches_events cfg ctx steps orc epoch batches st :
  Forall (fun e => epoch_event e = false)
    (trace (run_batches cfg ctx steps orc epoch batches st)).
Proof.
  revert st. induction batches as [| batch rest IH]; intros st; [constructor|].
  cbn [run_batches]. apply Forall_trace_bind; [apply iteration_events|].
  intros [[] st1]; [apply IH | constructor].
Qed.

(** ** The epoch loop *)

Lemma epochs_started_app (t1 t2 : list Event) :
  epochs_started (t1 ++ t2) = epochs_started t1 ++ epochs_started t2.
Proof. apply omap_app. Qed.

Lemma no_epoch_event_boundary_free (t : list Event) :
  Forall (fun e => epoch_event e = false) t -> Forall boundary_free t.
Proof.
  intros Ht. eapply Forall_impl; [exact Ht|].
  intros e He. split; intros ->; discriminate He.
Qed.

Lemma run_epoch_single_worker cfg ctx steps orc epoch st st' :
  ddp ctx = false -> master_process ctx = true ->
  result (run_batches cfg ctx steps orc epoch (train_loader orc epoch) st)
  = Ok st' ->
  run_epoch cfg ctx steps orc epoch st
  = Run (LogEpochStart epoch
         :: trace (run_batches cfg ctx steps orc epoch
                     (train_loader orc epoch) st))
        (Ok (Continue, st')).
Proof.
  intros Hddp Hmaster Hok. unfold run_epoch. rewrite Hddp, Hmaster.
  cbn [when]. unfold emit. rewrite !bind_run_ok. cbn [trace result app].
  rewrite (bind_ok _ _ _ Hok). cbn [trace result]. rewrite app_nil_r.
  reflexivity.
Qed.

(** In a distributed run the epoch ends with the barrier, then the
    comparison of [iter_num] with [max_iters]. *)
Lemma run_epoch_distributed cfg ctx steps orc epoch st st' :
  ddp ctx = true ->
  result (run_batches cfg ctx steps orc epoch (train_loader orc epoch) st)
  = Ok st' ->
  run_epoch cfg ctx steps orc epoch st
  = Run (SetEpoch epoch
         :: (if master_process ctx then [LogEpochStart epoch] else [])
         ++ trace (run_batches cfg ctx steps orc epoch
                     (train_loader orc epoch) st)
         ++ Barrier
         :: (if max_iters cfg <? iter_num st' then [LogMaxIters] else []))
        (Ok (if max_iters cfg <? iter_num st' then Break else Continue, st')).
Proof.
  intros Hddp Hok. unfold run_epoch. rewrite Hddp.
  cbn [when]. unfold emit. rewrite !bind_run_ok. cbn [trace result app].
  assert (Hlog : forall k : unit -> M (Flow * TrainingState),
             when (master_process ctx) (Run [LogEpochStart epoch] (Ok tt)) ≫= k
             = Run ((if master_process ctx then [LogEpochStart epoch] else [])
                    ++ trace (k tt)) (result (k tt))).
  { intros k. destruct (master_process ctx); reflexivity. }
  rewrite Hlog. cbn [trace result]. rewrite (bind_ok _ _ _ Hok).
  cbn [trace result]. rewrite bind_run_ok.
  destruct (max_iters cfg <? iter_num st'); reflexivity.
Qed.

Section SingleWorker.
Variable cfg : Config.
Variable ctx : RunContext.
Variable steps : Z.
Variable orc : Oracle.
Hypothesis single : ddp ctx = false.
Hypothesis master : master_process ctx = true.
Hypothesis eval_interval_nonzero : eval_interval cfg <> 0.
Hypothesis log_interval_nonzero : log_interval cfg <> 0.
Hypothesis sample_interval_nonzero : sample_interval cfg <> 0.
Hypothesis steps_positive : 1 <= steps.
Hypothesis schedule_defined :
  decay_lr cfg = true -> warmup_iters cfg <> lr_decay_iters cfg.

Lemma run_epochs_single_worker (epochs : list Z) (st : TrainingState) :
  0 <= iter_num st ->
  exists st',
    result (run_epochs cfg ctx steps orc epochs st) = Ok st'
    /\ epochs_started (trace (run_epochs cfg ctx steps orc epochs st)) = epochs
    /\ Forall boundary_free (trace (run_epochs cfg ctx steps orc epochs st)).
Proof.
  revert st. induction epochs as [| epoch rest IH]; intros st Hit.
  - exists st. repeat split; constructor.
  - destruct (run_batches_returns cfg ctx steps orc eval_interval_nonzero
                log_interval_nonzero sample_interval_nonzero steps_positive
                schedule_defined epoch (train_loader orc epoch) st Hit)
      as (st1 & Hok & Hit1).
    destruct (IH st1 Hit1) as (st' & Hres & Hstarted & Hfree).
    pose proof (run_batches_events cfg ctx steps orc epoch
                  (train_loader orc epoch) st) as Hev.
    cbn [run_epochs].
    rewrite (run_epoch_single_worker _ _ _ _ _ _ _ single master Hok).
    rewrite bind_run_ok. cbn [trace result].
    exists st'. split; [exact Hres|]. split.
    + rewrite epochs_started_app, Hstarted.
      change (epochs_started (LogEpochStart epoch :: ?t))
        with (epoch :: epochs_started t).
      rewrite (epochs_started_no_epoch_event _ Hev). reflexivity.
    + constructor; [split; discriminate|].
      apply Forall_app. split; [|exact Hfree].
      apply no_epoch_event_boundary_free, Hev.
Qed.
End SingleWorker.

(** ** Logged training loss *)

Lemma wandb_train_losses_micro_steps cfg ctx steps orc batch it (xs : list Z) :
  wandb_train_losses (flat_map (micro_step_trace cfg ctx steps orc batch it) xs)
  = if wandb_enabled cfg ctx && master_process ctx then
      map (fun i => if ddp ctx then
                      all_reduce_avg (model_loss orc batch it i)
                        (peer_losses orc it i)
                    else model_loss orc batch it i) xs
    else [].
Proof.
  unfold wandb_train_losses. induction xs as [| i xs IH].
  - destruct (wandb_enabled cfg ctx && master_process ctx); reflexivity.
  - cbn [flat_map map]. rewrite omap_app, IH. unfold micro_step_trace.
    destruct (ddp ctx), (wandb_enabled cfg ctx && master_process ctx);
      reflexivity.
Qed.

Lemma printed_losses_micro_steps cfg ctx steps orc batch it (xs : list Z) :
  printed_losses (flat_map (micro_step_trace cfg ctx steps orc batch it) xs)
  = [].
Proof.
  unfold printed_losses. induction xs as [| i xs IH]; [reflexivity|].
  cbn [flat_map]. rewrite omap_app, IH. unfold micro_step_trace.
  destruct (ddp ctx), (wandb_enabled cfg ctx && master_process ctx);
    reflexivity.
Qed.

Lemma eval_and_checkpoint_no_training_loss cfg ctx orc st :
  wandb_train_losses (trace (eval_and_checkpoint cfg ctx orc st)) = []
  /\ printed_losses (trace (eval_and_checkpoint cfg ctx orc st)) = [].
Proof.
  destruct (Z.eqb_spec (eval_interval cfg) 0) as [Hz | Hnz].
  - unfold eval_and_checkpoint, py_mod. rewrite Hz. split; reflexivity.
  - rewrite (eval_and_checkpoint_run _ _ _ _ Hnz). cbn zeta.
    destruct ((iter_num st mod eval_interval cfg =? 0) && master_process ctx);
      [|split; reflexivity].
    cbn [trace].
    destruct (wandb_enabled cfg ctx), (improved cfg st _ _ && (0 <? iter_num st));
      split; reflexivity.
Qed.

Lemma log_iteration_run cfg ctx steps epoch it loss :
  log_interval cfg <> 0 -> sample_interval cfg <> 0 ->
  log_iteration cfg ctx steps epoch it (Some loss)
  = Run ((if (it mod log_interval cfg =? 0) && master_process ctx then
            [PrintLoss epoch it (loss * inject_Z steps)%Q]
          else [])
         ++ (if it mod sample_interval cfg =? 0 then [LogSample it] else []))
        (Ok tt).
Proof.
  intros Hlog Hsample. unfold log_iteration.
  rewrite (py_mod_nonzero _ _ Hlog), (py_mod_nonzero _ _ Hsample).
  unfold lift. rewrite bind_run_ok. cbn [trace result app].
  destruct ((it mod log_interval cfg =? 0) && master_process ctx),
    (it mod sample_interval cfg =? 0) eqn:Hs; cbn; rewrite ?Hs; reflexivity.
Qed.

(** X14: what one pass of the batch loop reports as training loss: the
    telemetry sink receives, at every micro-step, the all-reduced mean in a
    distributed run; the console line is computed from this process's own
    loss at the last micro-step, divided by the step count and multiplied
    back, and the other workers' losses do not enter it. *)
Lemma iteration_logged_losses cfg ctx steps orc epoch batch st :
  eval_interval cfg <> 0 -> log_interval cfg <> 0 ->
  sample_interval cfg <> 0 -> 1 <= steps ->
  result (set_lr cfg (iter_num st)) = Ok tt ->
  (iter_num st =? 0) && eval_only cfg = false ->
  let it := iter_num st in
  let t := trace (iteration cfg ctx steps orc epoch batch st) in
  wandb_train_losses t
  = (if wandb_enabled cfg ctx && master_process ctx then
       map (fun i => if ddp ctx then
                       all_reduce_avg (model_loss orc batch it i)
                         (peer_losses orc it i)
                     else model_loss orc batch it i) (py_range steps)
     else [])
  /\ printed_losses t
     = (if (it mod log_interval cfg =? 0) && master_process ctx then
          [(model_loss orc batch it (steps - 1) / inject_Z steps
            * inject_Z steps)%Q]
        else []).
Proof.
  intros Heval Hlog Hsample Hsteps Hlr Hbreak it t. subst t. unfold iteration.
  rewrite (set_lr_ok _ _ Hlr), bind_run_ok. cbn [trace app].
  destruct (eval_and_checkpoint_returns cfg ctx orc st Heval)
    as (st1 & Hok & Hiter).
  rewrite (bind_ok _ _ _ Hok). cbn [trace]. rewrite Hiter, Hbreak. fold it.
  destruct (eval_and_checkpoint_no_training_loss cfg ctx orc st) as [Hw Hp].
  rewrite accumulate_and_step_run, bind_run_ok. cbn [trace].
  assert (Hrange : py_range steps = py_range (steps - 1) ++ [steps - 1]).
  { replace (steps - 1) with (Z.of_nat (Z.to_nat (steps - 1))) by lia.
    rewrite <- py_range_succ. f_equal. lia. }
  assert (Hlast : List.last
                    (map (fun i => Some (model_loss orc batch it i
                                         / inject_Z steps)%Q)
                       (py_range steps)) None
                  = Some (model_loss orc batch it (steps - 1)
                          / inject_Z steps)%Q).
  { rewrite Hrange, map_app. cbn [map]. apply last_last. }
  rewrite Hlast, (log_iteration_run _ _ _ _ _ _ Hlog Hsample), bind_run_ok.
  cbn [trace]. rewrite app_nil_r.
  unfold wandb_train_losses, printed_losses in *.
  rewrite !omap_app, Hw, Hp. cbn [app].
  pose proof (wandb_train_losses_micro_steps cfg ctx steps orc batch it
                (py_range steps)) as Hwm.
  pose proof (printed_losses_micro_steps cfg ctx steps orc batch it
                (py_range steps)) as Hpm.
  unfold wandb_train_losses, printed_losses in Hwm, Hpm. rewrite Hwm, Hpm.
  split.
  - destruct (negb (Qeq_bool (grad_clip cfg) 0)),
      ((it mod log_interval cfg =? 0) && master_process ctx),
      (it mod sample_interval cfg =? 0); cbn; rewrite ?app_nil_r; reflexivity.
  - destruct (negb (Qeq_bool (grad_clip cfg) 0)),
      ((it mod log_interval cfg =? 0) && master_process ctx),
      (it mod sample_interval cfg =? 0); reflexivity.
Qed.

(** C7: on the coordinator of a two-worker run with the script's settings
    (8 accumulation steps, so 4 per process), where this worker's loss is 1
    and the other worker's is 3, the four values sent to the telemetry sink
    at iteration 0 are the all-reduced mean 2, but the console line of
    lines 417-423 shows 1: it is computed from [loss], the local loss of
    the last micro-step, not from [avg_loss]. *)
Theorem console_loss_is_local_loss :
  let env := {| RANK := Some 0; LOCAL_RANK := Some 0; WORLD_SIZE := Some 2 |} in
  let t := trace (iteration default_config (coordinator 2) 4 sample_oracle
                    0 0%nat (initial default_config)) in
  let global := mean [1; 3]%Q in
  ddp_setup env default_config = Ok (coordinator 2, 4)
  /\ (global == 2)%Q
  /\ length (wandb_train_losses t) = 4%nat
  /\ Forall (fun l => (l == global)%Q) (wandb_train_losses t)
  /\ exists printed,
       printed_losses t = [printed]
       /\ (printed == 1)%Q
       /\ ~ (printed == global)%Q.
Proof.
  cbv zeta. split; [reflexivity|]. split; [reflexivity|].
  split; [reflexivity|]. split.
  - vm_compute. repeat constructor.
  - exists (4 # 4)%Q. split; [vm_compute; reflexivity|].
    split; [reflexivity | discriminate].
Qed.

(** ** The first checkpoint *)

(** At iteration 0 the coordinator evaluates and updates the trackers
    without writing a checkpoint. *)
Lemma iteration_0_updates_without_saving cfg ctx orc st :
  eval_interval cfg <> 0 -> master_process ctx = true -> iter_num st = 0 ->
  let val_loss := (evaluate orc 0).1 in
  let val_bleu := (evaluate orc 0).2 in
  let m := eval_and_checkpoint cfg ctx orc st in
  evaluated (trace m) = [0]
  /\ saved (trace m) = []
  /\ result m = Ok (if improved cfg st val_loss val_bleu then
                      update_best st val_loss val_bleu
                    else st).
Proof.
  intros Hnz Hmaster Hit. cbv zeta.
  rewrite (eval_and_checkpoint_run _ _ _ _ Hnz). cbn zeta.
  rewrite Hit, Hmaster, Z.mod_0_l by exact Hnz.
  cbn [Z.eqb andb trace result]. rewrite andb_false_r.
  destruct (wandb_enabled cfg ctx); repeat split.
Qed.

(** C10: in the sample single-worker run the evaluation at iteration 0
    returns loss 2 and BLEU 1/2; the trackers become 2 and 0 (the [elif]
    of line 340 drops the BLEU) and nothing is saved.  The evaluation at iteration 1 returns loss 3 and BLEU 1/10,
    which beats the iteration-0 result on neither metric, and
    [always_save_checkpoint] is off; yet the first checkpoint of the run
    is written there. *)
Theorem first_checkpoint_without_beating_iteration_0 :
  let m := train short_config single_worker 2 sample_oracle
             (initial short_config) in
  evaluate sample_oracle 0 = (2, 1 # 2)%Q
  /\ evaluate sample_oracle 1 = (3, 1 # 10)%Q
  /\ eval_and_checkpoint short_config single_worker sample_oracle
       (initial short_config)
     = Run [Evaluate 0; PrintEval 0 2 (1 # 2); WandbVal 0 2 (1 # 2)]
           (Ok {| iter_num := 0; best_val_loss := 2; best_val_bleu := 0 |})
  /\ evaluated (trace m) = [0; 1; 2]
  /\ saved (trace m)
     = [make_checkpoint short_config [] []
          {| iter_num := 1; best_val_loss := 2; best_val_bleu := 1 # 10 |}]
  /\ ~ (3 < 2)%Q
  /\ ~ (1 # 2 < 1 # 10)%Q
  /\ always_save_checkpoint short_config = false.
Proof.
  cbv zeta. split; [reflexivity|]. split; [reflexivity|].
  split; [reflexivity|]. split; [vm_compute; reflexivity|].
  split; [vm_compute; reflexivity|].
  split; [intros H; discriminate H|].
  split; [intros H; discriminate H | reflexivity].
Qed.

(** ** Checkpoints written by a run *)

Lemma step_event_written (t : list Event) :
  Forall step_event t -> Forall written_by_script t.
Proof.
  intros Ht. eapply Forall_impl; [exact Ht|].
  intros e [He _]. destruct e; try exact I. discriminate He.
Qed.

Lemma eval_and_checkpoint_written cfg ctx orc st :
  Forall written_by_script (trace (eval_and_checkpoint cfg ctx orc st)).
Proof.
  destruct (Z.eqb_spec (eval_interval cfg) 0) as [Hz | Hnz].
  - unfold eval_and_checkpoint, py_mod. rewrite Hz. constructor.
  - rewrite (eval_and_checkpoint_run _ _ _ _ Hnz). cbn zeta.
    destruct ((iter_num st mod eval_interval cfg =? 0) && master_process ctx);
      [|constructor].
    cbn [trace].
    destruct (wandb_enabled cfg ctx), (improved cfg st _ _ && (0 <? iter_num st));
      repeat constructor; cbn; eauto.
Qed.

Lemma iteration_written cfg ctx steps orc epoch batch st :
  Forall written_by_script (trace (iteration cfg ctx steps orc epoch batch st)).
Proof.
  unfold iteration. apply Forall_trace_bind.
  - rewrite set_lr_trace. constructor.
  - intros _. apply Forall_trace_bind; [apply eval_and_checkpoint_written|].
    intros st1. apply step_event_written, iteration_tail_events.
Qed.

Lemma run_batches_written cfg ctx steps orc epoch batches st :
  Forall written_by_script
    (trace (run_batches cfg ctx steps orc epoch batches st)).
Proof.
  revert st. induction batches as [| batch rest IH]; intros st; [constructor|].
  cbn [run_batches]. apply Forall_trace_bind; [apply iteration_written|].
  intros [[] st1]; [apply IH | constructor].
Qed.

Lemma run_epoch_written cfg ctx steps orc epoch st :
  Forall written_by_script (trace (run_epoch cfg ctx steps orc epoch st)).
Proof.
  unfold run_epoch.
  apply Forall_trace_bind;
    [apply Forall_trace_when; repeat constructor | intros _].
  apply Forall_trace_bind;
    [apply Forall_trace_when; repeat constructor | intros _].
  apply Forall_trace_bind; [apply run_batches_written | intros st1].
  destruct (ddp ctx); [|constructor].
  apply Forall_trace_bind; [repeat constructor | intros _].
  destruct (max_iters cfg <? iter_num st1); repeat constructor.
Qed.

Lemma run_epochs_written cfg ctx steps orc epochs st :
  Forall written_by_script (trace (run_epochs cfg ctx steps orc epochs st)).
Proof.
  revert st. induction epochs as [| epoch rest IH]; intros st; [constructor|].
  cbn [run_epochs]. apply Forall_trace_bind; [apply run_epoch_written|].
  intros [[] st1]; [apply IH | constructor].
Qed.

Lemma train_written cfg ctx steps orc st :
  Forall written_by_script (trace (train cfg ctx steps orc st)).
Proof.
  unfold train. apply Forall_trace_bind; [apply run_epochs_written|].
  intros st1. apply Forall_trace_bind; [repeat constructor | intros _].
  apply Forall_trace_bind;
    [apply Forall_trace_when; repeat constructor | intros _; constructor].
Qed.

(** No checkpoint that any run of the script writes can be resumed from:
    whatever the environment, configuration and collaborators of the run
    that saved it and of the run that loads it. *)
Lemma saved_checkpoint_cannot_be_resumed env cfg file bcast_it bcast_loss orc
    (c : gmap string PyVal) ctx' bcast_it' bcast_loss' :
  In (SaveCheckpoint c) (trace (main env cfg file bcast_it bcast_loss orc)) ->
  resume ctx' bcast_it' bcast_loss' (Some c) = Raise (KeyError "iter_num").
Proof.
  intros Hin.
  assert (Hall : Forall written_by_script
                   (trace (main env cfg file bcast_it bcast_loss orc))).
  { unfold main. apply Forall_trace_bind; [constructor | intros [ctx steps]].
    apply Forall_trace_bind; [constructor | intros [r st]].
    apply train_written. }
  rewrite Forall_forall in Hall. apply list_elem_of_In, Hall in Hin.
  destruct Hin as (cfg0 & model & optimizer & st & ->).
  apply resume_make_checkpoint.
Qed.

(** * Further properties of the script *)

(** ** The schedule's exceptions and unchecked bounds *)

(** The exceptions of the binary64 evaluation, for counts of magnitude
    below [2^53]. *)
Lemma get_lr_binary64_raises_spec cfg math_cos it e :
  Z.abs it < 2 ^ 53 -> Z.abs (warmup_iters cfg) < 2 ^ 53 ->
  get_lr_binary64 cfg math_cos it = Raise e
  <-> e = ZeroDivisionError
      /\ ((it < warmup_iters cfg /\ warmup_iters cfg = 0)
          \/ (it = warmup_iters cfg /\ lr_decay_iters cfg = warmup_iters cfg)).
Proof.
  intros Hit HW.
  destruct (Z.ltb_spec it (warmup_iters cfg)) as [Hlt | Hge].
  - assert (Hrun : get_lr_binary64 cfg math_cos it
                   = if (binary64_of_int (warmup_iters cfg) =? 0)%float
                     then Raise ZeroDivisionError
                     else Ok (float_of_Q (learning_rate cfg)
                              * binary64_of_int it
                              / binary64_of_int (warmup_iters cfg))%float).
    { unfold get_lr_binary64.
      destruct (Z.ltb_spec it (warmup_iters cfg)) as [_ | H]; [|lia].
      rewrite (float_of_int_small it), (float_of_int_small (warmup_iters cfg))
        by assumption.
      reflexivity. }
    rewrite Hrun. destruct (Z.eq_dec (warmup_iters cfg) 0) as [H0 | H0].
    + rewrite H0. change (binary64_of_int 0 =? 0)%float with true.
      split; [intros [= <-]; split; [reflexivity | left; lia]|].
      intros [-> _]. reflexivity.
    + rewrite (binary64_of_int_nonzero _ H0 HW).
      split; [discriminate | intros [_ [[_ H] | [H _]]]; lia].
  - destruct (Z.ltb_spec (lr_decay_iters cfg) it) as [Hd | Hd].
    + rewrite get_lr_binary64_floor by lia.
      split; [discriminate | intros [_ [[H _] | [H1 H2]]]; lia].
    + destruct (Z.eq_dec (lr_decay_iters cfg) (warmup_iters cfg))
        as [Heq | Hne].
      * assert (Hit' : it = warmup_iters cfg) by lia.
        assert (Hrun : get_lr_binary64 cfg math_cos it
                       = Raise ZeroDivisionError).
        { unfold get_lr_binary64.
          destruct (Z.ltb_spec it (warmup_iters cfg)) as [H | _]; [lia|].
          destruct (Z.ltb_spec (lr_decay_iters cfg) it) as [H | _]; [lia|].
          rewrite Heq, Z.sub_diag. reflexivity. }
        rewrite Hrun.
        split; [intros [= <-]; split; [reflexivity | right; lia]|].
        intros [-> _]. reflexivity.
      * destruct (get_lr_binary64_decay cfg math_cos it ltac:(lia)
                    ltac:(lia)) as (ratio & _ & _ & _ & ->).
        split; [discriminate | intros [_ [[H _] | [H1 H2]]]; lia].
Qed.

(** The exceptions of the reading over the reals. *)
Lemma get_lr_raises_iff cfg it e :
  get_lr cfg it = Raise e
  <-> e = ZeroDivisionError
      /\ ((it < warmup_iters cfg /\ warmup_iters cfg = 0)
          \/ (it = warmup_iters cfg /\ lr_decay_iters cfg = warmup_iters cfg)).
Proof.
  rewrite get_lr_raises_spec. unfold get_lr_raises.
  destruct (Z.ltb_spec it (warmup_iters cfg)).
  - destruct (Z.eqb_spec (warmup_iters cfg) 0).
    + split; [intros [= <-]; split; [reflexivity | left; lia]|].
      intros [-> _]. reflexivity.
    + split; [discriminate | intros [_ [[_ Hz] | [Hit _]]]; lia].
  - destruct (Z.ltb_spec (lr_decay_iters cfg) it).
    + split; [discriminate | intros [_ [[Hlt _] | [Hit Hd]]]; lia].
    + destruct (Z.eqb_spec (lr_decay_iters cfg - warmup_iters cfg) 0).
      * split; [intros [= <-]; split; [reflexivity | right; lia]|].
        intros [-> _]. reflexivity.
      * split; [discriminate | intros [_ [[Hlt _] | [Hit Hd]]]; lia].
Qed.

(** For counts of magnitude below [2^53] the two readings of the schedule
    raise the same exceptions at the same iterations, whatever the
    cosine: line 309 raises in the loop exactly when the binary64
    evaluation does. *)
Lemma get_lr_raises_agree cfg math_cos it e :
  Z.abs it < 2 ^ 53 -> Z.abs (warmup_iters cfg) < 2 ^ 53 ->
  get_lr cfg it = Raise e <-> get_lr_binary64 cfg math_cos it = Raise e.
Proof.
  intros Hit HW.
  rewrite get_lr_raises_iff, (get_lr_binary64_raises_spec _ _ _ _ Hit HW).
  reflexivity.
Qed.

(** X1: within the range of the exactly convertible counts ([it] and
    [warmup_iters] of magnitude below [2^53]) the schedule, evaluated in
    binary64, never fails the assertion of line 272 and raises no
    [OverflowError].  The only exception it raises is
    [ZeroDivisionError], and it raises it exactly when
    [it < warmup_iters = 0] (line 266) or when
    [it = warmup_iters = lr_decay_iters] (line 271). *)
Theorem get_lr_binary64_raises_only_zero_division cfg math_cos it e :
  Z.abs it < 2 ^ 53 -> Z.abs (warmup_iters cfg) < 2 ^ 53 ->
  let degenerate :=
    (it < warmup_iters cfg /\ warmup_iters cfg = 0)
    \/ (it = warmup_iters cfg /\ lr_decay_iters cfg = warmup_iters cfg) in
  (get_lr_binary64 cfg math_cos it = Raise e
   <-> e = ZeroDivisionError /\ degenerate)
  /\ (~ degenerate -> exists v, get_lr_binary64 cfg math_cos it = Ok v).
Proof.
  intros Hit HW degenerate. split.
  - apply get_lr_binary64_raises_spec; assumption.
  - intros Hnot.
    destruct (get_lr_binary64 cfg math_cos it) as [v | e'] eqn:Hrun;
      [exists v; reflexivity|].
    apply get_lr_binary64_raises_spec in Hrun; [|assumption..].
    destruct Hrun as [_ Hdeg]. contradiction.
Qed.

Lemma get_lr_binary64_raises_only_zero_division_witness :
  let cfg := {|
    sample_interval := 100; eval_interval := 600; log_interval := 50;
    eval_iters := 355; eval_only := false; always_save_checkpoint := false;
    init_from := "scratch"; wandb_log := true;
    gradient_accumulation_steps := 8; batch_size := 8; block_size := 300;
    n_layer := 12; n_head := 8; n_embd := 512; dropout := 0; bias := false;
    learning_rate := 6 # 10000; max_iters := 120000; grad_clip := 1;
    decay_lr := true; warmup_iters := 2000; lr_decay_iters := 2000;
    min_lr := 6 # 100000;
    initial := {| iter_num := 0; best_val_loss := 1000000000;
                  best_val_bleu := 0 |};
    num_epochs := 100; max_n := 4 |} in
  Z.abs 2000 < 2 ^ 53 /\ Z.abs (warmup_iters cfg) < 2 ^ 53
  /\ let degenerate :=
       (2000 < warmup_iters cfg /\ warmup_iters cfg = 0)
       \/ (2000 = warmup_iters cfg
           /\ lr_decay_iters cfg = warmup_iters cfg) in
     (get_lr_binary64 cfg cos_at_ends 2000 = Raise ZeroDivisionError
      <-> ZeroDivisionError = ZeroDivisionError /\ degenerate)
     /\ (~ degenerate ->
         exists v, get_lr_binary64 cfg cos_at_ends 2000 = Ok v).
Proof.
  intros cfg.
  assert (H1 : Z.abs 2000 < 2 ^ 53) by reflexivity.
  assert (H2 : Z.abs (warmup_iters cfg) < 2 ^ 53) by reflexivity.
  repeat (split; [assumption|]).
  exact (get_lr_binary64_raises_only_zero_division cfg cos_at_ends 2000
           ZeroDivisionError H1 H2).
Defined.

(** The degenerate schedule [warmup_iters = lr_decay_iters = 2000] raises
    at iteration 2000 and returns on both sides of it. *)
Example get_lr_binary64_degenerate :
  let cfg := {|
    sample_interval := 100; eval_interval := 600; log_interval := 50;
    eval_iters := 355; eval_only := false; always_save_checkpoint := false;
    init_from := "scratch"; wandb_log := true;
    gradient_accumulation_steps := 8; batch_size := 8; block_size := 300;
    n_layer := 12; n_head := 8; n_embd := 512; dropout := 0; bias := false;
    learning_rate := 6 # 10000; max_iters := 120000; grad_clip := 1;
    decay_lr := true; warmup_iters := 2000; lr_decay_iters := 2000;
    min_lr := 6 # 100000;
    initial := {| iter_num := 0; best_val_loss := 1000000000;
                  best_val_bleu := 0 |};
    num_epochs := 100; max_n := 4 |} in
  get_lr_binary64 cfg cos_at_ends 2000 = Raise ZeroDivisionError
  /\ get_lr_binary64 cfg cos_at_ends 1999 = Ok 0x1.3a6a5f196b0b0p-11%float
  /\ get_lr_binary64 cfg cos_at_ends 2001
     = Ok (float_of_Q (6 # 100000)).
Proof. repeat split; vm_compute; reflexivity. Qed.



(** ** Start-up *)

(** X3: start-up divides the accumulation steps among the workers without
    loss: whenever it returns, the per-process step count times the world
    size is the configured count, so [tokens_per_iter] does not depend on
    the number of workers. *)
Theorem ddp_setup_keeps_total_steps env cfg ctx steps :
  ddp_setup env cfg = Ok (ctx, steps) ->
  steps * ddp_world_size ctx = gradient_accumulation_steps cfg
  /\ tokens_per_iter cfg ctx steps
     = gradient_accumulation_steps cfg * batch_size cfg * block_size cfg.
Proof.
  intros Hsetup.
  assert (Htotal : steps * ddp_world_size ctx = gradient_accumulation_steps cfg).
  { unfold ddp_setup in Hsetup.
    destruct (negb (default (-1) (RANK env) =? -1)).
    - destruct (RANK env) as [rank|]; [|discriminate].
      destruct (LOCAL_RANK env) as [local_rank|]; [|discriminate].
      destruct (WORLD_SIZE env) as [world_size|]; [|discriminate].
      cbn in Hsetup. unfold py_mod, py_floordiv in Hsetup.
      destruct (Z.eqb_spec world_size 0) as [|Hnz]; [discriminate|].
      cbn in Hsetup.
      destruct (Z.eqb_spec (gradient_accumulation_steps cfg mod world_size) 0)
        as [Hmod|]; [|discriminate].
      cbn in Hsetup. injection Hsetup as <- <-. cbn.
      pose proof (Z.div_mod (gradient_accumulation_steps cfg) world_size Hnz).
      lia.
    - injection Hsetup as <- <-. cbn. lia. }
  split; [exact Htotal|]. unfold tokens_per_iter. rewrite Htotal. reflexivity.
Qed.

Lemma ddp_setup_keeps_total_steps_witness :
  let env := {| RANK := Some 3; LOCAL_RANK := Some 3; WORLD_SIZE := Some 4 |} in
  let ctx := {| ddp := true; ddp_rank := 3; ddp_local_rank := 3;
                ddp_world_size := 4; master_process := false;
                seed_offset := 3 |} in
  ddp_setup env default_config = Ok (ctx, 2)
  /\ 2 * ddp_world_size ctx = gradient_accumulation_steps default_config
  /\ tokens_per_iter default_config ctx 2
     = gradient_accumulation_steps default_config * batch_size default_config
       * block_size default_config.
Proof.
  intros env ctx.
  assert (H : ddp_setup env default_config = Ok (ctx, 2)) by reflexivity.
  split; [exact H|].
  exact (ddp_setup_keeps_total_steps env default_config ctx 2 H).
Defined.

(** X4: a distributed run with more workers than (positive) accumulation
    steps cannot start: the assertion of line 116 fails. *)
Theorem ddp_setup_more_workers_than_steps env cfg rank local_rank world_size :
  RANK env = Some rank -> rank <> -1 ->
  LOCAL_RANK env = Some local_rank ->
  WORLD_SIZE env = Some world_size ->
  0 < gradient_accumulation_steps cfg < world_size ->
  ddp_setup env cfg = Raise AssertionError.
Proof.
  intros Hrank Hne Hlocal Hworld Hsteps.
  rewrite (ddp_setup_distributed env cfg _ _ _ Hrank Hne Hlocal Hworld)
    by lia.
  rewrite Z.mod_small by lia.
  destruct (Z.eqb_spec (gradient_accumulation_steps cfg) 0); [lia | reflexivity].
Qed.

Lemma ddp_setup_more_workers_than_steps_witness :
  let env := {| RANK := Some 0; LOCAL_RANK := Some 0; WORLD_SIZE := Some 16 |} in
  RANK env = Some 0 /\ 0 <> -1 /\ LOCAL_RANK env = Some 0
  /\ WORLD_SIZE env = Some 16
  /\ 0 < gradient_accumulation_steps default_config < 16
  /\ ddp_setup env default_config = Raise AssertionError.
Proof.
  intros env.
  assert (H1 : RANK env = Some 0) by reflexivity.
  assert (H2 : 0 <> -1) by lia.
  assert (H3 : LOCAL_RANK env = Some 0) by reflexivity.
  assert (H4 : WORLD_SIZE env = Some 16) by reflexivity.
  assert (H5 : 0 < gradient_accumulation_steps default_config < 16)
    by (cbn; lia).
  repeat (split; [assumption|]).
  exact (ddp_setup_more_workers_than_steps env default_config 0 0 16
           H1 H2 H3 H4 H5).
Defined.

(** X5: whenever start-up returns, the run is distributed exactly when
    [RANK] is set to something other than -1, and the process is the
    coordinator exactly when [RANK] is unset, -1 or 0. *)
Theorem ddp_setup_roles env cfg ctx steps :
  ddp_setup env cfg = Ok (ctx, steps) ->
  (ddp ctx = true <-> exists rank, RANK env = Some rank /\ rank <> -1)
  /\ (master_process ctx = true
      <-> RANK env = None \/ RANK env = Some (-1) \/ RANK env = Some 0).
Proof.
  intros Hsetup. unfold ddp_setup in Hsetup.
  destruct (RANK env) as [rank|] eqn:Hrank.
  - change (default (-1) (Some rank)) with rank in Hsetup.
    destruct (Z.eqb_spec rank (-1)) as [-> | Hne]; cbn [negb] in Hsetup.
    + injection Hsetup as <- <-. cbn. split.
      * split; [discriminate | intros (r & [= <-] & Hr); contradiction].
      * split; [intros _; right; left; reflexivity | reflexivity].
    + destruct (LOCAL_RANK env) as [local_rank|]; [|discriminate].
      destruct (WORLD_SIZE env) as [world_size|]; [|discriminate].
      cbn in Hsetup. unfold py_mod, py_floordiv in Hsetup.
      destruct (world_size =? 0); [discriminate|]. cbn in Hsetup.
      destruct (gradient_accumulation_steps cfg mod world_size =? 0);
        [|discriminate].
      cbn in Hsetup. injection Hsetup as <- <-. cbn. split.
      * split; [intros _; exists rank; split; [reflexivity | exact Hne]
               | reflexivity].
      * rewrite Z.eqb_eq. split.
        -- intros ->. right; right; reflexivity.
        -- intros [Hn | [[= Hm] | [= H0]]]; [discriminate | lia | exact H0].
  - cbn in Hsetup. injection Hsetup as <- <-. cbn. split.
    + split; [discriminate | intros (r & Hr & _); discriminate].
    + split; [intros _; left; reflexivity | reflexivity].
Qed.

Lemma ddp_setup_roles_witness :
  let env := {| RANK := Some 0; LOCAL_RANK := Some 0; WORLD_SIZE := Some 2 |} in
  ddp_setup env default_config = Ok (coordinator 2, 4)
  /\ (ddp (coordinator 2) = true
      <-> exists rank, RANK env = Some rank /\ rank <> -1)
  /\ (master_process (coordinator 2) = true
      <-> RANK env = None \/ RANK env = Some (-1) \/ RANK env = Some 0).
Proof.
  intros env.
  assert (H : ddp_setup env default_config = Ok (coordinator 2, 4))
    by reflexivity.
  split; [exact H|].
  exact (ddp_setup_roles env default_config (coordinator 2) 4 H).
Defined.

(** ** Resuming *)

(** X6: the written format lacks nothing but the iteration count.  Once an
    [iter_num] entry is added to a checkpoint of lines 345-352, resuming
    returns the saved model and optimizer state and both trackers; in a
    distributed run [iter_num] and [best_val_loss] are what the broadcasts
    leave, while [best_val_bleu] is always the value read from the file:
    it is never broadcast. *)
Theorem resume_patched_checkpoint ctx bcast_it bcast_loss cfg model optimizer
    st it :
  resume ctx bcast_it bcast_loss
    (Some (<["iter_num" := VInt it]> (make_checkpoint cfg model optimizer st)))
  = Ok {| resumed_model := model; resumed_optimizer := optimizer;
          resumed_state :=
            {| iter_num := if ddp ctx then bcast_it it else it;
               best_val_loss := if ddp ctx then bcast_loss (best_val_loss st)
                                else best_val_loss st;
               best_val_bleu := best_val_bleu st |} |}.
Proof.
  unfold resume, getitem, make_checkpoint.
  repeat (rewrite ?lookup_insert_eq; rewrite ?lookup_insert_ne by done).
  reflexivity.
Qed.

(** X7: resuming returns only from a file that exists and holds the keys
    [model], [iter_num], [best_val_loss], [best_val_bleu] and [optimizer];
    the model and optimizer state returned are the ones stored, and the
    BLEU tracker is the stored one. *)
Theorem resume_needs_all_keys ctx bcast_it bcast_loss file r :
  resume ctx bcast_it bcast_loss file = Ok r ->
  exists checkpoint,
    file = Some checkpoint
    /\ checkpoint !! "model" = Some (VStateDict (resumed_model r))
    /\ is_Some (checkpoint !! "iter_num")
    /\ is_Some (checkpoint !! "best_val_loss")
    /\ (exists v, checkpoint !! "best_val_bleu" = Some v
                  /\ as_float v = Ok (best_val_bleu (resumed_state r)))
    /\ checkpoint !! "optimizer" = Some (VStateDict (resumed_optimizer r)).
Proof.
  unfold resume. destruct file as [checkpoint|]; [|discriminate].
  unfold getitem.
  destruct (checkpoint !! "model") as [[| | model | |]|] eqn:Hmodel;
    try discriminate.
  destruct (checkpoint !! "iter_num") as [[it | | | |]|] eqn:Hit;
    try discriminate.
  destruct (checkpoint !! "best_val_loss") as [vloss|] eqn:Hvloss;
    [|discriminate].
  destruct (as_float vloss) as [loss|] eqn:Hloss;
    [|destruct vloss; discriminate].
  destruct (checkpoint !! "best_val_bleu") as [vbleu|] eqn:Hvbleu;
    [|destruct vloss; discriminate].
  destruct (as_float vbleu) as [bleu|] eqn:Hbleu;
    [|destruct vloss, vbleu; discriminate].
  destruct (checkpoint !! "optimizer") as [[| | optimizer | |]|] eqn:Hopt;
    try (destruct vloss, vbleu; discriminate).
  intros Hok. exists checkpoint. split; [reflexivity|].
  assert (Hr : r = {| resumed_model := model; resumed_optimizer := optimizer;
                      resumed_state :=
                        {| iter_num := if ddp ctx then bcast_it it else it;
                           best_val_loss := if ddp ctx then bcast_loss loss
                                            else loss;
                           best_val_bleu := bleu |} |}).
  { destruct vloss, vbleu; cbn in *; try discriminate;
      injection Hloss as <-; injection Hbleu as <-; injection Hok as <-;
      reflexivity. }
  subst r. cbn. repeat split; eauto.
Qed.

Lemma resume_needs_all_keys_witness :
  let file := Some (<["iter_num" := VInt 600]>
                    (make_checkpoint default_config [] []
                       {| iter_num := 600; best_val_loss := 2;
                          best_val_bleu := 1 # 2 |})) in
  let r := {| resumed_model := []; resumed_optimizer := [];
              resumed_state := {| iter_num := 600; best_val_loss := 2;
                                  best_val_bleu := 1 # 2 |} |} in
  resume single_worker (fun it => it) (fun loss => loss) file = Ok r
  /\ exists checkpoint,
       file = Some checkpoint
       /\ checkpoint !! "model" = Some (VStateDict (resumed_model r))
       /\ is_Some (checkpoint !! "iter_num")
       /\ is_Some (checkpoint !! "best_val_loss")
       /\ (exists v, checkpoint !! "best_val_bleu" = Some v
                     /\ as_float v = Ok (best_val_bleu (resumed_state r)))
       /\ checkpoint !! "optimizer" = Some (VStateDict (resumed_optimizer r)).
Proof.
  intros file r.
  assert (H : resume single_worker (fun it => it) (fun loss => loss) file = Ok r)
    by reflexivity.
  split; [exact H|].
  exact (resume_needs_all_keys single_worker _ _ file r H).
Defined.

(** ** An invariant rule for the loops *)

Lemma ensures_bind {A B : Type} (m : M A) (f : A -> M B)
    (Q : list Event -> Prop) (R1 : A -> Prop) (R2 : B -> Prop) :
  closed_under_app Q ->
  ensures m Q R1 ->
  (forall a, R1 a -> ensures (f a) Q R2) ->
  ensures (m ≫= f) Q R2.
Proof.
  intros [Hnil Happ] [Hm Hr] Hf. destruct (result m) as [a | e] eqn:Hres.
  - rewrite (bind_ok _ _ _ Hres). destruct (Hf a (Hr a eq_refl)) as [Hfa Hra].
    split; [apply Happ; assumption | exact Hra].
  - rewrite (bind_raise _ _ _ Hres). split; [exact Hm | discriminate].
Qed.

Lemma ensures_ret {A : Type} (a : A) (Q : list Event -> Prop) (R : A -> Prop) :
  closed_under_app Q -> R a -> ensures (mret a) Q R.
Proof.
  intros [Hnil _] Ha. split; [exact Hnil | intros a' [= <-]; exact Ha].
Qed.

Lemma ensures_trace {A : Type} (m : M A) (Q : list Event -> Prop) :
  Q (trace m) -> ensures m Q (fun _ => True).
Proof. intros Hm. split; [exact Hm | trivial]. Qed.

Lemma result_bind_inv {A B : Type} (m : M A) (f : A -> M B) (b : B) :
  result (m ≫= f) = Ok b ->
  exists a, result m = Ok a /\ result (f a) = Ok b.
Proof.
  destruct (result m) as [a | e] eqn:Hres.
  - rewrite (bind_ok _ _ _ Hres). intros Hb. exists a. split; [reflexivity | exact Hb].
  - rewrite (bind_raise _ _ _ Hres). discriminate.
Qed.

Section LoopInvariant.
Variable cfg : Config.
Variable ctx : RunContext.
Variable steps : Z.
Variable orc : Oracle.
Variable Q : list Event -> Prop.
Variable I : TrainingState -> Prop.
Hypothesis Q_closed : closed_under_app Q.
Hypothesis eval_keeps :
  forall st, I st -> ensures (eval_and_checkpoint cfg ctx orc st) Q I.
Hypothesis count_keeps :
  forall st, I st -> I (set_iter_num st (iter_num st + 1)).
Hypothesis accumulate_emits :
  forall batch it, Q (trace (accumulate_and_step cfg ctx steps orc batch it)).
Hypothesis log_emits :
  forall epoch it loss, Q (trace (log_iteration cfg ctx steps epoch it loss)).
Hypothesis epoch_emits :
  forall e, epoch_event e = true ->
            (forall epoch, e = LogEpochStart epoch -> master_process ctx = true) ->
            Q [e].

Lemma iteration_ensures epoch batch st :
  I st ->
  ensures (iteration cfg ctx steps orc epoch batch st) Q (fun r => I r.2).
Proof.
  intros Hst. unfold iteration.
  apply (ensures_bind _ _ Q (fun _ => True)); [exact Q_closed | |].
  { apply ensures_trace. rewrite set_lr_trace. apply Q_closed. }
  intros _ _. apply (ensures_bind _ _ Q I); [exact Q_closed | |].
  { apply eval_keeps, Hst. }
  intros st1 Hst1.
  destruct ((iter_num st1 =? 0) && eval_only cfg).
  { apply ensures_ret; [exact Q_closed | exact Hst1]. }
  apply (ensures_bind _ _ Q (fun _ => True)); [exact Q_closed | |].
  { apply ensures_trace, accumulate_emits. }
  intros loss _. apply (ensures_bind _ _ Q (fun _ => True)); [exact Q_closed | |].
  { apply ensures_trace, log_emits. }
  intros _ _. apply ensures_ret; [exact Q_closed|]. apply count_keeps, Hst1.
Qed.

Lemma run_batches_ensures epoch batches st :
  I st -> ensures (run_batches cfg ctx steps orc epoch batches st) Q I.
Proof.
  revert st. induction batches as [| batch rest IH]; intros st Hst.
  - apply ensures_ret; [exact Q_closed | exact Hst].
  - cbn [run_batches].
    apply (ensures_bind _ _ Q (fun r => I r.2)); [exact Q_closed | |].
    { apply iteration_ensures, Hst. }
    intros [[] st1] Hst1; cbn in Hst1.
    + apply IH, Hst1.
    + apply ensures_ret; [exact Q_closed | exact Hst1].
Qed.

Lemma when_emit_ensures (b : bool) (e : Event) :
  (b = true -> Q [e]) -> ensures (when b (emit e)) Q (fun _ => True).
Proof.
  intros He. apply ensures_trace. destruct b; [apply He; reflexivity|].
  apply Q_closed.
Qed.

Lemma run_epoch_ensures epoch st :
  I st -> ensures (run_epoch cfg ctx steps orc epoch st) Q (fun r => I r.2).
Proof.
  intros Hst. unfold run_epoch.
  apply (ensures_bind _ _ Q (fun _ => True)); [exact Q_closed | |].
  { apply when_emit_ensures. intros _.
    apply epoch_emits; [reflexivity | discriminate]. }
  intros _ _. apply (ensures_bind _ _ Q (fun _ => True)); [exact Q_closed | |].
  { apply when_emit_ensures. intros Hmaster.
    apply epoch_emits; [reflexivity | intros _ _; exact Hmaster]. }
  intros _ _. apply (ensures_bind _ _ Q I); [exact Q_closed | |].
  { apply run_batches_ensures, Hst. }
  intros st1 Hst1. destruct (ddp ctx).
  - apply (ensures_bind _ _ Q (fun _ => True)); [exact Q_closed | |].
    { apply ensures_trace. apply epoch_emits; [reflexivity | discriminate]. }
    intros _ _. destruct (max_iters cfg <? iter_num st1).
    + apply (ensures_bind _ _ Q (fun _ => True)); [exact Q_closed | |].
      { apply ensures_trace. apply epoch_emits; [reflexivity | discriminate]. }
      intros _ _. apply ensures_ret; [exact Q_closed | exact Hst1].
    + apply ensures_ret; [exact Q_closed | exact Hst1].
  - apply ensures_ret; [exact Q_closed | exact Hst1].
Qed.

Lemma run_epochs_ensures epochs st :
  I st -> ensures (run_epochs cfg ctx steps orc epochs st) Q I.
Proof.
  revert st. induction epochs as [| epoch rest IH]; intros st Hst.
  - apply ensures_ret; [exact Q_closed | exact Hst].
  - cbn [run_epochs].
    apply (ensures_bind _ _ Q (fun r => I r.2)); [exact Q_closed | |].
    { apply run_epoch_ensures, Hst. }
    intros [[] st1] Hst1; cbn in Hst1.
    + apply IH, Hst1.
    + apply ensures_ret; [exact Q_closed | exact Hst1].
Qed.

Lemma train_ensures st :
  I st -> ensures (train cfg ctx steps orc st) Q I.
Proof.
  intros Hst. unfold train.
  apply (ensures_bind _ _ Q I); [exact Q_closed | |].
  { apply run_epochs_ensures, Hst. }
  intros st1 Hst1. apply (ensures_bind _ _ Q (fun _ => True)); [exact Q_closed | |].
  { apply ensures_trace. apply epoch_emits; [reflexivity | discriminate]. }
  intros _ _. apply (ensures_bind _ _ Q (fun _ => True)); [exact Q_closed | |].
  { apply when_emit_ensures. intros _.
    apply epoch_emits; [reflexivity | discriminate]. }
  intros _ _. apply ensures_ret; [exact Q_closed | exact Hst1].
Qed.
End LoopInvariant.

Lemma Forall_closed_under_app (P : Event -> Prop) : closed_under_app (Forall P).
Proof.
  split; [constructor | intros t1 t2 H1 H2; apply Forall_app; split; assumption].
Qed.

Lemma eval_and_checkpoint_result cfg ctx orc st st' :
  result (eval_and_checkpoint cfg ctx orc st) = Ok st' ->
  st' = st
  \/ (master_process ctx = true
      /\ improved cfg st (evaluate orc (iter_num st)).1
           (evaluate orc (iter_num st)).2 = true
      /\ st' = update_best st (evaluate orc (iter_num st)).1
                 (evaluate orc (iter_num st)).2).
Proof.
  destruct (Z.eqb_spec (eval_interval cfg) 0) as [Hz | Hnz].
  - unfold eval_and_checkpoint, py_mod. rewrite Hz. discriminate.
  - rewrite (eval_and_checkpoint_run _ _ _ _ Hnz). cbn zeta.
    destruct ((iter_num st mod eval_interval cfg =? 0) && master_process ctx)
      eqn:Hcad; cbn [result]; [|intros [= <-]; left; reflexivity].
    apply andb_true_iff in Hcad as [_ Hmaster].
    destruct (improved cfg st _ _) eqn:Himp; intros [= <-];
      [right; repeat split; assumption | left; reflexivity].
Qed.

(** ** Invariants of a whole run *)

(** X8: over a whole run that returns, [iter_num] never decreases, the
    loss tracker never increases and the BLEU tracker never decreases,
    whatever the configuration, the run context and the collaborators. *)
Theorem train_trackers_monotone cfg ctx steps orc st st' :
  result (train cfg ctx steps orc st) = Ok st' ->
  iter_num st <= iter_num st'
  /\ (best_val_loss st' <= best_val_loss st)%Q
  /\ (best_val_bleu st <= best_val_bleu st')%Q.
Proof.
  intros Hres.
  set (Inv := fun s : TrainingState =>
                iter_num st <= iter_num s
                /\ (best_val_loss s <= best_val_loss st)%Q
                /\ (best_val_bleu st <= best_val_bleu s)%Q).
  assert (Hens : ensures (train cfg ctx steps orc st) (fun _ => True) Inv).
  { apply train_ensures; try (intros; exact Logic.I).
    - split; trivial.
    - intros s (Hit & Hloss & Hbleu). split; [exact Logic.I|].
      intros s' Hs'. apply eval_and_checkpoint_result in Hs'.
      destruct Hs' as [-> | (_ & _ & ->)]; [repeat split; assumption|].
      destruct (update_best_monotone s (evaluate orc (iter_num s)).1
                  (evaluate orc (iter_num s)).2) as [Hl Hb].
      unfold Inv. rewrite update_best_iter_num.
      split; [exact Hit|]. split; [eapply Qle_trans; eassumption|].
      eapply Qle_trans; eassumption.
    - intros s (Hit & Hloss & Hbleu). unfold Inv. cbn.
      repeat split; [lia | |]; assumption.
    - unfold Inv. split; [lia|]. split; apply Qle_refl. }
  destruct Hens as [_ Hinv]. exact (Hinv st' Hres).
Qed.

Lemma train_trackers_monotone_witness :
  let st := initial short_config in
  let st' := {| iter_num := 3; best_val_loss := 2; best_val_bleu := 1 # 10 |} in
  result (train short_config single_worker 2 sample_oracle st) = Ok st'
  /\ iter_num st <= iter_num st'
  /\ (best_val_loss st' <= best_val_loss st)%Q
  /\ (best_val_bleu st <= best_val_bleu st')%Q.
Proof.
  intros st st'.
  assert (H : result (train short_config single_worker 2 sample_oracle st)
              = Ok st') by (vm_compute; reflexivity).
  split; [exact H|].
  exact (train_trackers_monotone short_config single_worker 2 sample_oracle
           st st' H).
Defined.

Lemma coordinator_events_absent (t : list Event) :
  Forall (fun e => coordinator_event e = false) t ->
  evaluated t = [] /\ saved t = [] /\ wandb_train_losses t = []
  /\ printed_losses t = [] /\ epochs_started t = [].
Proof.
  induction 1 as [| e t He _ (IH1 & IH2 & IH3 & IH4 & IH5)];
    [repeat split|].
  unfold evaluated, saved, wandb_train_losses, printed_losses, epochs_started
    in *.
  destruct e; try discriminate He; cbn; repeat split; assumption.
Qed.

(** X11: a process that is not the coordinator never evaluates, never
    writes a checkpoint, sends no training loss to the telemetry sink,
    prints no loss line and announces no epoch during a whole run, and its
    trackers end as they started. *)
Theorem participant_leaves_bookkeeping_to_coordinator cfg ctx steps orc st :
  master_process ctx = false ->
  let m := train cfg ctx steps orc st in
  evaluated (trace m) = [] /\ saved (trace m) = []
  /\ wandb_train_losses (trace m) = [] /\ printed_losses (trace m) = []
  /\ epochs_started (trace m) = []
  /\ forall st', result m = Ok st' ->
                 best_val_loss st' = best_val_loss st
                 /\ best_val_bleu st' = best_val_bleu st.
Proof.
  intros Hmaster m.
  set (Inv := fun s : TrainingState =>
                best_val_loss s = best_val_loss st
                /\ best_val_bleu s = best_val_bleu st).
  assert (Hens : ensures m (Forall (fun e => coordinator_event e = false)) Inv).
  { apply train_ensures.
    - apply Forall_closed_under_app.
    - intros s Hs. split.
      + destruct (Z.eqb_spec (eval_interval cfg) 0) as [Hz | Hnz].
        * unfold eval_and_checkpoint, py_mod. rewrite Hz. constructor.
        * rewrite (eval_and_checkpoint_run _ _ _ _ Hnz). cbn zeta.
          rewrite Hmaster, andb_false_r. constructor.
      + intros s' Hs'. apply eval_and_checkpoint_result in Hs'.
        destruct Hs' as [-> | (Hm & _)]; [exact Hs | congruence].
    - intros s Hs. exact Hs.
    - intros batch it. rewrite accumulate_and_step_run. cbn [trace].
      apply Forall_app. split.
      + apply Forall_flat_map, Forall_forall. intros i _.
        unfold micro_step_trace. rewrite Hmaster, andb_false_r.
        destruct (ddp ctx); repeat constructor.
      + destruct (negb (Qeq_bool (grad_clip cfg) 0)); repeat constructor.
    - intros epoch it loss. unfold log_iteration.
      apply Forall_trace_bind; [constructor | intros r].
      rewrite Hmaster, andb_false_r.
      apply Forall_trace_bind; [constructor | intros _].
      apply Forall_trace_bind; [constructor | intros r'].
      apply Forall_trace_when. destruct loss; repeat constructor.
    - intros e He Hlog. constructor; [|constructor].
      destruct e; try discriminate He; try reflexivity.
      rewrite (Hlog _ eq_refl) in Hmaster. discriminate.
    - split; reflexivity. }
  destruct Hens as [Htrace Hres].
  destruct (coordinator_events_absent _ Htrace) as (H1 & H2 & H3 & H4 & H5).
  repeat (split; [assumption|]). exact Hres.
Qed.

Lemma participant_leaves_bookkeeping_to_coordinator_witness :
  let ctx := {| ddp := true; ddp_rank := 1; ddp_local_rank := 1;
                ddp_world_size := 2; master_process := false;
                seed_offset := 1 |} in
  master_process ctx = false
  /\ let m := train short_config ctx 1 sample_oracle (initial short_config) in
     evaluated (trace m) = [] /\ saved (trace m) = []
     /\ wandb_train_losses (trace m) = [] /\ printed_losses (trace m) = []
     /\ epochs_started (trace m) = []
     /\ forall st', result m = Ok st' ->
                    best_val_loss st' = best_val_loss (initial short_config)
                    /\ best_val_bleu st' = best_val_bleu (initial short_config).
Proof.
  intros ctx.
  assert (H : master_process ctx = false) by reflexivity.
  split; [exact H|].
  exact (participant_leaves_bookkeeping_to_coordinator short_config ctx 1
           sample_oracle (initial short_config) H).
Defined.

Lemma evaluated_app (t1 t2 : list Event) :
  evaluated (t1 ++ t2) = evaluated t1 ++ evaluated t2.
Proof. apply omap_app. Qed.

Lemma saved_app (t1 t2 : list Event) : saved (t1 ++ t2) = saved t1 ++ saved t2.
Proof. apply omap_app. Qed.

Lemma epoch_event_not_eval (e : Event) :
  epoch_event e = true -> saved [e] = [] /\ evaluated [e] = [].
Proof. destruct e; try discriminate; intros _; split; reflexivity. Qed.

(** X12: over a whole run every evaluation happens at an iteration that
    is a multiple of [eval_interval], and no more checkpoints are written
    than evaluations are made. *)
Theorem evaluations_on_cadence cfg ctx steps orc st :
  let t := trace (train cfg ctx steps orc st) in
  Forall (fun it => it mod eval_interval cfg = 0) (evaluated t)
  /\ (length (saved t) <= length (evaluated t))%nat.
Proof.
  intros t. subst t.
  set (Q := fun t : list Event =>
              Forall (fun it => it mod eval_interval cfg = 0) (evaluated t)
              /\ (length (saved t) <= length (evaluated t))%nat).
  assert (Hstep : forall t, Forall step_event t -> Q t).
  { intros t Ht. destruct (saved_step_events t Ht) as [Hs He].
    unfold Q. rewrite Hs, He. split; [constructor | reflexivity]. }
  assert (Hens : ensures (train cfg ctx steps orc st) Q (fun _ => True)).
  { apply train_ensures; try (intros; exact Logic.I).
    - split; [split; [constructor | reflexivity]|].
      intros t1 t2 [H1 L1] [H2 L2]. unfold Q.
      rewrite evaluated_app, saved_app, !length_app.
      split; [apply Forall_app; split; assumption | lia].
    - intros s _. split; [|trivial].
      destruct (Z.eqb_spec (eval_interval cfg) 0) as [Hz | Hnz].
      + unfold eval_and_checkpoint, py_mod. rewrite Hz.
        split; [constructor | reflexivity].
      + rewrite (eval_and_checkpoint_run _ _ _ _ Hnz). cbn zeta.
        destruct ((iter_num s mod eval_interval cfg =? 0) && master_process ctx)
          eqn:Hcad; [|split; [constructor | reflexivity]].
        apply andb_true_iff in Hcad as [Hmod _]. apply Z.eqb_eq in Hmod.
        cbn [trace]. unfold Q.
        destruct (wandb_enabled cfg ctx),
          (improved cfg s _ _ && (0 <? iter_num s));
          (split; [repeat constructor; exact Hmod | cbn; lia]).
    - intros batch it. apply Hstep, accumulate_and_step_events.
    - intros epoch it loss. apply Hstep, log_iteration_events.
    - intros e He _. destruct (epoch_event_not_eval e He) as [Hs Hev].
      unfold Q. rewrite Hs, Hev. split; [constructor | reflexivity]. }
  exact (proj1 Hens).
Qed.

Lemma eval_and_checkpoint_not_improved cfg ctx orc st :
  improved cfg st (evaluate orc (iter_num st)).1 (evaluate orc (iter_num st)).2
  = false ->
  saved (trace (eval_and_checkpoint cfg ctx orc st)) = []
  /\ forall st', result (eval_and_checkpoint cfg ctx orc st) = Ok st' ->
                 st' = st.
Proof.
  intros Himp. split.
  - destruct (Z.eqb_spec (eval_interval cfg) 0) as [Hz | Hnz].
    + unfold eval_and_checkpoint, py_mod. rewrite Hz. reflexivity.
    + rewrite (eval_and_checkpoint_run _ _ _ _ Hnz). cbn zeta. rewrite Himp.
      destruct ((iter_num st mod eval_interval cfg =? 0) && master_process ctx);
        [|reflexivity].
      cbn [trace andb]. destruct (wandb_enabled cfg ctx); reflexivity.
  - intros st' Hres. apply eval_and_checkpoint_result in Hres.
    destruct Hres as [-> | (_ & Htrue & _)]; [reflexivity | congruence].
Qed.

(** X20: if no validation result of the run beats the trackers it starts
    with (and [always_save_checkpoint] is off), the whole run writes no
    checkpoint and ends with the trackers unchanged; this is what a resumed
    run does until an evaluation beats the resumed values. *)
Theorem no_improvement_no_checkpoint cfg ctx steps orc st :
  (forall it, improved cfg st (evaluate orc it).1 (evaluate orc it).2 = false) ->
  let m := train cfg ctx steps orc st in
  saved (trace m) = []
  /\ forall st', result m = Ok st' ->
                 best_val_loss st' = best_val_loss st
                 /\ best_val_bleu st' = best_val_bleu st.
Proof.
  intros Hnone m.
  set (Inv := fun s : TrainingState =>
                best_val_loss s = best_val_loss st
                /\ best_val_bleu s = best_val_bleu st).
  assert (Hsame : forall s v1 v2, Inv s -> improved cfg s v1 v2
                                           = improved cfg st v1 v2).
  { intros s v1 v2 [Hl Hb]. unfold improved. rewrite Hl, Hb. reflexivity. }
  assert (Hens : ensures m (fun t => saved t = []) Inv).
  { apply train_ensures.
    - split; [reflexivity|]. intros t1 t2 H1 H2.
      rewrite saved_app, H1, H2. reflexivity.
    - intros s Hs.
      destruct (eval_and_checkpoint_not_improved cfg ctx orc s) as [Hsv Hres].
      { rewrite (Hsame _ _ _ Hs). apply Hnone. }
      split; [exact Hsv|]. intros s' Hs'. rewrite (Hres s' Hs'). exact Hs.
    - intros s Hs. exact Hs.
    - intros batch it. apply saved_step_events, accumulate_and_step_events.
    - intros epoch it loss. apply saved_step_events, log_iteration_events.
    - intros e He _. apply epoch_event_not_eval, He.
    - split; reflexivity. }
  exact Hens.
Qed.

Lemma no_improvement_no_checkpoint_witness :
  let st := {| iter_num := 600; best_val_loss := 1; best_val_bleu := 1 |} in
  (forall it, improved short_config st (evaluate sample_oracle it).1
                (evaluate sample_oracle it).2 = false)
  /\ let m := train short_config single_worker 2 sample_oracle st in
     saved (trace m) = []
     /\ forall st', result m = Ok st' ->
                    best_val_loss st' = best_val_loss st
                    /\ best_val_bleu st' = best_val_bleu st.
Proof.
  intros st.
  assert (H : forall it, improved short_config st (evaluate sample_oracle it).1
                           (evaluate sample_oracle it).2 = false)
    by (intros it; cbn; destruct (it =? 0); reflexivity).
  split; [exact H|].
  exact (no_improvement_no_checkpoint short_config single_worker 2
           sample_oracle st H).
Defined.

(** ** Counting iterations and optimizer steps *)

Lemma optimizer_steps_app (t1 t2 : list Event) :
  optimizer_steps (t1 ++ t2) = (optimizer_steps t1 + optimizer_steps t2)%nat.
Proof. unfold optimizer_steps. rewrite omap_app, length_app. reflexivity. Qed.

Lemma forwards_app (t1 t2 : list Event) :
  forwards (t1 ++ t2) = forwards t1 ++ forwards t2.
Proof. apply omap_app. Qed.

(** Events of the evaluation block and of the epoch loop are neither
    passes through the model nor optimizer steps. *)
Lemma no_training_in (t : list Event) :
  Forall (fun e => eval_event e = true \/ epoch_event e = true) t ->
  forwards t = [] /\ backwards t = [] /\ optimizer_steps t = 0%nat.
Proof.
  induction 1 as [| e t He _ (IH1 & IH2 & IH3)]; [repeat split|].
  unfold forwards, backwards, optimizer_steps in *.
  destruct e; destruct He as [He | He]; try discriminate He; cbn;
    repeat split; assumption.
Qed.

Lemma eval_and_checkpoint_eval_events cfg ctx orc st :
  Forall (fun e => eval_event e = true \/ epoch_event e = true)
    (trace (eval_and_checkpoint cfg ctx orc st)).
Proof.
  destruct (Z.eqb_spec (eval_interval cfg) 0) as [Hz | Hnz].
  - unfold eval_and_checkpoint, py_mod. rewrite Hz. constructor.
  - rewrite (eval_and_checkpoint_run _ _ _ _ Hnz). cbn zeta.
    destruct ((iter_num st mod eval_interval cfg =? 0) && master_process ctx);
      [|constructor].
    cbn [trace].
    destruct (wandb_enabled cfg ctx), (improved cfg st _ _ && (0 <? iter_num st));
      repeat constructor.
Qed.

Lemma py_range_last (steps : Z) :
  1 <= steps -> py_range steps = py_range (steps - 1) ++ [steps - 1].
Proof.
  intros Hsteps.
  replace (steps - 1) with (Z.of_nat (Z.to_nat (steps - 1))) by lia.
  rewrite <- py_range_succ. f_equal. lia.
Qed.

(** One pass of the batch loop that trains: its events and its value. *)
Lemma iteration_run cfg ctx steps orc epoch batch st :
  eval_interval cfg <> 0 -> log_interval cfg <> 0 ->
  sample_interval cfg <> 0 -> 1 <= steps ->
  result (set_lr cfg (iter_num st)) = Ok tt ->
  (iter_num st =? 0) && eval_only cfg = false ->
  exists st1,
    result (eval_and_checkpoint cfg ctx orc st) = Ok st1
    /\ iter_num st1 = iter_num st
    /\ iteration cfg ctx steps orc epoch batch st
       = Run (trace (eval_and_checkpoint cfg ctx orc st)
              ++ trace (accumulate_and_step cfg ctx steps orc batch
                          (iter_num st))
              ++ trace (log_iteration cfg ctx steps epoch (iter_num st)
                          (Some (model_loss orc batch (iter_num st) (steps - 1)
                                 / inject_Z steps)%Q)))
             (Ok (Continue, set_iter_num st1 (iter_num st + 1))).
Proof.
  intros Heval Hlog Hsample Hsteps Hlr Hbreak.
  destruct (eval_and_checkpoint_returns cfg ctx orc st Heval)
    as (st1 & Hok & Hiter).
  exists st1. split; [exact Hok|]. split; [exact Hiter|].
  unfold iteration. rewrite (set_lr_ok _ _ Hlr), bind_run_ok.
  cbn [trace app]. rewrite (bind_ok _ _ _ Hok). cbn [trace result].
  rewrite Hiter, Hbreak.
  assert (Hacc : result (accumulate_and_step cfg ctx steps orc batch
                           (iter_num st))
                 = Ok (Some (model_loss orc batch (iter_num st) (steps - 1)
                             / inject_Z steps)%Q)).
  { rewrite accumulate_and_step_run. cbn [result].
    rewrite (py_range_last _ Hsteps), map_app. cbn [map].
    rewrite last_last. reflexivity. }
  rewrite (bind_ok _ _ _ Hacc). cbn [trace result].
  rewrite (bind_ok _ _ _ (log_iteration_returns cfg ctx steps epoch
                            (iter_num st) _ Hlog Hsample)).
  cbn [trace result]. rewrite app_nil_r. reflexivity.
Qed.

Lemma iteration_one_optimizer_step cfg ctx steps orc epoch batch st :
  eval_interval cfg <> 0 -> log_interval cfg <> 0 ->
  sample_interval cfg <> 0 -> 1 <= steps ->
  result (set_lr cfg (iter_num st)) = Ok tt ->
  (iter_num st =? 0) && eval_only cfg = false ->
  exists st',
    result (iteration cfg ctx steps orc epoch batch st) = Ok (Continue, st')
    /\ iter_num st' = iter_num st + 1
    /\ optimizer_steps (trace (iteration cfg ctx steps orc epoch batch st))
       = 1%nat.
Proof.
  intros Heval Hlog Hsample Hsteps Hlr Hbreak.
  destruct (iteration_run cfg ctx steps orc epoch batch st Heval Hlog Hsample
              Hsteps Hlr Hbreak) as (st1 & Hok & Hiter & ->).
  eexists. split; [reflexivity|]. split; [reflexivity|]. cbn [trace].
  rewrite !optimizer_steps_app.
  destruct (no_training_in _ (eval_and_checkpoint_eval_events cfg ctx orc st))
    as (_ & _ & ->).
  rewrite accumulate_and_step_run. cbn [trace].
  rewrite optimizer_steps_app, optimizer_steps_micro_steps.
  rewrite (log_iteration_run _ _ _ _ _ _ Hlog Hsample).
  destruct (negb (Qeq_bool (grad_clip cfg) 0)),
    ((iter_num st mod log_interval cfg =? 0) && master_process ctx),
    (iter_num st mod sample_interval cfg =? 0); reflexivity.
Qed.

Section Counting.
Variable cfg : Config.
Variable ctx : RunContext.
Variable steps : Z.
Variable orc : Oracle.
Hypothesis eval_interval_nonzero : eval_interval cfg <> 0.
Hypothesis log_interval_nonzero : log_interval cfg <> 0.
Hypothesis sample_interval_nonzero : sample_interval cfg <> 0.
Hypothesis steps_positive : 1 <= steps.
Hypothesis schedule_defined :
  decay_lr cfg = true -> warmup_iters cfg <> lr_decay_iters cfg.
Hypothesis trains : eval_only cfg = false.

Lemma run_batches_counts epoch batches st :
  0 <= iter_num st ->
  exists st',
    result (run_batches cfg ctx steps orc epoch batches st) = Ok st'
    /\ iter_num st' = iter_num st + Z.of_nat (length batches)
    /\ optimizer_steps (trace (run_batches cfg ctx steps orc epoch batches st))
       = length batches.
Proof.
  revert st. induction batches as [| batch rest IH]; intros st Hit.
  - exists st. split; [reflexivity|]. split; [cbn; lia | reflexivity].
  - assert (Hlr : result (set_lr cfg (iter_num st)) = Ok tt)
      by (rewrite (set_lr_returns _ _ Hit schedule_defined); reflexivity).
    assert (Hbreak : (iter_num st =? 0) && eval_only cfg = false)
      by (rewrite trains; apply andb_false_r).
    destruct (iteration_one_optimizer_step cfg ctx steps orc epoch batch st
                eval_interval_nonzero log_interval_nonzero
                sample_interval_nonzero steps_positive Hlr Hbreak)
      as (st1 & Hok & Hiter & Hopt).
    destruct (IH st1 ltac:(lia)) as (st' & Hres & Hcount & Hopts).
    exists st'. cbn [run_batches]. rewrite (bind_ok _ _ _ Hok).
    cbn [trace result]. split; [exact Hres|].
    split; [rewrite Hcount, Hiter; cbn [length]; lia|].
    rewrite optimizer_steps_app, Hopt, Hopts. reflexivity.
Qed.
End Counting.

Lemma batches_in_nonneg orc epochs : 0 <= batches_in orc epochs.
Proof.
  induction epochs as [| e rest IH]; [cbn; lia|].
  change (batches_in orc (e :: rest))
    with (Z.of_nat (length (train_loader orc e)) + batches_in orc rest).
  lia.
Qed.

Lemma run_epochs_single_worker_counts cfg ctx steps orc epochs st :
  ddp ctx = false -> master_process ctx = true ->
  eval_interval cfg <> 0 -> log_interval cfg <> 0 ->
  sample_interval cfg <> 0 -> 1 <= steps ->
  (decay_lr cfg = true -> warmup_iters cfg <> lr_decay_iters cfg) ->
  eval_only cfg = false -> 0 <= iter_num st ->
  exists st',
    result (run_epochs cfg ctx steps orc epochs st) = Ok st'
    /\ iter_num st' = iter_num st + batches_in orc epochs
    /\ Z.of_nat (optimizer_steps (trace (run_epochs cfg ctx steps orc epochs st)))
       = batches_in orc epochs.
Proof.
  intros Hddp Hmaster Heval Hlog Hsample Hsteps Hlr Htrains.
  revert st. induction epochs as [| epoch rest IH]; intros st Hit.
  - exists st. split; [reflexivity|]. split; [cbn; lia | reflexivity].
  - destruct (run_batches_counts cfg ctx steps orc Heval Hlog Hsample Hsteps
                Hlr Htrains epoch (train_loader orc epoch) st Hit)
      as (st1 & Hok & Hiter & Hopt).
    destruct (IH st1 ltac:(lia)) as (st' & Hres & Hcount & Hopts).
    exists st'. cbn [run_epochs].
    rewrite (run_epoch_single_worker _ _ _ _ _ _ _ Hddp Hmaster Hok).
    rewrite bind_run_ok. cbn [trace result batches_in fold_right].
    fold (batches_in orc rest). split; [exact Hres|].
    split; [lia|].
    change (LogEpochStart epoch :: ?t) with ([LogEpochStart epoch] ++ t).
    rewrite !optimizer_steps_app, Hopt.
    change (optimizer_steps [LogEpochStart epoch]) with 0%nat. lia.
Qed.

(** ** The single-worker epoch loop *)

Lemma bind_assoc {A B C : Type} (m : M A) (f : A -> M B) (g : B -> M C) :
  (m ≫= f) ≫= g = m ≫= (fun a => f a ≫= g).
Proof.
  unfold mbind, M_bind. destruct m as [t [a | e]]; cbn [trace result];
    [|reflexivity].
  destruct (f a) as [t' [b | e]]; cbn [trace result]; [|reflexivity].
  rewrite app_assoc. reflexivity.
Qed.

(** Without [ddp] the epoch loop is the plain loop over the epochs: the
    announcement, then the batches; nothing else is consulted between two
    epochs. *)
Lemma run_epochs_single_worker_loop cfg ctx steps orc epochs st :
  ddp ctx = false ->
  run_epochs cfg ctx steps orc epochs st
  = for_each epochs
      (fun epoch s =>
         when (master_process ctx) (emit (LogEpochStart epoch));;
         run_batches cfg ctx steps orc epoch (train_loader orc epoch) s) st.
Proof.
  intros Hddp. revert st. induction epochs as [| epoch rest IH]; intros st;
    [reflexivity|].
  cbn [run_epochs for_each]. unfold run_epoch. rewrite Hddp.
  assert (Hw : result (when (master_process ctx) (emit (LogEpochStart epoch)))
               = Ok tt) by (destruct (master_process ctx); reflexivity).
  cbn [when].
  destruct (when (master_process ctx) (emit (LogEpochStart epoch)))
    as [tw rw]. cbn [result] in Hw. subst rw.
  destruct (run_batches cfg ctx steps orc epoch (train_loader orc epoch) st)
    as [t [st1 | e]]; [|reflexivity].
  unfold mbind at 1 2 3 4 5 6, M_bind at 1 2 3 4 5 6, mret, M_ret.
  cbn [trace result app]. rewrite IH, app_nil_r. reflexivity.
Qed.

Section SingleWorkerCounts.
Variable cfg : Config.
Variable ctx : RunContext.
Variable steps : Z.
Variable orc : Oracle.
Hypothesis single : ddp ctx = false.
Hypothesis master : master_process ctx = true.
Hypothesis eval_interval_nonzero : eval_interval cfg <> 0.
Hypothesis log_interval_nonzero : log_interval cfg <> 0.
Hypothesis sample_interval_nonzero : sample_interval cfg <> 0.
Hypothesis steps_positive : 1 <= steps.
Hypothesis schedule_defined :
  decay_lr cfg = true -> warmup_iters cfg <> lr_decay_iters cfg.

(** The [break] of line 357 is not taken: evaluation-only mode is off, or
    the run starts past iteration 0. *)
Lemma run_batches_advances epoch batches st :
  0 <= iter_num st -> eval_only cfg = false \/ 0 < iter_num st ->
  exists st',
    result (run_batches cfg ctx steps orc epoch batches st) = Ok st'
    /\ iter_num st' = iter_num st + Z.of_nat (length batches)
    /\ optimizer_steps (trace (run_batches cfg ctx steps orc epoch batches st))
       = length batches.
Proof.
  revert st. induction batches as [| batch rest IH]; intros st Hit Htrains.
  - exists st. split; [reflexivity|]. split; [cbn; lia | reflexivity].
  - assert (Hlr : result (set_lr cfg (iter_num st)) = Ok tt)
      by (rewrite (set_lr_returns _ _ Hit schedule_defined); reflexivity).
    assert (Hbreak : (iter_num st =? 0) && eval_only cfg = false).
    { destruct Htrains as [-> | Hpos]; [apply andb_false_r|].
      replace (iter_num st =? 0) with false; [reflexivity|].
      symmetry. apply Z.eqb_neq. lia. }
    destruct (iteration_one_optimizer_step cfg ctx steps orc epoch batch st
                eval_interval_nonzero log_interval_nonzero
                sample_interval_nonzero steps_positive Hlr Hbreak)
      as (st1 & Hok & Hiter & Hopt).
    destruct (IH st1 ltac:(lia) ltac:(right; lia))
      as (st' & Hres & Hcount & Hopts).
    exists st'. cbn [run_batches]. rewrite (bind_ok _ _ _ Hok).
    cbn [trace result]. split; [exact Hres|].
    split; [rewrite Hcount, Hiter; cbn [length]; lia|].
    rewrite optimizer_steps_app, Hopt, Hopts. reflexivity.
Qed.

Lemma run_epochs_advances epochs st :
  0 <= iter_num st -> eval_only cfg = false \/ 0 < iter_num st ->
  exists st',
    result (run_epochs cfg ctx steps orc epochs st) = Ok st'
    /\ iter_num st' = iter_num st + batches_in orc epochs
    /\ Z.of_nat (optimizer_steps (trace (run_epochs cfg ctx steps orc epochs st)))
       = batches_in orc epochs.
Proof.
  revert st. induction epochs as [| epoch rest IH]; intros st Hit Htrains.
  - exists st. split; [reflexivity|]. split; [cbn; lia | reflexivity].
  - destruct (run_batches_advances epoch (train_loader orc epoch) st Hit
                Htrains) as (st1 & Hok & Hiter & Hopt).
    assert (Htrains1 : eval_only cfg = false \/ 0 < iter_num st1)
      by (destruct Htrains as [H | H]; [left; exact H | right; lia]).
    destruct (IH st1 ltac:(lia) Htrains1) as (st' & Hres & Hcount & Hopts).
    exists st'. cbn [run_epochs].
    rewrite (run_epoch_single_worker _ _ _ _ _ _ _ single master Hok).
    rewrite bind_run_ok. cbn [trace result batches_in fold_right].
    fold (batches_in orc rest). split; [exact Hres|].
    split; [lia|].
    change (LogEpochStart epoch :: ?t) with ([LogEpochStart epoch] ++ t).
    rewrite !optimizer_steps_app, Hopt.
    change (optimizer_steps [LogEpochStart epoch]) with 0%nat. lia.
Qed.
End SingleWorkerCounts.

(** C9: a single-worker run whose iterations do not raise (non-zero
    evaluation, logging and sampling intervals, at least one accumulation
    step, a schedule with [warmup_iters <> lr_decay_iters] when decay is
    on) returns after announcing every epoch of [range(num_epochs)],
    whatever [max_iters] is: the trace holds no barrier and no "maximum
    iterations" stop; the run is the plain loop over [range(num_epochs)]
    of the announcement followed by the batches of the epoch, then the
    final report, with no test between two epochs; and when the [break]
    of evaluation-only mode is out of play ([eval_only] off, or a start
    past iteration 0) every batch of every epoch is trained on:
    [iter_num] ends at its initial value plus the number of batches of
    all the epochs, with one [scaler.step(optimizer)] per batch, however
    far beyond [max_iters] that is.  In a distributed run each epoch whose
    batches do not raise ends with the barrier followed by the test
    [iter_num > max_iters], which alone decides whether the epoch loop
    stops. *)
Theorem single_worker_ignores_max_iters cfg ctx steps orc st :
  ddp ctx = false -> master_process ctx = true ->
  eval_interval cfg <> 0 -> log_interval cfg <> 0 ->
  sample_interval cfg <> 0 -> 1 <= steps -> 0 <= iter_num st ->
  (decay_lr cfg = true -> warmup_iters cfg <> lr_decay_iters cfg) ->
  let m := train cfg ctx steps orc st in
  let n := batches_in orc (py_range (num_epochs cfg)) in
  (exists st', result m = Ok st')
  /\ epochs_started (trace m) = py_range (num_epochs cfg)
  /\ ~ In Barrier (trace m)
  /\ ~ In LogMaxIters (trace m)
  /\ m = (st' ← for_each (py_range (num_epochs cfg))
                  (fun epoch s =>
                     emit (LogEpochStart epoch);;
                     run_batches cfg ctx steps orc epoch
                       (train_loader orc epoch) s) st;
          emit (PrintCompleted (iter_num st'));;
          mret st')
  /\ (eval_only cfg = false \/ 0 < iter_num st ->
      (exists st', result m = Ok st' /\ iter_num st' = iter_num st + n)
      /\ Z.of_nat (optimizer_steps (trace m)) = n
      /\ (max_iters cfg < iter_num st + n ->
          exists st', result m = Ok st' /\ max_iters cfg < iter_num st'))
  /\ forall ctx' steps' epoch st0 st1,
       ddp ctx' = true ->
       result (run_batches cfg ctx' steps' orc epoch (train_loader orc epoch) st0)
       = Ok st1 ->
       exists before,
         run_epoch cfg ctx' steps' orc epoch st0
         = Run (before
                ++ Barrier
                :: (if max_iters cfg <? iter_num st1 then [LogMaxIters] else []))
               (Ok (if max_iters cfg <? iter_num st1 then Break else Continue,
                    st1))
         /\ Forall boundary_free before.
Proof.
  intros Hddp Hmaster Heval Hlog Hsample Hsteps Hit Hlr m n.
  destruct (run_epochs_single_worker cfg ctx steps orc Hddp Hmaster Heval Hlog
              Hsample Hsteps Hlr (py_range (num_epochs cfg)) st Hit)
    as (st' & Hres & Hstarted & Hfree).
  assert (Hm : m = Run (trace (run_epochs cfg ctx steps orc
                                 (py_range (num_epochs cfg)) st)
                        ++ [PrintCompleted (iter_num st')]) (Ok st')).
  { subst m. unfold train. rewrite (bind_ok _ _ _ Hres), Hddp. reflexivity. }
  assert (Hloop : m = (st' ← for_each (py_range (num_epochs cfg))
                               (fun epoch s =>
                                  emit (LogEpochStart epoch);;
                                  run_batches cfg ctx steps orc epoch
                                    (train_loader orc epoch) s) st;
                       emit (PrintCompleted (iter_num st'));;
                       mret st')).
  { subst m. unfold train.
    rewrite (run_epochs_single_worker_loop _ _ _ _ _ _ Hddp), Hddp, Hmaster.
    reflexivity. }
  split; [rewrite Hm; exists st'; reflexivity|]. split.
  { rewrite Hm. cbn [trace]. rewrite epochs_started_app, Hstarted.
    apply app_nil_r. }
  assert (Hall : Forall boundary_free (trace m)).
  { rewrite Hm. cbn [trace]. apply Forall_app. split; [exact Hfree|].
    constructor; [split; discriminate | constructor]. }
  rewrite Forall_forall in Hall.
  split; [intros Hin; apply list_elem_of_In, Hall in Hin; destruct Hin as [Hb _];
          apply Hb; reflexivity|].
  split; [intros Hin; apply list_elem_of_In, Hall in Hin; destruct Hin as [_ Hb];
          apply Hb; reflexivity|].
  split; [exact Hloop|].
  split.
  { intros Htrains.
    destruct (run_epochs_advances cfg ctx steps orc Hddp Hmaster Heval Hlog
                Hsample Hsteps Hlr (py_range (num_epochs cfg)) st Hit Htrains)
      as (st2 & Hres2 & Hcount & Hopt).
    rewrite Hres in Hres2. injection Hres2 as <-. fold n in Hcount, Hopt.
    rewrite Hm. cbn [trace result].
    split; [exists st'; split; [reflexivity | exact Hcount]|].
    split.
    - rewrite optimizer_steps_app.
      change (optimizer_steps [PrintCompleted (iter_num st')]) with 0%nat. lia.
    - intros Hmax. exists st'. split; [reflexivity | lia]. }
  intros ctx' steps' epoch st0 st1 Hddp' Hok.
  rewrite (run_epoch_distributed _ _ _ _ _ _ _ Hddp' Hok).
  eexists (SetEpoch epoch
           :: (if master_process ctx' then [LogEpochStart epoch] else [])
           ++ trace (run_batches cfg ctx' steps' orc epoch
                       (train_loader orc epoch) st0)).
  split.
  - cbn [app]. rewrite <- app_assoc. reflexivity.
  - constructor; [split; discriminate|]. apply Forall_app. split.
    + destruct (master_process ctx'); repeat constructor; discriminate.
    + apply no_epoch_event_boundary_free, run_batches_events.
Qed.

Lemma single_worker_ignores_max_iters_witness :
  let cfg := three_epoch_config in
  let ctx := single_worker in
  let orc := sample_oracle in
  let st := initial three_epoch_config in
  ddp ctx = false /\ master_process ctx = true
  /\ eval_interval cfg <> 0 /\ log_interval cfg <> 0
  /\ sample_interval cfg <> 0 /\ 1 <= 2 /\ 0 <= iter_num st
  /\ (decay_lr cfg = true -> warmup_iters cfg <> lr_decay_iters cfg)
  /\ let m := train cfg ctx 2 orc st in
     let n := batches_in orc (py_range (num_epochs cfg)) in
     (exists st', result m = Ok st')
     /\ epochs_started (trace m) = py_range (num_epochs cfg)
     /\ ~ In Barrier (trace m)
     /\ ~ In LogMaxIters (trace m)
     /\ m = (st' ← for_each (py_range (num_epochs cfg))
                     (fun epoch s =>
                        emit (LogEpochStart epoch);;
                        run_batches cfg ctx 2 orc epoch
                          (train_loader orc epoch) s) st;
             emit (PrintCompleted (iter_num st'));;
             mret st')
     /\ (eval_only cfg = false \/ 0 < iter_num st ->
         (exists st', result m = Ok st' /\ iter_num st' = iter_num st + n)
         /\ Z.of_nat (optimizer_steps (trace m)) = n
         /\ (max_iters cfg < iter_num st + n ->
             exists st', result m = Ok st' /\ max_iters cfg < iter_num st'))
     /\ forall ctx' steps' epoch st0 st1,
          ddp ctx' = true ->
          result (run_batches cfg ctx' steps' orc epoch (train_loader orc epoch)
                    st0) = Ok st1 ->
          exists before,
            run_epoch cfg ctx' steps' orc epoch st0
            = Run (before
                   ++ Barrier
                   :: (if max_iters cfg <? iter_num st1 then [LogMaxIters]
                       else []))
                  (Ok (if max_iters cfg <? iter_num st1 then Break
                       else Continue, st1))
            /\ Forall boundary_free before.
Proof.
  intros cfg ctx orc st.
  assert (H1 : ddp ctx = false) by reflexivity.
  assert (H2 : master_process ctx = true) by reflexivity.
  assert (H3 : eval_interval cfg <> 0) by discriminate.
  assert (H4 : log_interval cfg <> 0) by discriminate.
  assert (H5 : sample_interval cfg <> 0) by discriminate.
  assert (H6 : 1 <= 2) by lia.
  assert (H7 : 0 <= iter_num st) by (cbn; lia).
  assert (H8 : decay_lr cfg = true -> warmup_iters cfg <> lr_decay_iters cfg)
    by (intros _; discriminate).
  repeat (split; [assumption|]).
  exact (single_worker_ignores_max_iters cfg ctx 2 orc st H1 H2 H3 H4 H5 H6 H7 H8).
Defined.

(** The sample single-worker run has [max_iters = 1] and one epoch of
    three batches: it ends with [iter_num = 3]; on the coordinator of a
    two-worker run the same epoch ends with the barrier and the stop. *)
Example short_run_passes_max_iters :
  iter_num <$> result_value (train short_config single_worker 2 sample_oracle
                               (initial short_config)) = Some 3
  /\ filter (fun e => epoch_event e = true)
       (trace (train short_config (coordinator 2) 1 sample_oracle
                 (initial short_config)))
     = [SetEpoch 0; LogEpochStart 0; Barrier; LogMaxIters; PrintCompleted 3;
        DestroyProcessGroup].
Proof. split; vm_compute; reflexivity. Qed.

(** With three epochs and [max_iters = 1] the single-worker run trains on
    all nine batches and ends with [iter_num = 9]; the coordinator of a
    two-worker run stops after the first epoch, at [iter_num = 3]. *)
Example three_epoch_run_passes_max_iters :
  let single := train three_epoch_config single_worker 2 sample_oracle
                  (initial three_epoch_config) in
  let distributed := train three_epoch_config (coordinator 2) 1 sample_oracle
                       (initial three_epoch_config) in
  iter_num <$> result_value single = Some 9
  /\ optimizer_steps (trace single) = 9%nat
  /\ epochs_started (trace single) = [0; 1; 2]
  /\ iter_num <$> result_value distributed = Some 3
  /\ optimizer_steps (trace distributed) = 3%nat
  /\ epochs_started (trace distributed) = [0].
Proof. repeat split; vm_compute; reflexivity. Qed.

(** X9: in a single-worker run that trains ([eval_only] off) and whose
    iterations do not raise, [iter_num] advances by exactly the number of
    batches the loader yields over all epochs, and exactly one
    [scaler.step(optimizer)] is made per batch. *)
Theorem single_worker_counts_batches cfg ctx steps orc st :
  ddp ctx = false -> master_process ctx = true ->
  eval_interval cfg <> 0 -> log_interval cfg <> 0 ->
  sample_interval cfg <> 0 -> 1 <= steps ->
  (decay_lr cfg = true -> warmup_iters cfg <> lr_decay_iters cfg) ->
  eval_only cfg = false -> 0 <= iter_num st ->
  let m := train cfg ctx steps orc st in
  let n := batches_in orc (py_range (num_epochs cfg)) in
  (exists st', result m = Ok st' /\ iter_num st' = iter_num st + n)
  /\ Z.of_nat (optimizer_steps (trace m)) = n.
Proof.
  intros Hddp Hmaster Heval Hlog Hsample Hsteps Hlr Htrains Hit m n.
  destruct (run_epochs_single_worker_counts cfg ctx steps orc
              (py_range (num_epochs cfg)) st Hddp Hmaster Heval Hlog Hsample
              Hsteps Hlr Htrains Hit) as (st' & Hres & Hcount & Hopt).
  subst m. unfold train. rewrite (bind_ok _ _ _ Hres), Hddp.
  cbn [trace result when emit mret M_ret mbind M_bind app].
  split; [exists st'; split; [reflexivity | exact Hcount]|].
  rewrite optimizer_steps_app.
  change (optimizer_steps [PrintCompleted (iter_num st')]) with 0%nat.
  fold n in Hopt. lia.
Qed.

Lemma single_worker_counts_batches_witness :
  let cfg := short_config in
  let ctx := single_worker in
  let orc := sample_oracle in
  let st := initial short_config in
  ddp ctx = false /\ master_process ctx = true
  /\ eval_interval cfg <> 0 /\ log_interval cfg <> 0
  /\ sample_interval cfg <> 0 /\ 1 <= 2
  /\ (decay_lr cfg = true -> warmup_iters cfg <> lr_decay_iters cfg)
  /\ eval_only cfg = false /\ 0 <= iter_num st
  /\ let m := train cfg ctx 2 orc st in
     let n := batches_in orc (py_range (num_epochs cfg)) in
     (exists st', result m = Ok st' /\ iter_num st' = iter_num st + n)
     /\ Z.of_nat (optimizer_steps (trace m)) = n.
Proof.
  intros cfg ctx orc st.
  assert (H1 : ddp ctx = false) by reflexivity.
  assert (H2 : master_process ctx = true) by reflexivity.
  assert (H3 : eval_interval cfg <> 0) by discriminate.
  assert (H4 : log_interval cfg <> 0) by discriminate.
  assert (H5 : sample_interval cfg <> 0) by discriminate.
  assert (H6 : 1 <= 2) by lia.
  assert (H7 : decay_lr cfg = true -> warmup_iters cfg <> lr_decay_iters cfg)
    by (intros _; discriminate).
  assert (H8 : eval_only cfg = false) by reflexivity.
  assert (H9 : 0 <= iter_num st) by (cbn; lia).
  repeat (split; [assumption|]).
  exact (single_worker_counts_batches cfg ctx 2 orc st H1 H2 H3 H4 H5 H6 H7
           H8 H9).
Defined.

(** ** Evaluation-only runs *)

Lemma iteration_eval_only cfg ctx steps orc epoch batch st :
  eval_interval cfg <> 0 -> eval_only cfg = true -> iter_num st = 0 ->
  result (set_lr cfg 0) = Ok tt ->
  exists st1,
    iter_num st1 = 0
    /\ iteration cfg ctx steps orc epoch batch st
       = Run (trace (eval_and_checkpoint cfg ctx orc st)) (Ok (Break, st1)).
Proof.
  intros Heval Honly Hit Hlr.
  destruct (eval_and_checkpoint_returns cfg ctx orc st Heval)
    as (st1 & Hok & Hiter).
  exists st1. split; [lia|]. unfold iteration.
  rewrite Hit, (set_lr_ok _ _ Hlr), bind_run_ok. cbn [trace app].
  rewrite (bind_ok _ _ _ Hok). rewrite Hiter, Hit, Honly.
  cbn [Z.eqb andb trace result mret M_ret]. rewrite app_nil_r. reflexivity.
Qed.

Lemma run_epochs_eval_only cfg ctx steps orc epochs st :
  ddp ctx = false -> master_process ctx = true ->
  eval_interval cfg <> 0 -> eval_only cfg = true ->
  result (set_lr cfg 0) = Ok tt ->
  (forall epoch, train_loader orc epoch <> []) ->
  iter_num st = 0 ->
  exists st',
    result (run_epochs cfg ctx steps orc epochs st) = Ok st'
    /\ iter_num st' = 0
    /\ evaluated (trace (run_epochs cfg ctx steps orc epochs st))
       = map (fun _ => 0) epochs
    /\ Forall (fun e => eval_event e = true \/ epoch_event e = true)
         (trace (run_epochs cfg ctx steps orc epochs st)).
Proof.
  intros Hddp Hmaster Heval Honly Hlr Hloader.
  revert st. induction epochs as [| epoch rest IH]; intros st Hit.
  - exists st. repeat split; [exact Hit | constructor].
  - destruct (train_loader orc epoch) as [| batch batches] eqn:Hbatches;
      [exfalso; exact (Hloader epoch Hbatches)|].
    destruct (iteration_eval_only cfg ctx steps orc epoch batch st Heval Honly
                Hit Hlr) as (st1 & Hit1 & Hiteration).
    assert (Hbatch : run_batches cfg ctx steps orc epoch
                       (train_loader orc epoch) st
                     = Run (trace (eval_and_checkpoint cfg ctx orc st))
                           (Ok st1)).
    { rewrite Hbatches. cbn [run_batches]. rewrite Hiteration, bind_run_ok.
      cbn [trace result mret M_ret]. rewrite app_nil_r. reflexivity. }
    destruct (IH st1 Hit1) as (st' & Hres & Hit' & Hev & Hall).
    exists st'. cbn [run_epochs].
    rewrite (run_epoch_single_worker _ _ _ _ _ _ st1 Hddp Hmaster)
      by (rewrite Hbatch; reflexivity).
    rewrite bind_run_ok, Hbatch. cbn [trace result].
    split; [exact Hres|]. split; [exact Hit'|]. split.
    + change (LogEpochStart epoch :: ?t) with ([LogEpochStart epoch] ++ t).
      rewrite !evaluated_app, Hev.
      destruct (iteration_0_updates_without_saving cfg ctx orc st Heval
                  Hmaster Hit) as (Hzero & _).
      rewrite Hzero. reflexivity.
    + constructor; [right; reflexivity|]. apply Forall_app.
      split; [apply eval_and_checkpoint_eval_events | exact Hall].
Qed.

(** X10: with [eval_only] set, a single-worker run that starts at
    [iter_num = 0] does not stop after its first evaluation: the [break] of
    line 357 leaves the batch loop only, so every epoch (with a non-empty
    loader) evaluates once more at iteration 0; no forward or backward pass
    and no optimizer step is ever made, and [iter_num] is still 0 at the
    end. *)
Theorem eval_only_evaluates_every_epoch cfg ctx steps orc st :
  ddp ctx = false -> master_process ctx = true ->
  eval_interval cfg <> 0 -> eval_only cfg = true ->
  result (set_lr cfg 0) = Ok tt ->
  (forall epoch, train_loader orc epoch <> []) ->
  iter_num st = 0 ->
  let m := train cfg ctx steps orc st in
  (exists st', result m = Ok st' /\ iter_num st' = 0)
  /\ evaluated (trace m) = map (fun _ => 0) (py_range (num_epochs cfg))
  /\ forwards (trace m) = []
  /\ backwards (trace m) = []
  /\ optimizer_steps (trace m) = 0%nat.
Proof.
  intros Hddp Hmaster Heval Honly Hlr Hloader Hit m.
  destruct (run_epochs_eval_only cfg ctx steps orc (py_range (num_epochs cfg))
              st Hddp Hmaster Heval Honly Hlr Hloader Hit)
    as (st' & Hres & Hit' & Hev & Hall).
  assert (Hm : m = Run (trace (run_epochs cfg ctx steps orc
                                 (py_range (num_epochs cfg)) st)
                        ++ [PrintCompleted (iter_num st')]) (Ok st')).
  { subst m. unfold train. rewrite (bind_ok _ _ _ Hres), Hddp. reflexivity. }
  rewrite Hm. cbn [trace result].
  split; [exists st'; split; [reflexivity | exact Hit']|].
  split; [rewrite evaluated_app, Hev; apply app_nil_r|].
  apply no_training_in, Forall_app. split; [exact Hall|].
  constructor; [right; reflexivity | constructor].
Qed.

Lemma eval_only_evaluates_every_epoch_witness :
  let cfg := {|
    sample_interval := 100; eval_interval := 600; log_interval := 50;
    eval_iters := 355; eval_only := true; always_save_checkpoint := false;
    init_from := "scratch"; wandb_log := true;
    gradient_accumulation_steps := 8; batch_size := 8; block_size := 300;
    n_layer := 12; n_head := 8; n_embd := 512; dropout := 0; bias := false;
    learning_rate := 6 # 10000; max_iters := 120000; grad_clip := 1;
    decay_lr := true; warmup_iters := 2000; lr_decay_iters := 45000;
    min_lr := 6 # 100000;
    initial := {| iter_num := 0; best_val_loss := 1000000000;
                  best_val_bleu := 0 |};
    num_epochs := 100; max_n := 4 |} in
  let ctx := single_worker in
  let orc := sample_oracle in
  let st := initial cfg in
  ddp ctx = false /\ master_process ctx = true
  /\ eval_interval cfg <> 0 /\ eval_only cfg = true
  /\ result (set_lr cfg 0) = Ok tt
  /\ (forall epoch, train_loader orc epoch <> [])
  /\ iter_num st = 0
  /\ let m := train cfg ctx 8 orc st in
     (exists st', result m = Ok st' /\ iter_num st' = 0)
     /\ evaluated (trace m) = map (fun _ => 0) (py_range (num_epochs cfg))
     /\ forwards (trace m) = []
     /\ backwards (trace m) = []
     /\ optimizer_steps (trace m) = 0%nat.
Proof.
  intros cfg ctx orc st.
  assert (H1 : ddp ctx = false) by reflexivity.
  assert (H2 : master_process ctx = true) by reflexivity.
  assert (H3 : eval_interval cfg <> 0) by discriminate.
  assert (H4 : eval_only cfg = true) by reflexivity.
  assert (H5 : result (set_lr cfg 0) = Ok tt) by reflexivity.
  assert (H6 : forall epoch, train_loader orc epoch <> [])
    by (intros epoch; discriminate).
  assert (H7 : iter_num st = 0) by reflexivity.
  repeat (split; [assumption|]).
  exact (eval_only_evaluates_every_epoch cfg ctx 8 orc st H1 H2 H3 H4 H5 H6 H7).
Defined.

(** ** Exceptions raised inside the loop *)

(** X17: with decay on and [warmup_iters = lr_decay_iters], the pass at
    that iteration raises [ZeroDivisionError] from [get_lr] before
    anything else happens: no evaluation, no training, no log. *)
Theorem iteration_raises_at_degenerate_schedule cfg ctx steps orc epoch batch
    st :
  decay_lr cfg = true ->
  iter_num st = warmup_iters cfg ->
  lr_decay_iters cfg = warmup_iters cfg ->
  get_lr cfg (iter_num st) = Raise ZeroDivisionError
  /\ iteration cfg ctx steps orc epoch batch st
     = Run [] (Raise ZeroDivisionError).
Proof.
  intros Hdecay Hit Heq.
  assert (Hraises : get_lr_raises cfg (iter_num st) = Some ZeroDivisionError).
  { unfold get_lr_raises. rewrite Hit, Heq, Z.ltb_irrefl, Z.sub_diag.
    reflexivity. }
  split; [apply get_lr_raises_spec, Hraises|].
  unfold iteration, set_lr. rewrite Hdecay, Hraises. reflexivity.
Qed.

Lemma iteration_raises_at_degenerate_schedule_witness :
  let cfg := {|
    sample_interval := 100; eval_interval := 600; log_interval := 50;
    eval_iters := 355; eval_only := false; always_save_checkpoint := false;
    init_from := "scratch"; wandb_log := true;
    gradient_accumulation_steps := 8; batch_size := 8; block_size := 300;
    n_layer := 12; n_head := 8; n_embd := 512; dropout := 0; bias := false;
    learning_rate := 6 # 10000; max_iters := 120000; grad_clip := 1;
    decay_lr := true; warmup_iters := 2000; lr_decay_iters := 2000;
    min_lr := 6 # 100000;
    initial := {| iter_num := 0; best_val_loss := 1000000000;
                  best_val_bleu := 0 |};
    num_epochs := 100; max_n := 4 |} in
  let st := {| iter_num := 2000; best_val_loss := 2; best_val_bleu := 0 |} in
  decay_lr cfg = true /\ iter_num st = warmup_iters cfg
  /\ lr_decay_iters cfg = warmup_iters cfg
  /\ get_lr cfg (iter_num st) = Raise ZeroDivisionError
  /\ iteration cfg single_worker 8 sample_oracle 3 0%nat st
     = Run [] (Raise ZeroDivisionError).
Proof.
  intros cfg st.
  assert (H1 : decay_lr cfg = true) by reflexivity.
  assert (H2 : iter_num st = warmup_iters cfg) by reflexivity.
  assert (H3 : lr_decay_iters cfg = warmup_iters cfg) by reflexivity.
  repeat (split; [assumption|]).
  exact (iteration_raises_at_degenerate_schedule cfg single_worker 8
           sample_oracle 3 0%nat st H1 H2 H3).
Defined.

(** X15: with no accumulation step ([gradient_accumulation_steps <= 0]
    after start-up) a pass that reaches the console log on the coordinator
    makes no forward or backward pass, still calls
    [scaler.step(optimizer)] once, and then raises [NameError]: [loss] was
    never bound. *)
Theorem iteration_without_micro_steps cfg ctx steps orc epoch batch st :
  steps <= 0 ->
  eval_interval cfg <> 0 -> log_interval cfg <> 0 ->
  result (set_lr cfg (iter_num st)) = Ok tt ->
  (iter_num st =? 0) && eval_only cfg = false ->
  master_process ctx = true ->
  iter_num st mod log_interval cfg = 0 ->
  let m := iteration cfg ctx steps orc epoch batch st in
  result m = Raise (NameError "loss")
  /\ forwards (trace m) = []
  /\ backwards (trace m) = []
  /\ optimizer_steps (trace m) = 1%nat.
Proof.
  intros Hsteps Heval Hlog Hlr Hbreak Hmaster Hmod m. subst m.
  destruct (eval_and_checkpoint_returns cfg ctx orc st Heval)
    as (st1 & Hok & Hiter).
  assert (Hrange : py_range steps = []).
  { unfold py_range. replace (Z.to_nat steps) with 0%nat by lia. reflexivity. }
  assert (Hacc : accumulate_and_step cfg ctx steps orc batch (iter_num st)
                 = Run ((if negb (Qeq_bool (grad_clip cfg) 0) then
                           [ClipGradNorm] else [])
                        ++ [ScalerStep; ScalerUpdate; ZeroGrad]) (Ok None)).
  { rewrite accumulate_and_step_run, Hrange. reflexivity. }
  assert (Hlogs : log_iteration cfg ctx steps epoch (iter_num st) None
                  = Run [] (Raise (NameError "loss"))).
  { unfold log_iteration. rewrite (py_mod_nonzero _ _ Hlog), Hmod, Hmaster.
    reflexivity. }
  unfold iteration. rewrite (set_lr_ok _ _ Hlr), bind_run_ok.
  cbn [trace app]. rewrite (bind_ok _ _ _ Hok). cbn [trace result].
  rewrite Hiter, Hbreak, Hacc, bind_run_ok, Hlogs.
  cbn [trace result mbind M_bind]. rewrite app_nil_r.
  destruct (no_training_in _ (eval_and_checkpoint_eval_events cfg ctx orc st))
    as (Hf & Hb & Ho).
  split; [reflexivity|].
  unfold forwards, backwards in *. rewrite !omap_app, Hf, Hb.
  rewrite optimizer_steps_app, Ho.
  destruct (negb (Qeq_bool (grad_clip cfg) 0)); repeat split.
Qed.

Lemma iteration_without_micro_steps_witness :
  let cfg := default_config in
  let st := initial default_config in
  0 <= 0
  /\ eval_interval cfg <> 0 /\ log_interval cfg <> 0
  /\ result (set_lr cfg (iter_num st)) = Ok tt
  /\ (iter_num st =? 0) && eval_only cfg = false
  /\ master_process single_worker = true
  /\ iter_num st mod log_interval cfg = 0
  /\ let m := iteration cfg single_worker 0 sample_oracle 0 0%nat st in
     result m = Raise (NameError "loss")
     /\ forwards (trace m) = []
     /\ backwards (trace m) = []
     /\ optimizer_steps (trace m) = 1%nat.
Proof.
  intros cfg st.
  assert (H1 : 0 <= 0) by lia.
  assert (H2 : eval_interval cfg <> 0) by discriminate.
  assert (H3 : log_interval cfg <> 0) by discriminate.
  assert (H4 : result (set_lr cfg (iter_num st)) = Ok tt) by reflexivity.
  assert (H5 : (iter_num st =? 0) && eval_only cfg = false) by reflexivity.
  assert (H6 : master_process single_worker = true) by reflexivity.
  assert (H7 : iter_num st mod log_interval cfg = 0) by reflexivity.
  repeat (split; [assumption|]).
  exact (iteration_without_micro_steps cfg single_worker 0 sample_oracle 0
           0%nat st H1 H2 H3 H4 H5 H6 H7).
Defined.

(** X18: a zero [log_interval] is only found out at the end of the first
    training pass: the evaluation block, all micro-steps and the optimizer
    step have been carried out when [iter_num % log_interval] raises
    [ZeroDivisionError]. *)
Theorem zero_log_interval_raises_after_step cfg ctx steps orc epoch batch st :
  log_interval cfg = 0 ->
  eval_interval cfg <> 0 ->
  result (set_lr cfg (iter_num st)) = Ok tt ->
  (iter_num st =? 0) && eval_only cfg = false ->
  let m := iteration cfg ctx steps orc epoch batch st in
  result m = Raise ZeroDivisionError
  /\ evaluated (trace m) = evaluated (trace (eval_and_checkpoint cfg ctx orc st))
  /\ forwards (trace m) = replicate (Z.to_nat steps) batch
  /\ optimizer_steps (trace m) = 1%nat.
Proof.
  intros Hlog Heval Hlr Hbreak m. subst m.
  destruct (eval_and_checkpoint_returns cfg ctx orc st Heval)
    as (st1 & Hok & Hiter).
  assert (Hlogs : forall loss,
             log_iteration cfg ctx steps epoch (iter_num st) loss
             = Run [] (Raise ZeroDivisionError)).
  { intros loss. unfold log_iteration, py_mod. rewrite Hlog. reflexivity. }
  unfold iteration. rewrite (set_lr_ok _ _ Hlr), bind_run_ok.
  cbn [trace app]. rewrite (bind_ok _ _ _ Hok). cbn [trace result].
  rewrite Hiter, Hbreak, accumulate_and_step_run, bind_run_ok, Hlogs.
  cbn [trace result mbind M_bind]. rewrite app_nil_r.
  destruct (no_training_in _ (eval_and_checkpoint_eval_events cfg ctx orc st))
    as (Hf & Hb & Ho).
  split; [reflexivity|]. split; [|split].
  - rewrite evaluated_app, <- app_nil_r. f_equal.
    apply saved_step_events.
    pose proof (accumulate_and_step_events cfg ctx steps orc batch
                  (iter_num st)) as Hev.
    rewrite accumulate_and_step_run in Hev. exact Hev.
  - rewrite forwards_app, Hf, forwards_app, forwards_micro_steps.
    rewrite map_const_replicate, py_range_length. cbn [app].
    destruct (negb (Qeq_bool (grad_clip cfg) 0)); cbn; apply app_nil_r.
  - rewrite !optimizer_steps_app, Ho, optimizer_steps_micro_steps.
    destruct (negb (Qeq_bool (grad_clip cfg) 0)); reflexivity.
Qed.

Lemma zero_log_interval_raises_after_step_witness :
  let cfg := {|
    sample_interval := 100; eval_interval := 600; log_interval := 0;
    eval_iters := 355; eval_only := false; always_save_checkpoint := false;
    init_from := "scratch"; wandb_log := true;
    gradient_accumulation_steps := 8; batch_size := 8; block_size := 300;
    n_layer := 12; n_head := 8; n_embd := 512; dropout := 0; bias := false;
    learning_rate := 6 # 10000; max_iters := 120000; grad_clip := 1;
    decay_lr := true; warmup_iters := 2000; lr_decay_iters := 45000;
    min_lr := 6 # 100000;
    initial := {| iter_num := 0; best_val_loss := 1000000000;
                  best_val_bleu := 0 |};
    num_epochs := 100; max_n := 4 |} in
  let st := initial cfg in
  log_interval cfg = 0 /\ eval_interval cfg <> 0
  /\ result (set_lr cfg (iter_num st)) = Ok tt
  /\ (iter_num st =? 0) && eval_only cfg = false
  /\ let m := iteration cfg single_worker 8 sample_oracle 0 0%nat st in
     result m = Raise ZeroDivisionError
     /\ evaluated (trace m)
        = evaluated (trace (eval_and_checkpoint cfg single_worker
                              sample_oracle st))
     /\ forwards (trace m) = replicate (Z.to_nat 8) 0%nat
     /\ optimizer_steps (trace m) = 1%nat.
Proof.
  intros cfg st.
  assert (H1 : log_interval cfg = 0) by reflexivity.
  assert (H2 : eval_interval cfg <> 0) by discriminate.
  assert (H4 : result (set_lr cfg (iter_num st)) = Ok tt) by reflexivity.
  assert (H5 : (iter_num st =? 0) && eval_only cfg = false) by reflexivity.
  repeat (split; [assumption|]).
  exact (zero_log_interval_raises_after_step cfg single_worker 8 sample_oracle
           0 0%nat st H1 H2 H4 H5).
Defined.

(** ** What is logged *)

Lemma iteration_logged_losses_witness :
  let cfg := default_config in
  let ctx := coordinator 2 in
  let orc := sample_oracle in
  let st := initial default_config in
  eval_interval cfg <> 0 /\ log_interval cfg <> 0
  /\ sample_interval cfg <> 0 /\ 1 <= 4
  /\ result (set_lr cfg (iter_num st)) = Ok tt
  /\ (iter_num st =? 0) && eval_only cfg = false
  /\ let it := iter_num st in
     let t := trace (iteration cfg ctx 4 orc 0 0%nat st) in
     wandb_train_losses t
     = (if wandb_enabled cfg ctx && master_process ctx then
          map (fun i => if ddp ctx then
                          all_reduce_avg (model_loss orc 0%nat it i)
                            (peer_losses orc it i)
                        else model_loss orc 0%nat it i) (py_range 4)
        else [])
     /\ printed_losses t
        = (if (it mod log_interval cfg =? 0) && master_process ctx then
             [(model_loss orc 0%nat it (4 - 1) / inject_Z 4 * inject_Z 4)%Q]
           else []).
Proof.
  intros cfg ctx orc st.
  assert (H1 : eval_interval cfg <> 0) by discriminate.
  assert (H2 : log_interval cfg <> 0) by discriminate.
  assert (H3 : sample_interval cfg <> 0) by discriminate.
  assert (H4 : 1 <= 4) by lia.
  assert (H5 : result (set_lr cfg (iter_num st)) = Ok tt) by reflexivity.
  assert (H6 : (iter_num st =? 0) && eval_only cfg = false) by reflexivity.
  repeat (split; [assumption|]).
  exact (iteration_logged_losses cfg ctx 4 orc 0 0%nat st H1 H2 H3 H4 H5 H6).
Defined.

(** ** The stop on [max_iters] *)

Lemma py_range_first (n : Z) :
  1 <= n -> exists rest, py_range n = 0 :: rest.
Proof.
  intros Hn. unfold py_range.
  destruct (Z.to_nat n) as [| k] eqn:Hk; [lia|].
  eexists. reflexivity.
Qed.

Lemma barriers_app (t1 t2 : list Event) :
  barriers (t1 ++ t2) = (barriers t1 + barriers t2)%nat.
Proof. unfold barriers. rewrite omap_app, length_app. reflexivity. Qed.

Lemma barriers_no_epoch_event (t : list Event) :
  Forall (fun e => epoch_event e = false) t -> barriers t = 0%nat.
Proof.
  induction 1 as [| e t He _ IH]; [reflexivity|].
  unfold barriers in *. destruct e; try discriminate He; cbn; exact IH.
Qed.

(** X16: the comparison with [max_iters] is made only after an epoch.  A
    distributed run that starts with [iter_num] already above [max_iters]
    (and at least one epoch configured) still trains the whole first
    epoch, one optimizer step per batch, and stops at its barrier. *)
Theorem distributed_run_above_max_iters_trains_an_epoch cfg ctx steps orc st :
  ddp ctx = true -> 1 <= num_epochs cfg -> max_iters cfg < iter_num st ->
  eval_interval cfg <> 0 -> log_interval cfg <> 0 ->
  sample_interval cfg <> 0 -> 1 <= steps ->
  (decay_lr cfg = true -> warmup_iters cfg <> lr_decay_iters cfg) ->
  eval_only cfg = false -> 0 <= iter_num st ->
  let m := train cfg ctx steps orc st in
  (exists st', result m = Ok st'
               /\ iter_num st'
                  = iter_num st + Z.of_nat (length (train_loader orc 0)))
  /\ optimizer_steps (trace m) = length (train_loader orc 0)
  /\ barriers (trace m) = 1%nat
  /\ In LogMaxIters (trace m).
Proof.
  intros Hddp Hepochs Hmax Heval Hlog Hsample Hsteps Hlr Htrains Hit m.
  destruct (run_batches_counts cfg ctx steps orc Heval Hlog Hsample Hsteps Hlr
              Htrains 0 (train_loader orc 0) st Hit)
    as (st1 & Hok & Hcount & Hopt).
  destruct (py_range_first _ Hepochs) as [rest Hrange].
  pose proof (run_epoch_distributed cfg ctx steps orc 0 st st1 Hddp Hok)
    as Hepoch.
  assert (Hstop : (max_iters cfg <? iter_num st1) = true)
    by (apply Z.ltb_lt; lia).
  rewrite Hstop in Hepoch.
  pose proof (run_batches_events cfg ctx steps orc 0 (train_loader orc 0) st)
    as Hev.
  set (batches := trace (run_batches cfg ctx steps orc 0 (train_loader orc 0)
                           st)) in *.
  assert (Hm : m = Run ((SetEpoch 0
                         :: (if master_process ctx then [LogEpochStart 0]
                             else [])
                         ++ batches ++ [Barrier; LogMaxIters])
                        ++ [PrintCompleted (iter_num st1); DestroyProcessGroup])
                       (Ok st1)).
  { subst m. unfold train. rewrite Hrange. cbn [run_epochs].
    rewrite Hepoch, !bind_run_ok, Hddp.
    cbn [trace result when emit mret M_ret mbind M_bind app].
    rewrite !app_nil_r. reflexivity. }
  rewrite Hm. cbn [trace result].
  split; [exists st1; split; [reflexivity | exact Hcount]|].
  change (SetEpoch 0 :: ?t) with ([SetEpoch 0] ++ t).
  split; [|split].
  - rewrite !optimizer_steps_app, Hopt.
    destruct (master_process ctx); cbn; lia.
  - rewrite !barriers_app, (barriers_no_epoch_event _ Hev).
    destruct (master_process ctx); reflexivity.
  - apply in_or_app. left. apply in_or_app. right.
    apply in_or_app. right. apply in_or_app. right.
    right. left. reflexivity.
Qed.

Lemma distributed_run_above_max_iters_trains_an_epoch_witness :
  let cfg := short_config in
  let ctx := coordinator 2 in
  let orc := sample_oracle in
  let st := {| iter_num := 5; best_val_loss := 2; best_val_bleu := 0 |} in
  ddp ctx = true /\ 1 <= num_epochs cfg /\ max_iters cfg < iter_num st
  /\ eval_interval cfg <> 0 /\ log_interval cfg <> 0
  /\ sample_interval cfg <> 0 /\ 1 <= 1
  /\ (decay_lr cfg = true -> warmup_iters cfg <> lr_decay_iters cfg)
  /\ eval_only cfg = false /\ 0 <= iter_num st
  /\ let m := train cfg ctx 1 orc st in
     (exists st', result m = Ok st'
                  /\ iter_num st'
                     = iter_num st + Z.of_nat (length (train_loader orc 0)))
     /\ optimizer_steps (trace m) = length (train_loader orc 0)
     /\ barriers (trace m) = 1%nat
     /\ In LogMaxIters (trace m).
Proof.
  intros cfg ctx orc st.
  assert (H1 : ddp ctx = true) by reflexivity.
  assert (H2 : 1 <= num_epochs cfg) by (cbn; lia).
  assert (H3 : max_iters cfg < iter_num st) by (cbn; lia).
  assert (H4 : eval_interval cfg <> 0) by discriminate.
  assert (H5 : log_interval cfg <> 0) by discriminate.
  assert (H6 : sample_interval cfg <> 0) by discriminate.
  assert (H7 : 1 <= 1) by lia.
  assert (H8 : decay_lr cfg = true -> warmup_iters cfg <> lr_decay_iters cfg)
    by (intros _; discriminate).
  assert (H9 : eval_only cfg = false) by reflexivity.
  assert (H10 : 0 <= iter_num st) by (cbn; lia).
  repeat (split; [assumption|]).
  exact (distributed_run_above_max_iters_trains_an_epoch cfg ctx 1 orc st
           H1 H2 H3 H4 H5 H6 H7 H8 H9 H10).
Defined.

(** ** The text log *)

Lemma string_append_assoc (a b c : string) :
  String.append (String.append a b) c = String.append a (String.append b c).
Proof.
  induction a as [| x a IH]; [reflexivity|].
  change (String x (String.append (String.append a b) c)
          = String x (String.append a (String.append b c))).
  f_equal. exact IH.
Qed.

Lemma string_append_empty (a : string) : String.append a "" = a.
Proof.
  induction a as [| x a IH]; [reflexivity|].
  change (String x (String.append a "") = String x a). f_equal. exact IH.
Qed.

Lemma string_prefix_append (a b : string) :
  String.prefix a (String.append a b) = true.
Proof.
  induction a as [| x a IH]; [destruct b; reflexivity|].
  change (String.prefix (String x a) (String x (String.append a b)) = true).
  cbn [String.prefix]. destruct (Ascii.ascii_dec x x); [exact IH | contradiction].
Qed.

(** X19: [log_info] only ever appends.  After any sequence of calls the
    log file is the earlier file followed by one time-stamped,
    newline-terminated line per call, in call order, so the earlier
    content is a prefix of the new one; the console receives exactly the
    lines of the calls made with [also_print], in order. *)
Theorem log_info_appends (calls : list LogCall) (s : LogState) :
  log_file (log_all calls s)
  = String.append (log_file s)
      (fold_right String.append ""%string
         (map (fun c => String.append (log_message_of c) newline) calls))
  /\ String.prefix (log_file s) (log_file (log_all calls s)) = true
  /\ stdout (log_all calls s)
     = stdout s ++ map log_message_of (List.filter (fun c => c.2) calls).
Proof.
  assert (Hfile : forall calls s,
             log_file (log_all calls s)
             = String.append (log_file s)
                 (fold_right String.append ""%string
                    (map (fun c => String.append (log_message_of c) newline)
                       calls))).
  { clear. intros calls. induction calls as [| [[ts msg] p] calls IH]; intros s.
    - cbn. rewrite string_append_empty. reflexivity.
    - unfold log_all in *. cbn [fold_left map fold_right]. rewrite IH.
      cbn [log_info log_file fst snd]. rewrite string_append_assoc.
      reflexivity. }
  split; [apply Hfile|]. split; [rewrite Hfile; apply string_prefix_append|].
  revert s. induction calls as [| [[ts msg] p] calls IH]; intros s.
  - cbn. rewrite app_nil_r. reflexivity.
  - unfold log_all in *. cbn [fold_left List.filter snd]. rewrite IH.
    cbn [log_info stdout fst snd].
    destruct p; [|reflexivity].
    cbn [map]. rewrite <- app_assoc. reflexivity.
Qed.

(** ** What a run writes into its checkpoints *)

Lemma step_event_written_with cfg (t : list Event) :
  Forall step_event t -> Forall (written_with cfg) t.
Proof.
  intros Ht. eapply Forall_impl; [exact Ht|].
  intros e [He _]. destruct e; try exact Logic.I. discriminate He.
Qed.

(** X21: every checkpoint written during a run of the script has exactly
    the keys [model], [optimizer], [model_args], [best_val_loss], [config]
    and [best_val_bleu]; its [config] entry is the configuration as read at
    start-up (so with the accumulation step count before its division by
    the world size, and with the initial [iter_num]), and its [model_args]
    entry is derived from that configuration. *)
Theorem saved_checkpoints_hold_startup_config env cfg file bcast_it bcast_loss
    orc :
  Forall (fun c : gmap string PyVal =>
            dom c = ({["model"; "optimizer"; "model_args"; "best_val_loss";
                       "config"; "best_val_bleu"]} : gset string)
            /\ c !! "config" = Some (VConfig cfg)
            /\ c !! "model_args" = Some (VModelArgs (model_args cfg)))
    (saved (trace (main env cfg file bcast_it bcast_loss orc))).
Proof.
  assert (Htrain : forall ctx steps st,
             Forall (written_with cfg) (trace (train cfg ctx steps orc st))).
  { intros ctx steps st.
    apply (train_ensures cfg ctx steps orc (Forall (written_with cfg))
             (fun _ => True)); try (intros; exact Logic.I).
    - apply Forall_closed_under_app.
    - intros s _. split; [|trivial].
      destruct (Z.eqb_spec (eval_interval cfg) 0) as [Hz | Hnz].
      + unfold eval_and_checkpoint, py_mod. rewrite Hz. constructor.
      + rewrite (eval_and_checkpoint_run _ _ _ _ Hnz). cbn zeta.
        destruct ((iter_num s mod eval_interval cfg =? 0) && master_process ctx);
          [|constructor].
        cbn [trace].
        destruct (wandb_enabled cfg ctx),
          (improved cfg s _ _ && (0 <? iter_num s));
          repeat constructor; cbn; eauto.
    - intros batch it.
      apply step_event_written_with, accumulate_and_step_events.
    - intros epoch it loss.
      apply step_event_written_with, log_iteration_events.
    - intros e He _. constructor; [|constructor].
      destruct e; try discriminate He; exact Logic.I. }
  assert (Hmain : Forall (written_with cfg)
                    (trace (main env cfg file bcast_it bcast_loss orc))).
  { unfold main. apply Forall_trace_bind; [constructor | intros [ctx steps]].
    apply Forall_trace_bind; [constructor | intros [r st]]. apply Htrain. }
  induction Hmain as [| e t He _ IH]; [constructor|].
  unfold saved in *. destruct e; cbn; try exact IH.
  constructor; [|exact IH].
  destruct He as (model & optimizer & st & ->).
  split; [apply make_checkpoint_keys|]. split; reflexivity.
Qed.
